(** * CityFix: the report store (src/contexts/ReportContext.tsx) and the
      image upload helper (lib/storage), embedded and verified.

    The store is a React context: an in-memory list of reports and a
    handful of asynchronous operations that first talk to the hosted
    backend (lib/issues.ts) and then update the list.  The embedding
    keeps that shape: a world (local list, console, backend state,
    network trace) is threaded through a state-and-exception monad,
    every [await] of a backend wrapper is one [request], and
    [try]/[catch]/[finally] are monad combinators.  One operation runs at
    a time; interleavings of pending operations are not modelled.

    JavaScript values are kept at their runtime representation: the
    TypeScript unions ['pothole' | ...] are strings at runtime (the code
    casts remote strings into them with [as]), so categories, statuses
    and severities are [string]s here and the typed vocabularies are
    separate enumerations with their spelling.  Apart from that, fields
    hold values of their declared TypeScript type, with two exceptions
    where the value is [undefined] at run time: the user id of a comment
    read back by [getReportById] (the join of lib/issues.ts selects no
    id), and a key that a caller of [updateReport] passes with the value
    [undefined], which [Partial<Report>] admits (module [Runtime]).
    Vote counts are [Z] (the model does not follow doubles past 2^53);
    coordinates are binary64 floats and are only ever copied. *)

From Stdlib Require Import ZArith String Ascii Floats.
From stdpp Require Import base strings list numbers pretty.

Local Open Scope Z_scope.

(** ** JavaScript truthiness, for the values the code tests *)

Module Js.

(** [if (s)] on a string: every string but the empty one. *)
Definition truthy_string (s : string) : bool :=
  negb (String.eqb s "").

(** [if (n)] on a number (NaN is not represented): every number but 0. *)
Definition truthy_number (n : Z) : bool :=
  negb (n =? 0).

(** [a || b] on numbers. *)
Definition or_number (a b : Z) : Z :=
  if truthy_number a then a else b.

(** [a || b] on strings. *)
Definition or_string (a b : string) : string :=
  if truthy_string a then a else b.

(** [a || b] where [a] is an array: arrays, even empty ones, are truthy. *)
Definition or_array {A : Type} (a b : list A) : list A := a.

(** [s.split(sep)] for a one-character separator. *)
Fixpoint split (sep : ascii) (s : string) : list string :=
  match s with
  | EmptyString => [EmptyString]
  | String c s' =>
      if Ascii.eqb c sep then EmptyString :: split sep s'
      else match split sep s' with
           | seg :: rest => String c seg :: rest
           | [] => [String c EmptyString]
           end
  end.

(** [arr.pop()] read as a value: the last element ([dflt] on an empty array). *)
Definition pop (arr : list string) (dflt : string) : string :=
  List.last arr dflt.

(** [s.startsWith(p)] *)
Definition startsWith (s p : string) : bool := String.prefix p s.

(** A thrown value: an error object of the backend client, one made by
    the code with [new Error(message)], or the engine's [TypeError] on
    reading a property of [null]. *)
Inductive Thrown :=
| BackendError (message : string)
| Error (message : string)
| TypeError (message : string).

End Js.

(** ** The typed vocabularies and their runtime spelling *)

Inductive ReportCategory :=
| pothole | streetlight | garbage | graffiti
| road_damage | flooding | sign_damage | other.

Inductive ReportStatus :=
| reported | under_review | in_progress | resolved | closed.

Inductive ReportSeverity := low | medium | high.

(** lib/supabase: the remote vocabularies. *)
Inductive IssueCategory :=
| road | water | electricity | waste | issue_other.

Inductive IssuePriority :=
| prio_low | prio_medium | prio_high | prio_critical.

Inductive IssueStatus :=
| issue_reported | issue_in_progress | issue_resolved | issue_closed.

Definition category_str (c : ReportCategory) : string :=
  match c with
  | pothole => "pothole" | streetlight => "streetlight"
  | garbage => "garbage" | graffiti => "graffiti"
  | road_damage => "road_damage" | flooding => "flooding"
  | sign_damage => "sign_damage" | other => "other"
  end.

Definition status_str (s : ReportStatus) : string :=
  match s with
  | reported => "reported" | under_review => "under_review"
  | in_progress => "in_progress" | resolved => "resolved"
  | closed => "closed"
  end.

Definition severity_str (s : ReportSeverity) : string :=
  match s with low => "low" | medium => "medium" | high => "high" end.

Definition issue_category_str (c : IssueCategory) : string :=
  match c with
  | road => "road" | water => "water" | electricity => "electricity"
  | waste => "waste" | issue_other => "other"
  end.

Definition issue_priority_str (p : IssuePriority) : string :=
  match p with
  | prio_low => "low" | prio_medium => "medium"
  | prio_high => "high" | prio_critical => "critical"
  end.

Definition issue_status_str (s : IssueStatus) : string :=
  match s with
  | issue_reported => "reported" | issue_in_progress => "in_progress"
  | issue_resolved => "resolved" | issue_closed => "closed"
  end.

Definition all_categories : list ReportCategory :=
  [pothole; streetlight; garbage; graffiti; road_damage; flooding;
   sign_damage; other].

Definition all_issue_statuses : list IssueStatus :=
  [issue_reported; issue_in_progress; issue_resolved; issue_closed].

(** ** Records *)

(** [{ id, name }] of [reportedBy] and [assignedTo]. *)
Record UserRef := { ref_id : string; ref_name : string }.

Record Coordinates := { lat : float; lng : float }.

(** [Report.location] *)
Record Location := { address : string; coordinates : Coordinates }.

(** [ReportComment.user].  The id is declared a string; it is [None]
    where the object holds [undefined] at run time, which is the case of
    every comment that [getReportById] builds from the remote join. *)
Record CommentUser := {
  cu_id : option string;
  cu_name : string;
  cu_role : string
}.

Module ReportComment.
Record t := mk {
  id : string;
  text : string;
  createdAt : string;
  user : CommentUser
}.
End ReportComment.

Module Report.
Record t := mk {
  id : string;
  title : string;
  description : string;
  category : string;
  location : Location;
  images : list string;
  status : string;
  severity : string;
  reportedBy : UserRef;
  createdAt : string;
  updatedAt : string;
  upvotes : Z;
  upvotedBy : list string;
  comments : list ReportComment.t;
  assignedTo : option UserRef
}.
End Report.

(** The argument of [addReport]:
    [Omit<Report, 'id'|'createdAt'|'updatedAt'|'upvotes'|'upvotedBy'|'comments'>]. *)
Module Draft.
Record t := mk {
  title : string;
  description : string;
  category : string;
  location : Location;
  images : list string;
  status : string;
  severity : string;
  reportedBy : UserRef;
  assignedTo : option UserRef
}.
End Draft.

(** [Partial<Report>]: every field may be absent; a field that is
    present holds a value of its declared type.  (A key passed with the
    value [undefined] is in [Runtime.Partial], further down.) *)
Module Updates.
Record t := mk {
  id : option string;
  title : option string;
  description : option string;
  category : option string;
  location : option Location;
  images : option (list string);
  status : option string;
  severity : option string;
  reportedBy : option UserRef;
  createdAt : option string;
  updatedAt : option string;
  upvotes : option Z;
  upvotedBy : option (list string);
  comments : option (list ReportComment.t);
  assignedTo : option UserRef
}.
End Updates.

(** lib/supabase [Issue.location] *)
Record IssueLocation := {
  latitude : float;
  longitude : float;
  loc_address : string
}.

(** lib/supabase [Issue]: a row of the remote [issues] table. *)
Module Issue.
Record t := mk {
  id : string;
  title : string;
  description : string;
  status : string;
  priority : string;
  category : string;
  location : IssueLocation;
  images : list string;
  created_at : string;
  updated_at : string;
  user_id : string;
  assigned_to : option string;
  resolution_notes : option string;
  votes : Z
}.
End Issue.

(** The object [supabaseIssue] that [addReport] hands to [createIssue]. *)
Module NewIssue.
Record t := mk {
  title : string;
  description : string;
  category : string;
  status : string;
  priority : string;
  location : IssueLocation;
  images : list string;
  user_id : string
}.
End NewIssue.

(** The object [supabaseUpdates] that [updateReport] fills key by key. *)
Module IssueUpdates.
Record t := mk {
  title : option string;
  description : option string;
  category : option string;
  priority : option string;
  location : option IssueLocation;
  images : option (list string);
  status : option string
}.
End IssueUpdates.

(** The argument of [createComment]; [user_id] is [commentData.user.id]
    as it is at run time. *)
Module NewComment.
Record t := mk {
  issue_id : string;
  user_id : option string;
  content : string
}.
End NewComment.

(** lib/supabase [IssueComment]: a row of the remote [issue_comments] table. *)
Module IssueComment.
Record t := mk {
  id : string;
  issue_id : string;
  user_id : string;
  content : string;
  created_at : string;
  updated_at : string
}.
End IssueComment.

(** The joined profile of a fetched comment.  [getComments] selects
    [user:profiles(name, avatar_url)], so these two columns are all the
    object has: [comment.user.id] and [comment.user.role], which
    [getReportById] also reads, are [undefined]. *)
Record Profile := { p_name : string; p_avatar_url : option string }.

(** A comment as [getComments] selects it: the row, and its [user],
    which is [null] ([None]) when the join finds no profile. *)
Module JoinedComment.
Record t := mk { row : IssueComment.t; user : option Profile }.
End JoinedComment.

(** The browser's [File], as far as [uploadImage] reads it. *)
Module File.
Record t := mk { name : string; type : string; size : Z }.
End File.

(** ** The backend, as the store reaches it

    Every request of lib/issues.ts and lib/storage is a [Call]; the
    backend answers with [{ data, error }], read here as the error's
    message or the data. *)

Inductive Call : Type :=
| CreateIssue (issue : NewIssue.t)
| GetIssues
| UpdateIssue (id : string) (updates : IssueUpdates.t)
| DeleteIssue (id : string)
| VoteOnIssue (id userId : string)
| CreateComment (comment : NewComment.t)
| GetComments (issueId : string)
| StorageUpload (filePath : string) (file : File.t).

Definition Data (c : Call) : Type :=
  match c with
  | CreateIssue _ => Issue.t
  | GetIssues => list Issue.t
  | UpdateIssue _ _ => Issue.t
  | DeleteIssue _ => unit
  | VoteOnIssue _ _ => unit
  | CreateComment _ => IssueComment.t
  | GetComments _ => list JoinedComment.t
  | StorageUpload _ _ => unit
  end.

Record Backend := {
  remote : Type;
  serve : forall c : Call, remote -> (string + Data c) * remote;
  (** [storage.from('images').getPublicUrl(path)]: computed by the client,
      no request. *)
  getPublicUrl : string -> string
}.

(** ** The world an operation runs in *)

Record World (B : Backend) := mkWorld {
  reports : list Report.t;           (* useState<Report[]> *)
  isLoading : bool;                  (* useState<boolean> *)
  console : list (string * Js.Thrown);  (* console.error(label, error) *)
  store : remote B;                  (* what the backend holds *)
  network : list Call                (* every request made, oldest first *)
}.

Arguments mkWorld {B} _ _ _ _ _.
Arguments reports {B} _.
Arguments isLoading {B} _.
Arguments console {B} _.
Arguments store {B} _.
Arguments network {B} _.

(** An asynchronous function body: it ends with a value or a thrown
    error, and what it did to the world before throwing stays done. *)
Definition M (B : Backend) (A : Type) : Type :=
  World B -> (Js.Thrown + A) * World B.

Section Monad.
Context {B : Backend}.

Definition ret {A} (a : A) : M B A := fun w => (inr a, w).

Definition bind {A C} (m : M B A) (k : A -> M B C) : M B C :=
  fun w =>
    match m w with
    | (inr a, w') => k a w'
    | (inl e, w') => (inl e, w')
    end.

Definition throw {A} (e : Js.Thrown) : M B A := fun w => (inl e, w).

(** An expression that either throws or has a value, and touches nothing. *)
Definition evaluate {A} (r : Js.Thrown + A) : M B A := fun w => (r, w).

(** [try { m } catch (error) { handler error }] *)
Definition try_catch {A} (m : M B A) (handler : Js.Thrown -> M B A) : M B A :=
  fun w =>
    match m w with
    | (inr a, w') => (inr a, w')
    | (inl e, w') => handler e w'
    end.

(** [try { m } finally { cleanup }] *)
Definition try_finally {A} (m : M B A) (cleanup : M B unit) : M B A :=
  fun w =>
    match m w with
    | (r, w') =>
        match cleanup w' with
        | (inr _, w'') => (r, w'')
        | (inl e, w'') => (inl e, w'')
        end
    end.

(** [setReports(prev => f prev)]; [setReports(v)] is the constant [f]. *)
Definition setReports (f : list Report.t -> list Report.t) : M B unit :=
  fun w =>
    (inr tt, mkWorld (f (reports w)) (isLoading w) (console w) (store w) (network w)).

Definition setIsLoading (b : bool) : M B unit :=
  fun w => (inr tt, mkWorld (reports w) b (console w) (store w) (network w)).

Definition console_error (label : string) (e : Js.Thrown) : M B unit :=
  fun w =>
    (inr tt,
     mkWorld (reports w) (isLoading w) (console w ++ [(label, e)]) (store w) (network w)).

(** [await supabase...]: one request, answered by the backend. *)
Definition request (c : Call) : M B (string + Data c) :=
  fun w =>
    match serve B c (store w) with
    | (answer, s') =>
        (inr answer,
         mkWorld (reports w) (isLoading w) (console w) s' (network w ++ [c]))
    end.

(** [if (error) throw error; return data;] *)
Definition data_or_throw {A} (answer : string + A) : M B A :=
  match answer with
  | inl error => throw (Js.BackendError error)
  | inr data => ret data
  end.

End Monad.

(** The operations below are written with stdpp's monad notation:
    [x ← m; k] awaits [m] and goes on with [k]; [m;; k] drops the value. *)
#[global] Instance M_ret {B : Backend} : MRet (M B) := @ret B.
#[global] Instance M_bind {B : Backend} : MBind (M B) :=
  fun A C k m => bind m k.

(** ** lib/issues.ts: the wrappers the store awaits *)

Section Issues.
Context {B : Backend}.

Definition createIssue (issue : NewIssue.t) : M B Issue.t :=
  answer ← request (CreateIssue issue); data_or_throw answer.

(** Called without filters by the store. *)
Definition getIssues : M B (list Issue.t) :=
  answer ← request GetIssues; data_or_throw answer.

Definition updateIssue (id : string) (updates : IssueUpdates.t) : M B Issue.t :=
  answer ← request (UpdateIssue id updates); data_or_throw answer.

Definition deleteIssue (id : string) : M B unit :=
  answer ← request (DeleteIssue id); data_or_throw answer.

Definition voteOnIssue (id userId : string) : M B unit :=
  answer ← request (VoteOnIssue id userId); data_or_throw answer.

Definition createComment (comment : NewComment.t) : M B IssueComment.t :=
  answer ← request (CreateComment comment); data_or_throw answer.

Definition getComments (issueId : string) : M B (list JoinedComment.t) :=
  answer ← request (GetComments issueId); data_or_throw answer.

End Issues.

(** ** contexts/ReportContext.tsx: [ReportProvider] *)

(** The argument of [addComment]: [Omit<ReportComment, 'id' | 'createdAt'>]. *)
Record CommentData := { cd_text : string; cd_user : CommentUser }.

(** [if (field) target.key = field]: an absent or falsy string sets nothing. *)
Definition truthy_field (field : option string) : option string :=
  match field with
  | Some s => if Js.truthy_string s then Some s else None
  | None => None
  end.

Definition reportCategoryToIssueCategory (category : string) : string :=
  if String.eqb category "pothole" then "road"
  else if String.eqb category "road_damage" then "road"
  else if String.eqb category "streetlight" then "electricity"
  else if String.eqb category "garbage" then "waste"
  else if String.eqb category "flooding" then "waste"
  else if String.eqb category "sign_damage" then "waste"
  else if String.eqb category "graffiti" then "other"
  else if String.eqb category "other" then "other"
  else "other".

Definition reportSeverityToPriority (severity : string) : string :=
  if String.eqb severity "low" then "low"
  else if String.eqb severity "medium" then "medium"
  else if String.eqb severity "high" then "high"
  else "medium".

(** The callback of [issues.map] in [fetchReports]. *)
Definition formatReport (issue : Issue.t) : Report.t :=
  {| Report.id := Issue.id issue;
     Report.title := Issue.title issue;
     Report.description := Issue.description issue;
     Report.category := Issue.category issue;       (* as ReportCategory *)
     Report.location :=
       {| address := loc_address (Issue.location issue);
          coordinates :=
            {| lat := latitude (Issue.location issue);
               lng := longitude (Issue.location issue) |} |};
     Report.images := Js.or_array (Issue.images issue) [];
     Report.status := Issue.status issue;           (* as ReportStatus *)
     Report.severity := Issue.priority issue;       (* as ReportSeverity *)
     Report.reportedBy :=
       {| ref_id := Issue.user_id issue; ref_name := "Anonymous" |};
     Report.createdAt := Issue.created_at issue;
     Report.updatedAt := Issue.updated_at issue;
     Report.upvotes := Js.or_number (Issue.votes issue) 0;
     Report.upvotedBy := [];
     Report.comments := [];
     Report.assignedTo :=
       match truthy_field (Issue.assigned_to issue) with
       | Some assigned_to => Some {| ref_id := assigned_to; ref_name := "Anonymous" |}
       | None => None
       end |}.

(** [supabaseIssue] of [addReport]. *)
Definition supabaseIssue (report : Draft.t) : NewIssue.t :=
  {| NewIssue.title := Draft.title report;
     NewIssue.description := Draft.description report;
     NewIssue.category := reportCategoryToIssueCategory (Draft.category report);
     NewIssue.status :=
       if String.eqb (Draft.status report) "under_review" then "reported"
       else Draft.status report;
     NewIssue.priority := reportSeverityToPriority (Draft.severity report);
     NewIssue.location :=
       {| latitude := lat (coordinates (Draft.location report));
          longitude := lng (coordinates (Draft.location report));
          loc_address := address (Draft.location report) |};
     NewIssue.images := Draft.images report;
     NewIssue.user_id := ref_id (Draft.reportedBy report) |}.

(** [newReport] of [addReport]. *)
Definition newReport (report : Draft.t) (createdIssue : Issue.t) : Report.t :=
  {| Report.id := Issue.id createdIssue;
     Report.title := Issue.title createdIssue;
     Report.description := Issue.description createdIssue;
     Report.category := Draft.category report;
     Report.location :=
       {| address := loc_address (Issue.location createdIssue);
          coordinates :=
            {| lat := latitude (Issue.location createdIssue);
               lng := longitude (Issue.location createdIssue) |} |};
     Report.images := Issue.images createdIssue;
     Report.status := Issue.status createdIssue;
     Report.severity := Draft.severity report;
     Report.reportedBy := Draft.reportedBy report;
     Report.createdAt := Issue.created_at createdIssue;
     Report.updatedAt := Issue.updated_at createdIssue;
     Report.upvotes := Js.or_number (Issue.votes createdIssue) 0;
     Report.upvotedBy := [];
     Report.comments := [];
     Report.assignedTo :=
       match truthy_field (Issue.assigned_to createdIssue) with
       | Some assigned_to => Some {| ref_id := assigned_to; ref_name := "Anonymous" |}
       | None => None
       end |}.

(** [supabaseUpdates] of [updateReport], after its seven [if]s. *)
Definition supabaseUpdates (updates : Updates.t) : IssueUpdates.t :=
  {| IssueUpdates.title := truthy_field (Updates.title updates);
     IssueUpdates.description := truthy_field (Updates.description updates);
     IssueUpdates.category :=
       reportCategoryToIssueCategory <$> truthy_field (Updates.category updates);
     IssueUpdates.priority :=
       reportSeverityToPriority <$> truthy_field (Updates.severity updates);
     IssueUpdates.location :=
       (fun l : Location =>
          {| latitude := lat (coordinates l);
             longitude := lng (coordinates l);
             loc_address := address l |}) <$> Updates.location updates;
     IssueUpdates.images := Updates.images updates;   (* any array is truthy *)
     IssueUpdates.status := truthy_field (Updates.status updates) |}.

(** [{ ...report, ...updates, updatedAt: now }], for [updates] whose
    present keys hold values; [Runtime.merge] is the spread with
    [undefined] among them. *)
Definition merge (report : Report.t) (updates : Updates.t) (now : string) : Report.t :=
  {| Report.id := default (Report.id report) (Updates.id updates);
     Report.title := default (Report.title report) (Updates.title updates);
     Report.description :=
       default (Report.description report) (Updates.description updates);
     Report.category := default (Report.category report) (Updates.category updates);
     Report.location := default (Report.location report) (Updates.location updates);
     Report.images := default (Report.images report) (Updates.images updates);
     Report.status := default (Report.status report) (Updates.status updates);
     Report.severity := default (Report.severity report) (Updates.severity updates);
     Report.reportedBy :=
       default (Report.reportedBy report) (Updates.reportedBy updates);
     Report.createdAt := default (Report.createdAt report) (Updates.createdAt updates);
     Report.updatedAt := now;
     Report.upvotes := default (Report.upvotes report) (Updates.upvotes updates);
     Report.upvotedBy := default (Report.upvotedBy report) (Updates.upvotedBy updates);
     Report.comments := default (Report.comments report) (Updates.comments updates);
     Report.assignedTo :=
       match Updates.assignedTo updates with
       | Some a => Some a
       | None => Report.assignedTo report
       end |}.

(** The callback of [comments.map] in [getReportById].  Reading
    [comment.user.id] of a [null] user throws; on a joined profile
    [.id] is [undefined] and [.role || 'citizen'] is ['citizen'], since
    the join has neither column. *)
Definition transformComment (comment : JoinedComment.t)
    : Js.Thrown + ReportComment.t :=
  match JoinedComment.user comment with
  | None =>
      inl (Js.TypeError "Cannot read properties of null (reading 'id')")
  | Some user =>
      inr {| ReportComment.id := IssueComment.id (JoinedComment.row comment);
             ReportComment.text := IssueComment.content (JoinedComment.row comment);
             ReportComment.createdAt :=
               IssueComment.created_at (JoinedComment.row comment);
             ReportComment.user :=
               {| cu_id := None;
                  cu_name := p_name user;
                  cu_role := "citizen" |} |}
  end.

(** [comments.map(transformComment)]: the first callback that throws
    ends the whole map. *)
Fixpoint transformComments (comments : list JoinedComment.t)
    : Js.Thrown + list ReportComment.t :=
  match comments with
  | [] => inr []
  | comment :: rest =>
      match transformComment comment with
      | inl error => inl error
      | inr transformed =>
          match transformComments rest with
          | inl error => inl error
          | inr transformedRest => inr (transformed :: transformedRest)
          end
      end
  end.

(** [{ ...report, comments }] *)
Definition with_comments (report : Report.t) (comments : list ReportComment.t) : Report.t :=
  {| Report.id := Report.id report;
     Report.title := Report.title report;
     Report.description := Report.description report;
     Report.category := Report.category report;
     Report.location := Report.location report;
     Report.images := Report.images report;
     Report.status := Report.status report;
     Report.severity := Report.severity report;
     Report.reportedBy := Report.reportedBy report;
     Report.createdAt := Report.createdAt report;
     Report.updatedAt := Report.updatedAt report;
     Report.upvotes := Report.upvotes report;
     Report.upvotedBy := Report.upvotedBy report;
     Report.comments := comments;
     Report.assignedTo := Report.assignedTo report |}.

(** The callback of [reports.map] in [upvoteReport]. *)
Definition upvote (id userId now : string) (report : Report.t) : Report.t :=
  if bool_decide (Report.id report = id) then
    if bool_decide (userId ∈ Report.upvotedBy report) then report
    else
      {| Report.id := Report.id report;
         Report.title := Report.title report;
         Report.description := Report.description report;
         Report.category := Report.category report;
         Report.location := Report.location report;
         Report.images := Report.images report;
         Report.status := Report.status report;
         Report.severity := Report.severity report;
         Report.reportedBy := Report.reportedBy report;
         Report.createdAt := Report.createdAt report;
         Report.updatedAt := now;
         Report.upvotes := Report.upvotes report + 1;
         Report.upvotedBy := Report.upvotedBy report ++ [userId];
         Report.comments := Report.comments report;
         Report.assignedTo := Report.assignedTo report |}
  else report.

(** The callback of [reports.map] in [addComment]. *)
Definition append_comment (reportId now : string) (newComment : ReportComment.t)
    (report : Report.t) : Report.t :=
  if bool_decide (Report.id report = reportId) then
    {| Report.id := Report.id report;
       Report.title := Report.title report;
       Report.description := Report.description report;
       Report.category := Report.category report;
       Report.location := Report.location report;
       Report.images := Report.images report;
       Report.status := Report.status report;
       Report.severity := Report.severity report;
       Report.reportedBy := Report.reportedBy report;
       Report.createdAt := Report.createdAt report;
       Report.updatedAt := now;
       Report.upvotes := Report.upvotes report;
       Report.upvotedBy := Report.upvotedBy report;
       Report.comments := Report.comments report ++ [newComment];
       Report.assignedTo := Report.assignedTo report |}
  else report.

(** The provider builds its operations anew at every render, and five of
    them read [reports] from that render's closure: the list as it was
    when the render ran, which an operation still holds after its
    [await].  That list is their first argument here; an operation taken
    from the render that shows the world [w] is applied to [reports w].
    [addReport] and [fetchReports] do not read the closure. *)

Section ReportProvider.
Context {B : Backend}.

Definition fetchReports : M B unit :=
  try_finally
    (try_catch
       (issues ← getIssues;
        let formattedReports := formatReport <$> issues in
        setReports (fun _ => formattedReports))
       (fun error => console_error "Error fetching reports:" error))
    (setIsLoading false).

(** The callback given to [subscribeToIssues]: any change notification
    refreshes the whole list. *)
Definition onIssuesChange (payload : unit) : M B unit := fetchReports.

Definition addReport (report : Draft.t) : M B Report.t :=
  createdIssue ← createIssue (supabaseIssue report);
  setReports (fun prevReports => prevReports ++ [newReport report createdIssue]);;
  mret (newReport report createdIssue).

(** [now] is what [new Date().toISOString()] reads. *)
Definition updateReport (reports : list Report.t) (id : string)
    (updates : Updates.t) (now : string) : M B unit :=
  updateIssue id (supabaseUpdates updates);;
  setReports (fun _ =>
    (fun report =>
       if bool_decide (Report.id report = id) then merge report updates now
       else report) <$> reports).

Definition deleteReport (reports : list Report.t) (id : string) : M B unit :=
  deleteIssue id;;
  setReports (fun _ => filter (fun report => Report.id report ≠ id) reports).

(** [undefined] is [None]. *)
Definition getReportById (reports : list Report.t) (id : string)
    : M B (option Report.t) :=
  match List.find (fun report => bool_decide (Report.id report = id)) reports with
  | None => mret None
  | Some report =>
      try_catch
        (comments ← getComments id;
         transformedComments ← evaluate (transformComments comments);
         mret (Some (with_comments report transformedComments)))
        (fun error =>
           console_error "Error fetching comments:" error;;
           mret (Some report))
  end.

Definition upvoteReport (reports : list Report.t) (id userId now : string)
    : M B unit :=
  try_catch
    (voteOnIssue id userId)
    (fun error => console_error "Error upvoting issue in Supabase:" error);;
  setReports (fun _ => upvote id userId now <$> reports).

Definition addComment (reports : list Report.t) (reportId : string)
    (commentData : CommentData) (now : string) : M B unit :=
  try_catch
    (comment ← createComment
                 {| NewComment.issue_id := reportId;
                    NewComment.user_id := cu_id (cd_user commentData);
                    NewComment.content := cd_text commentData |};
     let newComment :=
       {| ReportComment.id := IssueComment.id comment;
          ReportComment.text := cd_text commentData;
          ReportComment.createdAt := IssueComment.created_at comment;
          ReportComment.user := cd_user commentData |} in
     setReports (fun _ => append_comment reportId now newComment <$> reports))
    (fun error =>
       console_error "Error adding comment:" error;;
       throw error).

End ReportProvider.

(** ** [updateReport] on every [Partial<Report>]

    The type [Partial<Report>] also admits a key that is present with
    the value [undefined].  The seven [if]s skip such a key, and the
    spread [{ ...report, ...updates }] copies it: the local record then
    holds [undefined] under a key whose declared type has no such value.
    This module has the payload and the spread for these arguments, on
    records whose fields may be [undefined]; [stored] and [partial]
    embed the typed records, on which they are [supabaseUpdates] and
    [merge]. *)

Module Runtime.

(** [updates.key], for a caller's [updates]. *)
Inductive key (A : Type) : Type :=
| absent                (* no such key *)
| is_undefined          (* [key: undefined] *)
| holds (a : A).        (* [key: a] *)

Arguments absent {A}.
Arguments is_undefined {A}.
Arguments holds {A} a.

(** The argument [updates]. *)
Module Partial.
Record t := mk {
  id : key string;
  title : key string;
  description : key string;
  category : key string;
  location : key Location;
  images : key (list string);
  status : key string;
  severity : key string;
  reportedBy : key UserRef;
  createdAt : key string;
  updatedAt : key string;
  upvotes : key Z;
  upvotedBy : key (list string);
  comments : key (list ReportComment.t);
  assignedTo : key UserRef
}.
End Partial.

(** A record of the local collection; [None] is [undefined]. *)
Module Stored.
Record t := mk {
  id : option string;
  title : option string;
  description : option string;
  category : option string;
  location : option Location;
  images : option (list string);
  status : option string;
  severity : option string;
  reportedBy : option UserRef;
  createdAt : option string;
  updatedAt : option string;
  upvotes : option Z;
  upvotedBy : option (list string);
  comments : option (list ReportComment.t);
  assignedTo : option UserRef
}.
End Stored.

(** [if (updates.key)] on a string key: the value that is then
    assigned, if the test passes. *)
Definition truthy_string (k : key string) : option string :=
  match k with
  | holds s => if Js.truthy_string s then Some s else None
  | absent | is_undefined => None
  end.

(** [if (updates.key)] on an array or object key: every array and every
    object passes. *)
Definition truthy_object {A : Type} (k : key A) : option A :=
  match k with
  | holds a => Some a
  | absent | is_undefined => None
  end.

(** [supabaseUpdates] of [updateReport], after its seven [if]s. *)
Definition supabaseUpdates (updates : Partial.t) : IssueUpdates.t :=
  {| IssueUpdates.title := truthy_string (Partial.title updates);
     IssueUpdates.description := truthy_string (Partial.description updates);
     IssueUpdates.category :=
       reportCategoryToIssueCategory <$> truthy_string (Partial.category updates);
     IssueUpdates.priority :=
       reportSeverityToPriority <$> truthy_string (Partial.severity updates);
     IssueUpdates.location :=
       (fun l : Location =>
          {| latitude := lat (coordinates l);
             longitude := lng (coordinates l);
             loc_address := address l |}) <$> truthy_object (Partial.location updates);
     IssueUpdates.images := truthy_object (Partial.images updates);
     IssueUpdates.status := truthy_string (Partial.status updates) |}.

(** One key of [{ ...report, ...updates }]: a key of [updates]
    overwrites, whatever it holds. *)
Definition spread {A : Type} (old : option A) (k : key A) : option A :=
  match k with
  | absent => old
  | is_undefined => None
  | holds a => Some a
  end.

(** [{ ...report, ...updates, updatedAt: now }] *)
Definition merge (report : Stored.t) (updates : Partial.t) (now : string) : Stored.t :=
  {| Stored.id := spread (Stored.id report) (Partial.id updates);
     Stored.title := spread (Stored.title report) (Partial.title updates);
     Stored.description :=
       spread (Stored.description report) (Partial.description updates);
     Stored.category := spread (Stored.category report) (Partial.category updates);
     Stored.location := spread (Stored.location report) (Partial.location updates);
     Stored.images := spread (Stored.images report) (Partial.images updates);
     Stored.status := spread (Stored.status report) (Partial.status updates);
     Stored.severity := spread (Stored.severity report) (Partial.severity updates);
     Stored.reportedBy :=
       spread (Stored.reportedBy report) (Partial.reportedBy updates);
     Stored.createdAt := spread (Stored.createdAt report) (Partial.createdAt updates);
     Stored.updatedAt := Some now;
     Stored.upvotes := spread (Stored.upvotes report) (Partial.upvotes updates);
     Stored.upvotedBy := spread (Stored.upvotedBy report) (Partial.upvotedBy updates);
     Stored.comments := spread (Stored.comments report) (Partial.comments updates);
     Stored.assignedTo :=
       spread (Stored.assignedTo report) (Partial.assignedTo updates) |}.

(** [updateReport]: the request it awaits and, once that is answered
    with a row, the list it hands to [setReports]. *)
Definition updateReport (reports : list Stored.t) (id : string)
    (updates : Partial.t) (now : string) : Call * list Stored.t :=
  (UpdateIssue id (supabaseUpdates updates),
   (fun report =>
      if bool_decide (Stored.id report = Some id) then merge report updates now
      else report) <$> reports).

(** A typed record, as the collection stores it. *)
Definition stored (report : Report.t) : Stored.t :=
  {| Stored.id := Some (Report.id report);
     Stored.title := Some (Report.title report);
     Stored.description := Some (Report.description report);
     Stored.category := Some (Report.category report);
     Stored.location := Some (Report.location report);
     Stored.images := Some (Report.images report);
     Stored.status := Some (Report.status report);
     Stored.severity := Some (Report.severity report);
     Stored.reportedBy := Some (Report.reportedBy report);
     Stored.createdAt := Some (Report.createdAt report);
     Stored.updatedAt := Some (Report.updatedAt report);
     Stored.upvotes := Some (Report.upvotes report);
     Stored.upvotedBy := Some (Report.upvotedBy report);
     Stored.comments := Some (Report.comments report);
     Stored.assignedTo := Report.assignedTo report |}.

Definition given {A : Type} (field : option A) : key A :=
  match field with
  | Some a => holds a
  | None => absent
  end.

(** A typed update, as a caller passes it. *)
Definition partial (updates : Updates.t) : Partial.t :=
  {| Partial.id := given (Updates.id updates);
     Partial.title := given (Updates.title updates);
     Partial.description := given (Updates.description updates);
     Partial.category := given (Updates.category updates);
     Partial.location := given (Updates.location updates);
     Partial.images := given (Updates.images updates);
     Partial.status := given (Updates.status updates);
     Partial.severity := given (Updates.severity updates);
     Partial.reportedBy := given (Updates.reportedBy updates);
     Partial.createdAt := given (Updates.createdAt updates);
     Partial.updatedAt := given (Updates.updatedAt updates);
     Partial.upvotes := given (Updates.upvotes updates);
     Partial.upvotedBy := given (Updates.upvotedBy updates);
     Partial.comments := given (Updates.comments updates);
     Partial.assignedTo := given (Updates.assignedTo updates) |}.

End Runtime.

(** ** lib/storage: [uploadImage] *)

(** [1.5 * 1024 * 1024], in bytes. *)
Definition maxSize : Z := 3 * 1024 * 1024 / 2.

Section Storage.
Context {B : Backend}.

(** [random] is [Math.random().toString(36).substring(2)] and [stamp] is
    [Date.now()] as printed in the template string; [folder] defaults to
    ['issues']. *)
Definition uploadImage (file : File.t) (folder : option string)
    (random stamp : string) : M B string :=
  let folder := default "issues" folder in
  try_catch
    ((if negb (Js.startsWith (File.type file) "image/")
      then throw (Js.Error "Invalid file type. Please upload an image file.")
      else mret tt);;
     (if File.size file >? maxSize
      then throw (Js.Error "File size exceeds 1.5MB limit.")
      else mret tt);;
     let fileExt := Js.pop (Js.split "." (File.name file)) "" in
     let fileName := random +:+ "-" +:+ stamp +:+ "." +:+ fileExt in
     let filePath := folder +:+ "/" +:+ fileName in
     answer ← request (StorageUpload filePath file);
     match answer with
     | inl uploadError =>
         console_error "Error uploading file:" (Js.BackendError uploadError);;
         throw (Js.Error ("Failed to upload image: " +:+ uploadError))
     | inr _ => mret tt
     end;;
     let publicUrl := getPublicUrl B filePath in
     (if negb (Js.truthy_string publicUrl)
      then throw (Js.Error "Failed to get public URL for uploaded image")
      else mret tt);;
     mret publicUrl)
    (fun error =>
       console_error "Error in uploadImage:" error;;
       throw error).

End Storage.

(** ** The invariant of the local collection, and the spec's tables *)

(** [upvotedBy] has no duplicate and [upvotes] is its size. *)
Definition consistent (report : Report.t) : Prop :=
  NoDup (Report.upvotedBy report)
  ∧ Report.upvotes report = Z.of_nat (length (Report.upvotedBy report)).

Definition store_inv (reports : list Report.t) : Prop :=
  Forall consistent reports.

(** The category table of the specification (section 4.1), row by row. *)
(** The local shape of a fetched comment: id, text and time are the
    row's, the name is the joined profile's, there is no user id and the
    role is ['citizen']. *)
Definition local_shape (comment : JoinedComment.t) (c : ReportComment.t) : Prop :=
  ReportComment.id c = IssueComment.id (JoinedComment.row comment)
  /\ ReportComment.text c = IssueComment.content (JoinedComment.row comment)
  /\ ReportComment.createdAt c = IssueComment.created_at (JoinedComment.row comment)
  /\ cu_id (ReportComment.user c) = None
  /\ Some (cu_name (ReportComment.user c)) = p_name <$> JoinedComment.user comment
  /\ cu_role (ReportComment.user c) = "citizen".

(** [b] is [a] in every field but [comments]. *)
Definition same_but_comments (a b : Report.t) : Prop :=
  Report.id b = Report.id a
  /\ Report.title b = Report.title a
  /\ Report.description b = Report.description a
  /\ Report.category b = Report.category a
  /\ Report.location b = Report.location a
  /\ Report.images b = Report.images a
  /\ Report.status b = Report.status a
  /\ Report.severity b = Report.severity a
  /\ Report.reportedBy b = Report.reportedBy a
  /\ Report.createdAt b = Report.createdAt a
  /\ Report.updatedAt b = Report.updatedAt a
  /\ Report.upvotes b = Report.upvotes a
  /\ Report.upvotedBy b = Report.upvotedBy a
  /\ Report.assignedTo b = Report.assignedTo a.

(** Every fetched comment has its joined user. *)
Definition all_joined (comments : list JoinedComment.t) : Prop :=
  Forall (fun comment => is_Some (JoinedComment.user comment)) comments.

Definition spec_category_table (c : ReportCategory) : IssueCategory :=
  match c with
  | pothole | road_damage => road
  | streetlight => electricity
  | garbage | flooding | sign_damage => waste
  | graffiti | other => issue_other
  end.

(** The severity table of the specification: each severity is the
    priority of the same name. *)
Definition spec_severity_table (s : ReportSeverity) : IssuePriority :=
  match s with
  | low => prio_low
  | medium => prio_medium
  | high => prio_high
  end.

(** The status rule of the specification for remote writes:
    [under_review] becomes [reported], the rest is kept. *)
Definition spec_remote_status (status : string) : string :=
  if String.eqb status "under_review" then "reported" else status.

(** ** A backend to run the store against

    An in-memory stand-in for the hosted backend, behaving as the
    collaborator contracts of the specification (section 6) describe:
    create returns the record with a generated id, timestamps and no
    votes; list returns the rows newest first; update and delete fail on
    an unknown id; vote counts each voter once; comments are listed
    oldest first.  While [online] is off every request fails. *)

Module Mem.

Record t := mk {
  rows : list Issue.t;
  voters : list (string * string);
  comment_rows : list JoinedComment.t;
  serial : nat;
  online : bool
}.

Definition empty : t := mk [] [] [] 1 true.

Definition unplug (s : t) : t :=
  mk (rows s) (voters s) (comment_rows s) (serial s) false.

Definition has (id : string) (s : t) : bool :=
  bool_decide (id ∈ Issue.id <$> rows s).

Definition created (p : NewIssue.t) (n : nat) : Issue.t :=
  {| Issue.id := "issue-" +:+ pretty n;
     Issue.title := NewIssue.title p;
     Issue.description := NewIssue.description p;
     Issue.status := NewIssue.status p;
     Issue.priority := NewIssue.priority p;
     Issue.category := NewIssue.category p;
     Issue.location := NewIssue.location p;
     Issue.images := NewIssue.images p;
     Issue.created_at := "t" +:+ pretty n;
     Issue.updated_at := "t" +:+ pretty n;
     Issue.user_id := NewIssue.user_id p;
     Issue.assigned_to := None;
     Issue.resolution_notes := None;
     Issue.votes := 0 |}.

Definition patched (u : IssueUpdates.t) (n : nat) (row : Issue.t) : Issue.t :=
  {| Issue.id := Issue.id row;
     Issue.title := default (Issue.title row) (IssueUpdates.title u);
     Issue.description := default (Issue.description row) (IssueUpdates.description u);
     Issue.status := default (Issue.status row) (IssueUpdates.status u);
     Issue.priority := default (Issue.priority row) (IssueUpdates.priority u);
     Issue.category := default (Issue.category row) (IssueUpdates.category u);
     Issue.location := default (Issue.location row) (IssueUpdates.location u);
     Issue.images := default (Issue.images row) (IssueUpdates.images u);
     Issue.created_at := Issue.created_at row;
     Issue.updated_at := "t" +:+ pretty n;
     Issue.user_id := Issue.user_id row;
     Issue.assigned_to := Issue.assigned_to row;
     Issue.resolution_notes := Issue.resolution_notes row;
     Issue.votes := Issue.votes row |}.

Definition voted (row : Issue.t) : Issue.t :=
  {| Issue.id := Issue.id row;
     Issue.title := Issue.title row;
     Issue.description := Issue.description row;
     Issue.status := Issue.status row;
     Issue.priority := Issue.priority row;
     Issue.category := Issue.category row;
     Issue.location := Issue.location row;
     Issue.images := Issue.images row;
     Issue.created_at := Issue.created_at row;
     Issue.updated_at := Issue.updated_at row;
     Issue.user_id := Issue.user_id row;
     Issue.assigned_to := Issue.assigned_to row;
     Issue.resolution_notes := Issue.resolution_notes row;
     Issue.votes := Issue.votes row + 1 |}.

Definition at_id (id : string) (f : Issue.t -> Issue.t) (row : Issue.t) : Issue.t :=
  if bool_decide (Issue.id row = id) then f row else row.

(** A new comment is joined with a profile; one sent without a user id
    is stored under the empty id. *)
Definition comment_row (c : NewComment.t) (n : nat) : JoinedComment.t :=
  {| JoinedComment.row :=
       {| IssueComment.id := "comment-" +:+ pretty n;
          IssueComment.issue_id := NewComment.issue_id c;
          IssueComment.user_id := default "" (NewComment.user_id c);
          IssueComment.content := NewComment.content c;
          IssueComment.created_at := "t" +:+ pretty n;
          IssueComment.updated_at := "t" +:+ pretty n |};
     JoinedComment.user :=
       Some {| p_name := "Anonymous"; p_avatar_url := None |} |}.

Definition serve (c : Call) (s : t) : (string + Data c) * t :=
  if negb (online s) then (inl "Failed to fetch", s)
  else
    match c as c0 return (string + Data c0) * t with
    | CreateIssue p =>
        (inr (created p (serial s)),
         mk (created p (serial s) :: rows s) (voters s) (comment_rows s)
            (S (serial s)) true)
    | GetIssues => (inr (rows s), s)
    | UpdateIssue id u =>
        match List.find (fun row => bool_decide (Issue.id row = id)) (rows s) with
        | Some row =>
            (inr (patched u (serial s) row),
             mk (at_id id (patched u (serial s)) <$> rows s) (voters s)
                (comment_rows s) (S (serial s)) true)
        | None => (inl "no row with this id", s)
        end
    | DeleteIssue id =>
        if has id s then
          (inr tt,
           mk (filter (fun row => Issue.id row ≠ id) (rows s)) (voters s)
              (comment_rows s) (serial s) true)
        else (inl "no row with this id", s)
    | VoteOnIssue id userId =>
        if has id s then
          if bool_decide ((id, userId) ∈ voters s) then (inr tt, s)
          else
            (inr tt,
             mk (at_id id voted <$> rows s) ((id, userId) :: voters s)
                (comment_rows s) (serial s) true)
        else (inl "no row with this id", s)
    | CreateComment c =>
        (inr (JoinedComment.row (comment_row c (serial s))),
         mk (rows s) (voters s) (comment_rows s ++ [comment_row c (serial s)])
            (S (serial s)) true)
    | GetComments issueId =>
        (inr (filter
                (fun c => IssueComment.issue_id (JoinedComment.row c) = issueId)
                (comment_rows s)),
         s)
    | StorageUpload _ _ => (inr tt, s)
    end.

Definition backend : Backend :=
  Build_Backend t serve (fun path => "https://cdn.example/images/" +:+ path).

(** A freshly mounted provider: nothing loaded yet. *)
Definition mounted (s : t) : World backend := @mkWorld backend [] true [] s [].

End Mem.

(** Run an operation and keep the world it leaves. *)
Definition after {B A} (m : M B A) (w : World B) : World B := (m w).2.

(** Run an operation and keep how it ended. *)
Definition outcome {B A} (m : M B A) (w : World B) : Js.Thrown + A := (m w).1.

(** ** Sample inputs *)

Definition jane : UserRef := {| ref_id := "u-jane"; ref_name := "Jane Smith" |}.

Definition oak_avenue : Location :=
  {| address := "456 Oak Ave, Anytown";
     coordinates := {| lat := 40.75%float; lng := (-74.125)%float |} |}.

Definition streetlight_draft : Draft.t :=
  {| Draft.title := "Broken streetlight on Oak Avenue";
     Draft.description := "Streetlight is not working.";
     Draft.category := "streetlight";
     Draft.location := oak_avenue;
     Draft.images := [];
     Draft.status := "reported";
     Draft.severity := "medium";
     Draft.reportedBy := jane;
     Draft.assignedTo := None |}.

Definition test_comment : CommentData :=
  {| cd_text := "test";
     cd_user :=
       {| cu_id := Some "u-jane"; cu_name := "Jane Smith"; cu_role := "citizen" |} |}.

(** The world after Jane's report went through on an empty backend. *)
Definition one_report : World Mem.backend :=
  after (addReport streetlight_draft) (Mem.mounted Mem.empty).

(** The same local list, with the backend unreachable. *)
Definition one_report_offline : World Mem.backend :=
  @mkWorld Mem.backend (reports one_report) false [] (Mem.unplug (store one_report)) [].

(** A remote comment whose author's profile is gone: the join is [null]. *)
Definition orphan : JoinedComment.t :=
  {| JoinedComment.row :=
       {| IssueComment.id := "comment-9";
          IssueComment.issue_id := "issue-1";
          IssueComment.user_id := "u-gone";
          IssueComment.content := "still broken";
          IssueComment.created_at := "t9";
          IssueComment.updated_at := "t9" |};
     JoinedComment.user := None |}.

(** Jane's report, with that comment in the remote table. *)
Definition orphaned_comment : World Mem.backend :=
  @mkWorld Mem.backend (reports one_report) false []
    (Mem.mk (Mem.rows (store one_report)) (Mem.voters (store one_report))
       [orphan] (Mem.serial (store one_report)) true)
    [].

Definition photo : File.t :=
  {| File.name := "lamp.post.png"; File.type := "image/png"; File.size := 204800 |}.

Definition pdf : File.t :=
  {| File.name := "form.pdf"; File.type := "application/pdf"; File.size := 1024 |}.

Definition huge_photo : File.t :=
  {| File.name := "pano.jpg"; File.type := "image/jpeg"; File.size := 1572865 |}.

(** The world after a request [c] was answered, the backend left at [s']. *)
Definition sent {B} (c : Call) (s' : remote B) (w : World B) : World B :=
  mkWorld (reports w) (isLoading w) (console w) s' (network w ++ [c]).

(** The request [addComment] makes for a comment. *)
Definition comment_request (reportId : string) (commentData : CommentData) : Call :=
  CreateComment
    {| NewComment.issue_id := reportId;
       NewComment.user_id := cu_id (cd_user commentData);
       NewComment.content := cd_text commentData |}.

(** [{ title }], an edit of the title alone. *)
Definition title_only (title : string) : Updates.t :=
  Updates.mk None (Some title) None None None None None None None None None
    None None None None.

(** [{ images }], an edit of the attachments alone. *)
Definition images_only (images : list string) : Updates.t :=
  Updates.mk None None None None None (Some images) None None None None None
    None None None None.

(** [{ images: undefined }]: the key is there, its value is not. *)
Definition images_undefined : Runtime.Partial.t :=
  Runtime.Partial.mk Runtime.absent Runtime.absent Runtime.absent Runtime.absent
    Runtime.absent Runtime.is_undefined Runtime.absent Runtime.absent
    Runtime.absent Runtime.absent Runtime.absent Runtime.absent Runtime.absent
    Runtime.absent Runtime.absent.

(** [{ upvotes }]: [Partial<Report>] lets a caller set the counter. *)
Definition upvotes_only (upvotes : Z) : Updates.t :=
  Updates.mk None None None None None None None None None None None
    (Some upvotes) None None None.

(** The [filePath] that [uploadImage] builds. *)
Definition filePath (file : File.t) (folder : option string) (random stamp : string)
    : string :=
  default "issues" folder +:+ "/"
  +:+ (random +:+ "-" +:+ stamp +:+ "." +:+ Js.pop (Js.split "." (File.name file)) "").

(** [{ status }], the update the admin dashboard sends. *)
Definition status_only (status : string) : Updates.t :=
  Updates.mk None None None None None None (Some status) None None None None
    None None None None.

(** ** The rest of lib/storage and the callers of the provider

    What follows embeds code outside the provider: [deleteImage] of
    lib/storage, the handlers of the pages and components that call the
    provider's operations, and the list computations of the dashboards.
    A handler shows toasts and navigates; here it returns them. *)

Module JsString.

(** [s.includes(c)] for a one-character [c]. *)
Fixpoint includes_char (s : string) (c : ascii) : bool :=
  match s with
  | EmptyString => false
  | String d s' => Ascii.eqb d c || includes_char s' c
  end.

(** [s.replace(c, r)] for a one-character pattern [c]: the first
    occurrence only. *)
Fixpoint replace (s : string) (c : ascii) (r : string) : string :=
  match s with
  | EmptyString => EmptyString
  | String d s' => if Ascii.eqb d c then r +:+ s' else String d (replace s' c r)
  end.

(** The one-character string holding a double quote. *)
Definition dquote : string := String "034"%char EmptyString.

End JsString.

Module JsNumber.

(** [!x] on a number held as a double: true for 0, -0 and NaN. *)
Definition falsy (x : float) : bool :=
  PrimFloat.eqb x 0%float || negb (PrimFloat.eqb x x).

End JsNumber.

Module JsArray.

(** [arr.slice(start, end)] with integer arguments: a negative index
    counts from the end, both are clamped to the array. *)
Definition slice {A : Type} (arr : list A) (start stop : Z) : list A :=
  let len := Z.of_nat (length arr) in
  let k := if start <? 0 then Z.max (len + start) 0 else Z.min start len in
  let final := if stop <? 0 then Z.max (len + stop) 0 else Z.min stop len in
  take (Z.to_nat (Z.max (final - k) 0)) (drop (Z.to_nat k) arr).

End JsArray.

(** [toast({ title, description, variant })] *)
Record Toast := {
  toast_title : string;
  toast_description : string;
  toast_variant : option string
}.

Definition destructive (title description : string) : Toast :=
  {| toast_title := title; toast_description := description;
     toast_variant := Some "destructive" |}.

Definition plain (title description : string) : Toast :=
  {| toast_title := title; toast_description := description;
     toast_variant := None |}.

(** contexts/AuthContext.tsx: [User] and what [useAuth] hands out. *)
Module User.
Record t := mk {
  id : string;
  name : string;
  email : string;
  role : string;
  avatar : option string
}.
End User.

Record Auth := { currentUser : option User.t; isAuthenticated : bool }.

(** Calling an asynchronous operation without [await] and without a
    handler: what it does still happens, how it ends is lost to the
    caller (a rejection goes unhandled). *)
Definition detached {B A} (m : M B A) : M B unit :=
  fun w => match m w with (_, w') => (inr tt, w') end.

(** *** lib/storage: [deleteImage] *)

Section StorageRemove.
Context {B : Backend}.

(** [supabase.storage.from('images').remove(paths)], answered with
    [{ error }].  The trace [network] keeps to the requests of [Call]; a
    removal shows in what it does to the backend. *)
Variable remove : list string -> remote B -> option string * remote B.

Definition storage_remove (paths : list string) : M B (option string) :=
  fun w =>
    match remove paths (store w) with
    | (error, s') =>
        (inr error, mkWorld (reports w) (isLoading w) (console w) s' (network w))
    end.

Definition deleteImage (url : string) : M B unit :=
  try_catch
    (let filePath := Js.pop (Js.split "/" url) "" in
     (if negb (Js.truthy_string filePath)
      then throw (Js.Error "Invalid file URL")
      else mret tt);;
     error ← storage_remove [filePath];
     match error with
     | Some e =>
         console_error "Error deleting file:" (Js.BackendError e);;
         throw (Js.Error "Failed to delete image")
     | None => mret tt
     end)
    (fun error =>
       console_error "Error in deleteImage:" error;;
       throw error).

End StorageRemove.

(** *** pages/AdminDashboard.tsx *)

Module AdminDashboard.

Section Handlers.
Context {B : Backend}.

(** [updateReport] is called without [await]; the toast follows. *)
Definition handleStatusChange (reports : list Report.t)
    (reportId newStatus now : string) : M B (list Toast) :=
  detached (updateReport reports reportId (status_only newStatus) now);;
  mret
    [plain "Status Updated"
       ("Report status has been updated to " +:+ JsString.dquote
        +:+ JsString.replace newStatus "_" " " +:+ JsString.dquote +:+ ".")].

End Handlers.

(** [Math.ceil(length / itemsPerPage)] for a positive page size; the
    quotient of two integers below 2^53 rounds to no smaller integer, so
    the ceiling of the double is the ceiling of the fraction. *)
Definition totalPages {A} (sortedReports : list A) (itemsPerPage : Z) : Z :=
  (Z.of_nat (length sortedReports) + itemsPerPage - 1) / itemsPerPage.

Definition startIndex (currentPage itemsPerPage : Z) : Z :=
  (currentPage - 1) * itemsPerPage.

Definition endIndex (currentPage itemsPerPage : Z) : Z :=
  startIndex currentPage itemsPerPage + itemsPerPage.

Definition paginatedReports {A} (sortedReports : list A)
    (currentPage itemsPerPage : Z) : list A :=
  JsArray.slice sortedReports (startIndex currentPage itemsPerPage)
    (endIndex currentPage itemsPerPage).

End AdminDashboard.

(** *** components/ReportList.tsx *)

Module ReportList.

Section Handlers.
Context {B : Backend}.

Definition handleUpvote (reports : list Report.t) (auth : Auth)
    (reportId now : string) : M B (list Toast) :=
  match isAuthenticated auth, currentUser auth with
  | true, Some user =>
      detached (upvoteReport reports reportId (User.id user) now);;
      mret [plain "Report upvoted" "Thank you for your feedback!"]
  | _, _ =>
      mret [destructive "Authentication required" "Please sign in to upvote reports"]
  end.

End Handlers.

End ReportList.

(** *** The issue page ([ViewIssue]) *)

Module ViewIssue.

(** The page's own state, as far as the handlers below touch it; [report]
    is the copy the page loaded with [getReportById]. *)
Record Page := {
  report : Report.t;
  comment : string;
  busy : bool;                 (* isLoading *)
  showEditDialog : bool
}.

Definition with_comment (page : Page) (comment : string) (busy : bool) : Page :=
  {| report := report page; comment := comment; busy := busy;
     showEditDialog := showEditDialog page |}.

Definition with_dialog (page : Page) (showEditDialog : bool) : Page :=
  {| report := report page; comment := comment page; busy := busy page;
     showEditDialog := showEditDialog |}.

(** [z.infer<typeof editSchema>] *)
Record EditFormValues := {
  f_title : string;
  f_description : string;
  f_category : string;
  f_severity : string;
  f_address : string;
  f_coordinates : Coordinates;
  f_imageUrl : string
}.

Definition validCategories : list string :=
  ["pothole"; "streetlight"; "garbage"; "graffiti"; "road_damage"; "flooding";
   "sign_damage"; "other"].

Definition hasUpvoted (auth : Auth) (report : Report.t) : bool :=
  match currentUser auth with
  | Some user => bool_decide (User.id user ∈ Js.or_array (Report.upvotedBy report) [])
  | None => false
  end.

(** [handleEdit]: the values put in the form ([form.reset]) and the
    dialog opened, or the toast of the guard. *)
Definition handleEdit (page : Page) : Page * option EditFormValues * list Toast :=
  let report := report page in
  if JsNumber.falsy (lat (coordinates (Report.location report)))
     || JsNumber.falsy (lng (coordinates (Report.location report)))
  then (page, None, [destructive "Error" "Invalid location coordinates"])
  else
    (with_dialog page true,
     Some
       {| f_title := Report.title report;
          f_description := Report.description report;
          f_category :=
            if bool_decide (Report.category report ∈ validCategories)
            then Report.category report else "pothole";
          f_severity := Report.severity report;
          f_address := address (Report.location report);
          f_coordinates :=
            {| lat := lat (coordinates (Report.location report));
               lng := lng (coordinates (Report.location report)) |};
          f_imageUrl :=
            match Report.images report with
            | first :: _ => first
            | [] => ""
            end |},
     []).

(** The update [onSubmit] hands to [updateReport]. *)
Definition edit (data : EditFormValues) : Updates.t :=
  {| Updates.id := None;
     Updates.title := Some (f_title data);
     Updates.description := Some (f_description data);
     Updates.category := Some (f_category data);
     Updates.location :=
       Some {| address := f_address data;
               coordinates :=
                 {| lat := lat (f_coordinates data);
                    lng := lng (f_coordinates data) |} |};
     Updates.images :=
       Some (if Js.truthy_string (f_imageUrl data) then [f_imageUrl data] else []);
     Updates.status := None;
     Updates.severity := Some (f_severity data);
     Updates.reportedBy := None;
     Updates.createdAt := None;
     Updates.updatedAt := None;
     Updates.upvotes := None;
     Updates.upvotedBy := None;
     Updates.comments := None;
     Updates.assignedTo := None |}.

Section Handlers.
Context {B : Backend}.

(** [String.prototype.trim], as the engine provides it. *)
Variable trim : string -> string.

Definition handleUpvote (reports : list Report.t) (auth : Auth) (page : Page)
    (now : string) : M B (list Toast) :=
  match isAuthenticated auth, currentUser auth with
  | true, Some user =>
      if hasUpvoted auth (report page)
      then mret [destructive "Already upvoted" "You have already upvoted this report"]
      else
        detached (upvoteReport reports (Report.id (report page)) (User.id user) now);;
        mret [plain "Report upvoted" "Thank you for your feedback!"]
  | _, _ =>
      mret [destructive "Authentication required" "Please sign in to upvote reports"]
  end.

(** [setIsLoading(true)] before the [try] is undone by the [finally];
    the page is given as the handler leaves it. *)
Definition handleCommentSubmit (reports : list Report.t) (auth : Auth) (page : Page)
    (now : string) : M B (Page * list Toast) :=
  match isAuthenticated auth, currentUser auth with
  | true, Some user =>
      if negb (Js.truthy_string (trim (comment page))) then mret (page, [])
      else
        try_catch
          (addComment reports (Report.id (report page))
             {| cd_text := trim (comment page);
                cd_user :=
                  {| cu_id := Some (User.id user);
                     cu_name := User.name user;
                     cu_role := User.role user |} |}
             now;;
           mret (with_comment page "" false,
                 [plain "Comment Added" "Your comment has been added to the report."]))
          (fun error =>
             console_error "Error adding comment:" error;;
             mret (with_comment page (comment page) false,
                   [destructive "Error" "There was a problem adding your comment."]))
  | _, _ => mret (page, [])
  end.

(** [deleteReport] is called without [await]; the toast and the
    navigation follow.  The result is the toast and where the page goes. *)
Definition confirmDelete (reports : list Report.t) (page : Page)
    : M B (list Toast * string) :=
  detached (deleteReport reports (Report.id (report page)));;
  mret ([plain "Issue Deleted" "Your issue has been deleted."], "/dashboard").

Definition onSubmit (reports : list Report.t) (page : Page) (data : EditFormValues)
    (now : string) : M B (Page * list Toast) :=
  try_catch
    (updateReport reports (Report.id (report page)) (edit data) now;;
     mret (with_dialog page false,
           [plain "Issue Updated" "Your issue has been updated successfully."]))
    (fun error =>
       console_error "Error updating report:" error;;
       mret (page,
             [destructive "Error" "Failed to update the issue. Please try again."])).

End Handlers.

End ViewIssue.

(** The comment the comment form of the issue page sends for [user]. *)
Definition comment_of (user : User.t) (text : string) : CommentData :=
  {| cd_text := text;
     cd_user :=
       {| cu_id := Some (User.id user);
          cu_name := User.name user;
          cu_role := User.role user |} |}.

(** *** pages/Dashboard.tsx *)

Module Dashboard.

Definition userReports (reports : list Report.t) (currentUser : User.t)
    : list Report.t :=
  filter (fun report => ref_id (Report.reportedBy report) = User.id currentUser)
    reports.

Definition pendingReports (userReports : list Report.t) : list Report.t :=
  filter (fun report =>
            Report.status report = "reported" ∨ Report.status report = "under_review")
    userReports.

Definition activeReports (userReports : list Report.t) : list Report.t :=
  filter (fun report => Report.status report = "in_progress") userReports.

Definition resolvedReports (userReports : list Report.t) : list Report.t :=
  filter (fun report =>
            Report.status report = "resolved" ∨ Report.status report = "closed")
    userReports.

End Dashboard.

(** *** components/PhotoUpload.tsx *)

Module PhotoUpload.

(** The filter of [handleFileSelect], with the toasts it shows for a
    file; [maxSizeMB] is 1.5 wherever the component is used, so the
    limit [maxSizeMB * 1024 * 1024] is [maxSize]. *)
Definition isValidType (file : File.t) : bool :=
  Js.startsWith (File.type file) "image/".

Definition isValidSize (file : File.t) : bool :=
  File.size file <=? maxSize.

Definition file_toasts (file : File.t) : list Toast :=
  (if isValidType file then []
   else [destructive "Invalid file type" "Please upload only image files."])
  ++ (if isValidSize file then []
      else [destructive "File too large" "Please upload files smaller than 1.5MB."]).

(** What a call of [handleFileSelect] leaves: the selection, the
    argument of [onImagesChange] if it was called, and the toasts. *)
Record Selected := {
  selection : list File.t;
  reported : option (list File.t);
  shown : list Toast
}.

(** [handleFileSelect(files)]; [null] is [None].  [images] is the
    selection of the render the handler belongs to: the limit is checked
    against it and [onImagesChange] gets it.  [prev] is the selection
    when [setImages(prev => ...)] is applied; the two are the same list
    when the handler's render is the current one. *)
Definition handleFileSelect (maxFiles : nat) (images prev : list File.t)
    (files : option (list File.t)) : Selected :=
  match files with
  | None => {| selection := prev; reported := None; shown := [] |}
  | Some newFiles =>
      let validFiles :=
        List.filter (fun file => isValidType file && isValidSize file) newFiles in
      let toasts := concat (file_toasts <$> newFiles) in
      if (maxFiles <? length images + length validFiles)%nat
      then
        {| selection := prev;
           reported := None;
           shown :=
             toasts
             ++ [destructive "Too many files"
                   ("You can upload up to " +:+ pretty maxFiles +:+ " images.")] |}
      else
        {| selection := prev ++ validFiles;
           reported := Some (images ++ validFiles);
           shown := toasts |}
  end.

End PhotoUpload.

(** *** A backend that keeps what the storage holds *)

(** [Mem], with the paths stored in the bucket: an upload adds its path,
    a removal drops the paths it names; a removal while the bucket is
    [locked] fails. *)
Module Bucket.

Record t := mk { base : Mem.t; objects : list string; locked : bool }.

Definition serve (c : Call) (s : t) : (string + Data c) * t :=
  match Mem.serve c (base s) with
  | (answer, base') =>
      (answer,
       mk base'
          (match c, answer with
           | StorageUpload filePath _, inr _ => objects s ++ [filePath]
           | _, _ => objects s
           end)
          (locked s))
  end.

Definition backend : Backend :=
  Build_Backend t serve (fun path => "https://cdn.example/images/" +:+ path).

Definition remove (paths : list string) (s : remote backend)
    : option string * remote backend :=
  if locked s then (Some "new row violates row-level security policy", s)
  else (None, mk (base s) (filter (fun path => path ∉ paths) (objects s)) (locked s)).

Definition empty : World backend :=
  @mkWorld backend [] false [] (mk Mem.empty [] false) [].

Definition empty_locked : World backend :=
  @mkWorld backend [] false [] (mk Mem.empty [] true) [].

End Bucket.

(** *** More sample inputs *)

Definition bob : User.t :=
  {| User.id := "u-bob"; User.name := "Bob Johnson"; User.email := "bob@example.org";
     User.role := "citizen"; User.avatar := None |}.

Definition signed_in (user : User.t) : Auth :=
  {| currentUser := Some user; isAuthenticated := true |}.

Definition signed_out : Auth := {| currentUser := None; isAuthenticated := false |}.

Definition pothole_draft : Draft.t :=
  {| Draft.title := "Large pothole on Main Street";
     Draft.description := "A pothole near the intersection with Oak Avenue.";
     Draft.category := "pothole";
     Draft.location := oak_avenue;
     Draft.images := ["https://cdn.example/a.jpg"; "https://cdn.example/b.jpg"];
     Draft.status := "under_review";
     Draft.severity := "high";
     Draft.reportedBy := jane;
     Draft.assignedTo := None |}.

(** Jane's streetlight report followed by her pothole report. *)
Definition two_reports : World Mem.backend :=
  after (addReport pothole_draft) one_report.

(** [{ category }], an edit of the category alone. *)
Definition category_only (category : string) : Updates.t :=
  Updates.mk None None None (Some category) None None None None None None None
    None None None None.

(** The pothole report as a fetch brings it back, and the issue page
    showing it with an empty comment box. *)
Definition fetched_pothole : Report.t :=
  formatReport (Mem.created (supabaseIssue pothole_draft) 1).

Definition pothole_page : ViewIssue.Page :=
  {| ViewIssue.report := fetched_pothole;
     ViewIssue.comment := "";
     ViewIssue.busy := false;
     ViewIssue.showEditDialog := false |}.

(** The world after the pothole report was created and the list fetched. *)
Definition pothole_fetched : World Mem.backend :=
  after fetchReports (after (addReport pothole_draft) (Mem.mounted Mem.empty)).

(** The bucket after the photo was uploaded. *)
Definition photo_uploaded : World Bucket.backend :=
  after (uploadImage photo None "k3j9x" "1714000000000") Bucket.empty.

(** * Properties *)

(** ** Running the wrappers of lib/issues.ts *)

Ltac unfold_monad :=
  unfold after, outcome, mbind, M_bind, bind, mret, M_ret, ret, throw, try_catch,
    try_finally, setReports, setIsLoading, console_error, request,
    data_or_throw, evaluate, sent in *.

Section Running.
Context {B : Backend}.

Lemma wrapper_failed (c : Call) (w : World B) e s' :
  serve B c (store w) = (inl e, s') ->
  (answer ← request c; data_or_throw answer) w
  = (inl (Js.BackendError e), sent c s' w).
Proof. intros Hserve. unfold_monad. now rewrite Hserve. Qed.

Lemma wrapper_answered (c : Call) (w : World B) data s' :
  serve B c (store w) = (inr data, s') ->
  (answer ← request c; data_or_throw answer) w = (inr data, sent c s' w).
Proof. intros Hserve. unfold_monad. now rewrite Hserve. Qed.

(** A request is answered one way or the other. *)
Lemma serve_cases (c : Call) (s : remote B) :
  (exists e s', serve B c s = (inl e, s'))
  \/ (exists data s', serve B c s = (inr data, s')).
Proof. destruct (serve B c s) as [[e | data] s']; eauto. Qed.

End Running.

(** ** The vocabulary mapping *)

(** C8: on every local category the mapping of the code is the category
    table of the specification (pothole and road_damage to road,
    streetlight to electricity, garbage, flooding and sign_damage to
    waste, graffiti and other to other), and on every local severity it
    is the priority of the same name. *)
Theorem C8_vocabulary_mapping_is_the_table :
  (forall c : ReportCategory,
      reportCategoryToIssueCategory (category_str c)
      = issue_category_str (spec_category_table c))
  /\ (forall s : ReportSeverity,
      reportSeverityToPriority (severity_str s)
      = issue_priority_str (spec_severity_table s)
      /\ reportSeverityToPriority (severity_str s) = severity_str s).
Proof.
  split.
  - intros c. destruct c; reflexivity.
  - intros s. destruct s; split; reflexivity.
Qed.

(** The table spelled out on the runtime strings. *)
Lemma category_mapping_values :
  reportCategoryToIssueCategory <$> (category_str <$> all_categories)
  = ["road"; "electricity"; "waste"; "other"; "road"; "waste"; "waste"; "other"].
Proof. reflexivity. Qed.

(** A string outside the local vocabulary takes the [default] branch. *)
Lemma category_mapping_default :
  reportCategoryToIssueCategory "electricity" = "other"
  /\ reportSeverityToPriority "critical" = "medium".
Proof. split; reflexivity. Qed.

(** ** What each operation does, by the backend's answer *)

Section Operations.
Context {B : Backend}.
Implicit Type w : World B.
Implicit Type rs : list Report.t.

Lemma addReport_failed report w e s' :
  serve B (CreateIssue (supabaseIssue report)) (store w) = (inl e, s') ->
  addReport report w
  = (inl (Js.BackendError e), sent (CreateIssue (supabaseIssue report)) s' w).
Proof. intros H. unfold addReport, createIssue. unfold_monad. now rewrite H. Qed.

Lemma addReport_created report w created s' :
  serve B (CreateIssue (supabaseIssue report)) (store w) = (inr created, s') ->
  addReport report w
  = (inr (newReport report created),
     mkWorld (reports w ++ [newReport report created]) (isLoading w) (console w)
       s' (network w ++ [CreateIssue (supabaseIssue report)])).
Proof. intros H. unfold addReport, createIssue. unfold_monad. now rewrite H. Qed.

Lemma updateReport_failed rs id updates now w e s' :
  serve B (UpdateIssue id (supabaseUpdates updates)) (store w) = (inl e, s') ->
  updateReport rs id updates now w
  = (inl (Js.BackendError e), sent (UpdateIssue id (supabaseUpdates updates)) s' w).
Proof. intros H. unfold updateReport, updateIssue. unfold_monad. simpl. now rewrite H. Qed.

Lemma updateReport_updated rs id updates now w row s' :
  serve B (UpdateIssue id (supabaseUpdates updates)) (store w) = (inr row, s') ->
  updateReport rs id updates now w
  = (inr tt,
     mkWorld
       ((fun report =>
           if bool_decide (Report.id report = id) then merge report updates now
           else report) <$> rs)
       (isLoading w) (console w) s'
       (network w ++ [UpdateIssue id (supabaseUpdates updates)])).
Proof. intros H. unfold updateReport, updateIssue. unfold_monad. simpl. now rewrite H. Qed.

Lemma deleteReport_failed rs id w e s' :
  serve B (DeleteIssue id) (store w) = (inl e, s') ->
  deleteReport rs id w = (inl (Js.BackendError e), sent (DeleteIssue id) s' w).
Proof. intros H. unfold deleteReport, deleteIssue. unfold_monad. simpl. now rewrite H. Qed.

Lemma deleteReport_deleted rs id w s' :
  serve B (DeleteIssue id) (store w) = (inr tt, s') ->
  deleteReport rs id w
  = (inr tt,
     mkWorld (filter (fun report => Report.id report ≠ id) rs)
       (isLoading w) (console w) s' (network w ++ [DeleteIssue id])).
Proof. intros H. unfold deleteReport, deleteIssue. unfold_monad. simpl. now rewrite H. Qed.

Lemma addComment_failed rs reportId commentData now w e s' :
  serve B (comment_request reportId commentData) (store w) = (inl e, s') ->
  addComment rs reportId commentData now w
  = (inl (Js.BackendError e),
     mkWorld (reports w) (isLoading w)
       (console w ++ [("Error adding comment:", Js.BackendError e)]) s'
       (network w ++ [comment_request reportId commentData])).
Proof.
  unfold comment_request. intros H.
  unfold addComment, createComment. unfold_monad. simpl. now rewrite H.
Qed.

Lemma addComment_created rs reportId commentData now w comment s' :
  serve B (comment_request reportId commentData) (store w) = (inr comment, s') ->
  addComment rs reportId commentData now w
  = (inr tt,
     mkWorld
       (append_comment reportId now
          {| ReportComment.id := IssueComment.id comment;
             ReportComment.text := cd_text commentData;
             ReportComment.createdAt := IssueComment.created_at comment;
             ReportComment.user := cd_user commentData |} <$> rs)
       (isLoading w) (console w) s'
       (network w ++ [comment_request reportId commentData])).
Proof.
  unfold comment_request. intros H.
  unfold addComment, createComment. unfold_monad. simpl. now rewrite H.
Qed.

Lemma upvoteReport_vote_failed rs id userId now w e s' :
  serve B (VoteOnIssue id userId) (store w) = (inl e, s') ->
  upvoteReport rs id userId now w
  = (inr tt,
     mkWorld (upvote id userId now <$> rs) (isLoading w)
       (console w ++ [("Error upvoting issue in Supabase:", Js.BackendError e)]) s'
       (network w ++ [VoteOnIssue id userId])).
Proof. intros H. unfold upvoteReport, voteOnIssue. unfold_monad. simpl. now rewrite H. Qed.

Lemma upvoteReport_voted rs id userId now w s' :
  serve B (VoteOnIssue id userId) (store w) = (inr tt, s') ->
  upvoteReport rs id userId now w
  = (inr tt,
     mkWorld (upvote id userId now <$> rs) (isLoading w) (console w) s'
       (network w ++ [VoteOnIssue id userId])).
Proof. intros H. unfold upvoteReport, voteOnIssue. unfold_monad. simpl. now rewrite H. Qed.

Lemma fetchReports_failed w e s' :
  serve B GetIssues (store w) = (inl e, s') ->
  fetchReports w
  = (inr tt,
     mkWorld (reports w) false
       (console w ++ [("Error fetching reports:", Js.BackendError e)]) s'
       (network w ++ [GetIssues])).
Proof. intros H. unfold fetchReports, getIssues. unfold_monad. simpl. now rewrite H. Qed.

Lemma fetchReports_fetched w (issues : list Issue.t) s' :
  serve B GetIssues (store w) = (inr issues, s') ->
  fetchReports w
  = (inr tt,
     mkWorld (formatReport <$> issues) false (console w) s'
       (network w ++ [GetIssues])).
Proof. intros H. unfold fetchReports, getIssues. unfold_monad. simpl. now rewrite H. Qed.

Lemma getReportById_absent rs id w :
  List.find (fun report => bool_decide (Report.id report = id)) rs = None ->
  getReportById rs id w = (inr None, w).
Proof. intros H. unfold getReportById. unfold_monad. simpl. now rewrite H. Qed.

Lemma getReportById_comments_failed rs id w report e s' :
  List.find (fun report => bool_decide (Report.id report = id)) rs
  = Some report ->
  serve B (GetComments id) (store w) = (inl e, s') ->
  getReportById rs id w
  = (inr (Some report),
     mkWorld (reports w) (isLoading w)
       (console w ++ [("Error fetching comments:", Js.BackendError e)]) s'
       (network w ++ [GetComments id])).
Proof.
  intros Hfind H. unfold getReportById, getComments. unfold_monad. simpl.
  rewrite Hfind. simpl. now rewrite H.
Qed.

Lemma getReportById_comments_fetched rs id w report
    (comments : list JoinedComment.t) transformed s' :
  List.find (fun report => bool_decide (Report.id report = id)) rs
  = Some report ->
  serve B (GetComments id) (store w) = (inr comments, s') ->
  transformComments comments = inr transformed ->
  getReportById rs id w
  = (inr (Some (with_comments report transformed)),
     sent (GetComments id) s' w).
Proof.
  intros Hfind H Hmap. unfold getReportById, getComments. unfold_monad. simpl.
  rewrite Hfind. simpl. rewrite H. simpl. now rewrite Hmap.
Qed.

Lemma getReportById_comments_orphaned rs id w report
    (comments : list JoinedComment.t) error s' :
  List.find (fun report => bool_decide (Report.id report = id)) rs
  = Some report ->
  serve B (GetComments id) (store w) = (inr comments, s') ->
  transformComments comments = inl error ->
  getReportById rs id w
  = (inr (Some report),
     mkWorld (reports w) (isLoading w)
       (console w ++ [("Error fetching comments:", error)]) s'
       (network w ++ [GetComments id])).
Proof.
  intros Hfind H Hmap. unfold getReportById, getComments. unfold_monad. simpl.
  rewrite Hfind. simpl. rewrite H. simpl. now rewrite Hmap.
Qed.

End Operations.

(** ** Status on remote writes *)

Section RemoteStatus.
Context {B : Backend}.
Implicit Type w : World B.

(** [addReport] makes one request, carrying [supabaseIssue]. *)
Lemma addReport_sends report w :
  network (after (addReport report) w)
  = network w ++ [CreateIssue (supabaseIssue report)].
Proof.
  unfold after.
  destruct (serve_cases (CreateIssue (supabaseIssue report)) (store w))
    as [(e & s' & H) | (created & s' & H)].
  - now rewrite (addReport_failed _ _ _ _ H).
  - now rewrite (addReport_created _ _ _ _ H).
Qed.

(** [updateReport] makes one request, carrying [supabaseUpdates]. *)
Lemma updateReport_sends id updates now w :
  network (after (updateReport (reports w) id updates now) w)
  = network w ++ [UpdateIssue id (supabaseUpdates updates)].
Proof.
  unfold after.
  destruct (serve_cases (UpdateIssue id (supabaseUpdates updates)) (store w))
    as [(e & s' & H) | (row & s' & H)].
  - now rewrite (updateReport_failed _ _ _ now _ _ _ H).
  - now rewrite (updateReport_updated _ _ _ now _ _ _ H).
Qed.

(** On creation the status written remotely follows the rule of the
    specification: [under_review] goes out as [reported], any other
    status as it is. *)
Lemma addReport_status_coerced report :
  NewIssue.status (supabaseIssue report) = spec_remote_status (Draft.status report).
Proof. reflexivity. Qed.

(** On update every non-empty status goes out as it is. *)
Lemma updateReport_status_forwarded updates status :
  Updates.status updates = Some status ->
  status ≠ "" ->
  IssueUpdates.status (supabaseUpdates updates) = Some status.
Proof.
  intros H Hne. unfold supabaseUpdates, truthy_field, Js.truthy_string. simpl.
  rewrite H. destruct (String.eqb_spec status ""); [contradiction | reflexivity].
Qed.

(** The remote status vocabulary has no [under_review]. *)
Lemma under_review_is_not_remote (s : IssueStatus) :
  issue_status_str s ≠ "under_review".
Proof. destruct s; discriminate. Qed.

(** On creation every local status goes out as a remote status. *)
Lemma addReport_status_is_remote report (s : ReportStatus) :
  Draft.status report = status_str s ->
  NewIssue.status (supabaseIssue report) ∈ issue_status_str <$> all_issue_statuses.
Proof.
  intros H. rewrite addReport_status_coerced, H.
  destruct s; vm_compute; repeat first [apply list_elem_of_here | apply list_elem_of_further].
Qed.

(** C1, at the update the admin dashboard sends for "Under Review":
    [updateReport] writes the status [under_review] to the remote store
    as it is, where the rule of the specification (and [addReport], on
    the same status) writes [reported]. *)
Theorem C1_updateReport_sends_under_review id now w :
  network (after (updateReport (reports w) id (status_only "under_review") now) w)
  = network w
    ++ [UpdateIssue id
          (IssueUpdates.mk None None None None None None (Some "under_review"))]
  /\ spec_remote_status "under_review" = "reported"
  /\ (forall report,
        Draft.status report = "under_review" ->
        NewIssue.status (supabaseIssue report) = "reported").
Proof.
  split; [| split].
  - now rewrite updateReport_sends.
  - reflexivity.
  - intros report H. rewrite addReport_status_coerced, H. reflexivity.
Qed.

End RemoteStatus.

(** ** Falsy fields in [updateReport] *)

Section FalsyFields.
Context {B : Backend}.
Implicit Type w : World B.

Lemma truthy_field_empty : truthy_field (Some "") = None.
Proof. reflexivity. Qed.

(** After a successful update the record at every position holding [id]
    is the merge of the old record with [updates]. *)
Lemma updateReport_merges id updates now w row s' i report :
  serve B (UpdateIssue id (supabaseUpdates updates)) (store w) = (inr row, s') ->
  reports w !! i = Some report ->
  Report.id report = id ->
  reports (after (updateReport (reports w) id updates now) w) !! i
  = Some (merge report updates now).
Proof.
  intros H Hi Hid. unfold after.
  rewrite (updateReport_updated _ _ _ now _ _ _ H). simpl.
  rewrite list_lookup_fmap, Hi. simpl.
  now rewrite bool_decide_eq_true_2.
Qed.

Lemma supabaseUpdates_partial updates :
  Runtime.supabaseUpdates (Runtime.partial updates) = supabaseUpdates updates.
Proof.
  destruct updates as [id title description category location images status
                         severity reportedBy createdAt updatedAt upvotes upvotedBy
                         comments assignedTo].
  unfold Runtime.supabaseUpdates, supabaseUpdates, Runtime.partial. simpl.
  f_equal;
    repeat match goal with
           | |- context [Runtime.given ?field] => destruct field; simpl
           end;
    reflexivity.
Qed.

Lemma merge_stored report updates now :
  Runtime.merge (Runtime.stored report) (Runtime.partial updates) now
  = Runtime.stored (merge report updates now).
Proof.
  destruct updates as [id title description category location images status
                         severity reportedBy createdAt updatedAt upvotes upvotedBy
                         comments assignedTo].
  unfold Runtime.merge, merge, Runtime.stored, Runtime.partial. simpl.
  f_equal;
    match goal with
    | |- context [Runtime.given ?field] => destruct field; reflexivity
    | |- _ => reflexivity
    end.
Qed.

(** On a typed update the provider's [updateReport], once the backend
    has answered with a row, has sent the request and stored the list
    of [Runtime.updateReport]. *)
Lemma updateReport_refines (rs : list Report.t) id updates now w row s' :
  serve B (UpdateIssue id (supabaseUpdates updates)) (store w) = (inr row, s') ->
  network (after (updateReport rs id updates now) w)
  = network w
    ++ [(Runtime.updateReport (Runtime.stored <$> rs) id
           (Runtime.partial updates) now).1]
  /\ Runtime.stored <$> reports (after (updateReport rs id updates now) w)
     = (Runtime.updateReport (Runtime.stored <$> rs) id
          (Runtime.partial updates) now).2.
Proof.
  intros H. unfold after. rewrite (updateReport_updated _ _ _ now _ _ _ H).
  unfold Runtime.updateReport, sent. cbn [fst snd reports network].
  rewrite supabaseUpdates_partial. split; [reflexivity |].
  rewrite <- !list_fmap_compose. apply list_fmap_ext. intros k report _. simpl.
  destruct (decide (Report.id report = id)) as [Hid | Hid].
  - rewrite !bool_decide_eq_true_2 by congruence. symmetry. apply merge_stored.
  - rewrite !bool_decide_eq_false_2 by congruence. reflexivity.
Qed.

(** C10, as the code has it: when the remote update goes through and a
    recognized string-valued field is present in [updates] but falsy
    (the empty string), the field is left out of the payload sent to
    the remote store, and the local record for [id] still takes it.  An
    images array and a location are never falsy: whenever present they
    are sent as well as merged, the empty array included.  The request
    and the stored list are those of [Runtime.updateReport], and there,
    for every record with the id: a recognized key passed as
    [undefined], or a string key passed as the empty string, is left
    out of the payload and overwrites the key of the local record. *)
Theorem C10_falsy_field_is_merged_but_not_sent id updates now w row s' i report :
  serve B (UpdateIssue id (supabaseUpdates updates)) (store w) = (inr row, s') ->
  reports w !! i = Some report ->
  Report.id report = id ->
  exists merged,
    reports (after (updateReport (reports w) id updates now) w) !! i = Some merged
    /\ network (after (updateReport (reports w) id updates now) w)
       = network w ++ [UpdateIssue id (supabaseUpdates updates)]
    /\ (Updates.title updates = Some "" ->
        IssueUpdates.title (supabaseUpdates updates) = None
        /\ Report.title merged = "")
    /\ (Updates.description updates = Some "" ->
        IssueUpdates.description (supabaseUpdates updates) = None
        /\ Report.description merged = "")
    /\ (Updates.category updates = Some "" ->
        IssueUpdates.category (supabaseUpdates updates) = None
        /\ Report.category merged = "")
    /\ (Updates.severity updates = Some "" ->
        IssueUpdates.priority (supabaseUpdates updates) = None
        /\ Report.severity merged = "")
    /\ (Updates.status updates = Some "" ->
        IssueUpdates.status (supabaseUpdates updates) = None
        /\ Report.status merged = "")
    /\ (forall images,
          Updates.images updates = Some images ->
          IssueUpdates.images (supabaseUpdates updates) = Some images
          /\ Report.images merged = images)
    /\ (forall location,
          Updates.location updates = Some location ->
          IssueUpdates.location (supabaseUpdates updates)
          = Some {| latitude := lat (coordinates location);
                    longitude := lng (coordinates location);
                    loc_address := address location |}
          /\ Report.location merged = location)
    /\ network (after (updateReport (reports w) id updates now) w)
       = network w
         ++ [(Runtime.updateReport (Runtime.stored <$> reports w) id
                (Runtime.partial updates) now).1]
    /\ Runtime.stored <$> reports (after (updateReport (reports w) id updates now) w)
       = (Runtime.updateReport (Runtime.stored <$> reports w) id
            (Runtime.partial updates) now).2
    /\ (forall (locals : list Runtime.Stored.t) (passed : Runtime.Partial.t)
               (j : nat) (local : Runtime.Stored.t),
          locals !! j = Some local ->
          Runtime.Stored.id local = Some id ->
          exists payload kept,
            (Runtime.updateReport locals id passed now).1 = UpdateIssue id payload
            /\ (Runtime.updateReport locals id passed now).2 !! j = Some kept
            /\ (Runtime.Partial.title passed = Runtime.is_undefined ->
                IssueUpdates.title payload = None
                /\ Runtime.Stored.title kept = None)
            /\ (Runtime.Partial.title passed = Runtime.holds "" ->
                IssueUpdates.title payload = None
                /\ Runtime.Stored.title kept = Some "")
            /\ (Runtime.Partial.description passed = Runtime.is_undefined ->
                IssueUpdates.description payload = None
                /\ Runtime.Stored.description kept = None)
            /\ (Runtime.Partial.description passed = Runtime.holds "" ->
                IssueUpdates.description payload = None
                /\ Runtime.Stored.description kept = Some "")
            /\ (Runtime.Partial.category passed = Runtime.is_undefined ->
                IssueUpdates.category payload = None
                /\ Runtime.Stored.category kept = None)
            /\ (Runtime.Partial.category passed = Runtime.holds "" ->
                IssueUpdates.category payload = None
                /\ Runtime.Stored.category kept = Some "")
            /\ (Runtime.Partial.severity passed = Runtime.is_undefined ->
                IssueUpdates.priority payload = None
                /\ Runtime.Stored.severity kept = None)
            /\ (Runtime.Partial.severity passed = Runtime.holds "" ->
                IssueUpdates.priority payload = None
                /\ Runtime.Stored.severity kept = Some "")
            /\ (Runtime.Partial.status passed = Runtime.is_undefined ->
                IssueUpdates.status payload = None
                /\ Runtime.Stored.status kept = None)
            /\ (Runtime.Partial.status passed = Runtime.holds "" ->
                IssueUpdates.status payload = None
                /\ Runtime.Stored.status kept = Some "")
            /\ (Runtime.Partial.location passed = Runtime.is_undefined ->
                IssueUpdates.location payload = None
                /\ Runtime.Stored.location kept = None)
            /\ (Runtime.Partial.images passed = Runtime.is_undefined ->
                IssueUpdates.images payload = None
                /\ Runtime.Stored.images kept = None)
            /\ (forall images,
                  Runtime.Partial.images passed = Runtime.holds images ->
                  IssueUpdates.images payload = Some images
                  /\ Runtime.Stored.images kept = Some images)).
Proof.
  intros H Hi Hid. exists (merge report updates now).
  split; [now apply (updateReport_merges _ _ _ _ row s') |].
  split; [apply updateReport_sends |].
  destruct (updateReport_refines (reports w) id updates now w row s' H)
    as [Hrequest Hlist].
  do 5 (split; [intros Hfield; unfold supabaseUpdates, merge; simpl;
                rewrite Hfield; split; reflexivity |]).
  do 2 (split; [intros value Hfield; unfold supabaseUpdates, merge; simpl;
                rewrite Hfield; split; reflexivity |]).
  split; [exact Hrequest |]. split; [exact Hlist |].
  intros locals passed j local Hj Hlocal.
  exists (Runtime.supabaseUpdates passed), (Runtime.merge local passed now).
  split; [reflexivity |]. split.
  - unfold Runtime.updateReport. cbn [snd].
    rewrite list_lookup_fmap, Hj. simpl.
    now rewrite bool_decide_eq_true_2.
  - unfold Runtime.supabaseUpdates, Runtime.merge. simpl.
    do 12 (split; [intros Hfield; rewrite Hfield; split; reflexivity |]).
    intros images Hfield. rewrite Hfield. split; reflexivity.
Qed.

End FalsyFields.

(** C10, run: Jane's report gets the empty title locally while the
    request carries no title; and with [images: undefined] the request
    carries no images while the stored record loses them. *)
Lemma C10_witness :
  let w := after (updateReport (reports one_report) "issue-1" (title_only "") "now") one_report in
  (Report.title <$> reports w) = [""]
  /\ (exists merged,
        reports w !! 0%nat = Some merged
        /\ IssueUpdates.title (supabaseUpdates (title_only "")) = None
        /\ Report.title merged = "")
  /\ (exists payload kept,
        (Runtime.updateReport (Runtime.stored <$> reports two_reports) "issue-2"
           images_undefined "now").1
        = UpdateIssue "issue-2" payload
        /\ (Runtime.updateReport (Runtime.stored <$> reports two_reports) "issue-2"
              images_undefined "now").2 !! 1%nat
           = Some kept
        /\ IssueUpdates.images payload = None
        /\ Runtime.Stored.images kept = None
        /\ (Runtime.Stored.images <$> (Runtime.stored <$> reports two_reports))
           = [Some [];
              Some ["https://cdn.example/a.jpg"; "https://cdn.example/b.jpg"]]).
Proof.
  intros w. subst w. split; [reflexivity |].
  destruct (C10_falsy_field_is_merged_but_not_sent (B := Mem.backend)
              "issue-1" (title_only "") "now" one_report
              (Mem.patched (supabaseUpdates (title_only "")) 2
                 (Mem.created (supabaseIssue streetlight_draft) 1))
              (store (after (updateReport (reports one_report) "issue-1"
                               (title_only "") "now") one_report))
              0%nat
              (newReport streetlight_draft
                 (Mem.created (supabaseIssue streetlight_draft) 1))
              eq_refl eq_refl eq_refl)
    as (merged & Hm & _ & Htitle & _).
  split.
  - exists merged. split; [exact Hm |]. apply Htitle. reflexivity.
  - eexists. eexists. repeat split; reflexivity.
Defined.

(** C10 fails on the code for an empty images array, which is not
    falsy: Jane empties the attachments of her pothole report, and the
    request carries [images: []] while the local record loses its two
    images. *)
Lemma C10_counterexample :
  let w := after (updateReport (reports two_reports) "issue-2" (images_only []) "now")
             two_reports in
  (Report.images <$> reports two_reports)
  = [[]; ["https://cdn.example/a.jpg"; "https://cdn.example/b.jpg"]]
  /\ (Report.images <$> reports w) = [[]; []]
  /\ network w
     = network two_reports
       ++ [UpdateIssue "issue-2"
             (IssueUpdates.mk None None None None None (Some []) None)]
  /\ IssueUpdates.images (supabaseUpdates (images_only [])) <> None.
Proof.
  intros w. subst w. repeat (split; [reflexivity |]). discriminate.
Defined.

(** ** Upvotes *)

Section Upvotes.
Context {B : Backend}.
Implicit Type w : World B.

(** The local list after [upvoteReport], whatever the backend said: the
    upvote step over the list of the closure. *)
Lemma upvoteReport_maps (rs : list Report.t) id userId now w :
  reports (after (upvoteReport rs id userId now) w) = upvote id userId now <$> rs.
Proof.
  unfold after.
  destruct (serve_cases (VoteOnIssue id userId) (store w))
    as [(e & s' & H) | ([] & s' & H)].
  - now rewrite (upvoteReport_vote_failed _ _ _ now _ _ _ H).
  - now rewrite (upvoteReport_voted _ _ _ now _ _ H).
Qed.

Lemma upvoteReport_reports id userId now w :
  reports (after (upvoteReport (reports w) id userId now) w)
  = upvote id userId now <$> reports w.
Proof. apply upvoteReport_maps. Qed.

Lemma upvoteReport_returns (rs : list Report.t) id userId now w :
  outcome (upvoteReport rs id userId now) w = inr tt.
Proof.
  unfold outcome.
  destruct (serve_cases (VoteOnIssue id userId) (store w))
    as [(e & s' & H) | ([] & s' & H)].
  - now rewrite (upvoteReport_vote_failed _ _ _ now _ _ _ H).
  - now rewrite (upvoteReport_voted _ _ _ now _ _ H).
Qed.

Lemma upvote_other id userId now report :
  Report.id report ≠ id -> upvote id userId now report = report.
Proof. intros H. unfold upvote. now rewrite bool_decide_eq_false_2. Qed.

Lemma upvote_again id userId now report :
  Report.id report = id ->
  userId ∈ Report.upvotedBy report ->
  upvote id userId now report = report.
Proof.
  intros Hid Hin. unfold upvote.
  rewrite bool_decide_eq_true_2 by assumption.
  now rewrite bool_decide_eq_true_2.
Qed.

Lemma upvote_first id userId now report :
  Report.id report = id ->
  userId ∉ Report.upvotedBy report ->
  upvote id userId now report
  = {| Report.id := Report.id report;
       Report.title := Report.title report;
       Report.description := Report.description report;
       Report.category := Report.category report;
       Report.location := Report.location report;
       Report.images := Report.images report;
       Report.status := Report.status report;
       Report.severity := Report.severity report;
       Report.reportedBy := Report.reportedBy report;
       Report.createdAt := Report.createdAt report;
       Report.updatedAt := now;
       Report.upvotes := Report.upvotes report + 1;
       Report.upvotedBy := Report.upvotedBy report ++ [userId];
       Report.comments := Report.comments report;
       Report.assignedTo := Report.assignedTo report |}.
Proof.
  intros Hid Hin. unfold upvote.
  rewrite bool_decide_eq_true_2 by assumption.
  now rewrite bool_decide_eq_false_2.
Qed.

(** A second upvote by the same user finds the user recorded. *)
Lemma upvote_idempotent id userId now1 now2 report :
  upvote id userId now2 (upvote id userId now1 report)
  = upvote id userId now1 report.
Proof.
  destruct (decide (Report.id report = id)) as [Hid | Hid].
  - destruct (decide (userId ∈ Report.upvotedBy report)) as [Hin | Hin].
    + rewrite (upvote_again _ _ now1 _ Hid Hin). now apply upvote_again.
    + rewrite (upvote_first _ _ now1 _ Hid Hin).
      apply upvote_again; simpl; [assumption |].
      apply elem_of_app. right. apply list_elem_of_singleton. reflexivity.
  - rewrite (upvote_other _ _ now1 _ Hid). now apply upvote_other.
Qed.

(** A second call still holding the list of the first call's render
    (two clicks before the first answer arrives) redoes the step on that
    list: counter and voters end as after the first call, under the
    second call's time. *)
Lemma upvoteReport_from_the_same_render id userId now1 now2 w :
  let w1 := after (upvoteReport (reports w) id userId now1) w in
  let w2 := after (upvoteReport (reports w) id userId now2) w1 in
  reports w2 = upvote id userId now2 <$> reports w
  /\ (Report.upvotes <$> reports w2) = (Report.upvotes <$> reports w1)
  /\ (Report.upvotedBy <$> reports w2) = (Report.upvotedBy <$> reports w1).
Proof.
  intros w1 w2. subst w1 w2. rewrite !upvoteReport_maps.
  split; [reflexivity |].
  rewrite <- !list_fmap_compose.
  split; apply list_fmap_ext; intros i report _; unfold upvote; simpl;
    repeat destruct (bool_decide _); reflexivity.
Qed.

(** C5, as the code has it: calling [upvoteReport(id, u)] twice, the
    second call taken from the render that shows the outcome of the
    first, leaves the local collection, and so the report, after the
    second call as it was after the first.  The first call maps the
    collection through the upvote step, which on a report with this id
    is a no-op when [u] is already in [upvotedBy] and otherwise
    increments [upvotes] by one, appends [u] to [upvotedBy] and
    refreshes [updatedAt].  A second call that still holds the list of
    the first call's render redoes the step on that list: [upvotes] and
    [upvotedBy] end as after the first call, and a report with this id
    that [u] had not voted for gets the second call's time. *)
Theorem C5_duplicate_upvote_is_idempotent id userId now1 now2 w :
  let w1 := after (upvoteReport (reports w) id userId now1) w in
  let w2 := after (upvoteReport (reports w1) id userId now2) w1 in
  let again := after (upvoteReport (reports w) id userId now2) w1 in
  reports w2 = reports w1
  /\ reports w1 = upvote id userId now1 <$> reports w
  /\ (forall report,
        Report.id report = id ->
        (userId ∈ Report.upvotedBy report ->
         upvote id userId now1 report = report)
        /\ (userId ∉ Report.upvotedBy report ->
            Report.upvotes (upvote id userId now1 report) = Report.upvotes report + 1
            /\ Report.upvotedBy (upvote id userId now1 report)
               = Report.upvotedBy report ++ [userId]
            /\ Report.updatedAt (upvote id userId now1 report) = now1))
  /\ reports again = upvote id userId now2 <$> reports w
  /\ (Report.upvotes <$> reports again) = (Report.upvotes <$> reports w1)
  /\ (Report.upvotedBy <$> reports again) = (Report.upvotedBy <$> reports w1)
  /\ (forall (i : nat) report,
        reports w !! i = Some report ->
        Report.id report = id ->
        userId ∉ Report.upvotedBy report ->
        (Report.updatedAt <$> reports w1) !! i = Some now1
        /\ (Report.updatedAt <$> reports again) !! i = Some now2).
Proof.
  intros w1 w2 again.
  destruct (upvoteReport_from_the_same_render id userId now1 now2 w)
    as (Hagain & Hupvotes & HupvotedBy).
  subst w1 w2 again.
  split; [| split; [| split; [| split; [| split; [| split]]]]].
  - rewrite !upvoteReport_reports, <- list_fmap_compose.
    apply list_fmap_ext. intros i report _. simpl. apply upvote_idempotent.
  - apply upvoteReport_reports.
  - intros report Hid. split; intros Hin.
    + now apply upvote_again.
    + rewrite (upvote_first _ _ now1 _ Hid Hin). simpl. auto.
  - exact Hagain.
  - exact Hupvotes.
  - exact HupvotedBy.
  - intros i report Hi Hid Hin.
    rewrite Hagain, upvoteReport_reports, !list_lookup_fmap, Hi. simpl.
    rewrite (upvote_first _ _ now1 _ Hid Hin), (upvote_first _ _ now2 _ Hid Hin).
    split; reflexivity.
Qed.

(** C6: [upvoteReport] never throws; when the remote vote fails the
    failure is logged on the console; and the local list is the upvote
    step applied to every report of the list it works on either way
    (duplicate check, increment, append, refreshed [updatedAt]), the
    same as when the remote vote succeeds. *)
Theorem C6_upvote_is_best_effort (rs : list Report.t) id userId now w :
  outcome (upvoteReport rs id userId now) w = inr tt
  /\ reports (after (upvoteReport rs id userId now) w) = upvote id userId now <$> rs
  /\ (forall e s',
        serve B (VoteOnIssue id userId) (store w) = (inl e, s') ->
        console (after (upvoteReport rs id userId now) w)
        = console w ++ [("Error upvoting issue in Supabase:", Js.BackendError e)]
        /\ network (after (upvoteReport rs id userId now) w)
           = network w ++ [VoteOnIssue id userId])
  /\ (forall s',
        serve B (VoteOnIssue id userId) (store w) = (inr tt, s') ->
        console (after (upvoteReport rs id userId now) w) = console w).
Proof.
  split; [apply upvoteReport_returns |].
  split; [apply upvoteReport_maps |].
  split.
  - intros e s' H. unfold after.
    now rewrite (upvoteReport_vote_failed _ _ _ now _ _ _ H).
  - intros s' H. unfold after.
    now rewrite (upvoteReport_voted _ _ _ now _ _ H).
Qed.

End Upvotes.

(** C5, run: Bob upvotes Jane's report twice. *)
Lemma C5_witness :
  let w1 := after (upvoteReport (reports one_report) "issue-1" "u-bob" "t8") one_report in
  let w2 := after (upvoteReport (reports w1) "issue-1" "u-bob" "t9") w1 in
  reports w2 = reports w1
  /\ (Report.upvotes <$> reports w1) = [1]
  /\ (Report.upvotedBy <$> reports w2) = [["u-bob"]]
  /\ (Report.updatedAt <$> reports w2) = ["t8"].
Proof.
  intros w1 w2.
  split; [| repeat split; reflexivity].
  exact (proj1 (C5_duplicate_upvote_is_idempotent (B := Mem.backend)
                  "issue-1" "u-bob" "t8" "t9" one_report)).
Defined.

(** C5 fails on the code when the two calls come from the same render
    (two clicks before the page shows the first vote): the second call
    works on the list the first one started from, finds Bob absent, and
    stamps the report again.  Counter and voters are as after the first
    call; the report is not. *)
Lemma C5_counterexample :
  let w1 := after (upvoteReport (reports one_report) "issue-1" "u-bob" "t8") one_report in
  let w2 := after (upvoteReport (reports one_report) "issue-1" "u-bob" "t9") w1 in
  (Report.id <$> reports one_report) = ["issue-1"]
  /\ (Report.updatedAt <$> reports w1) = ["t8"]
  /\ (Report.updatedAt <$> reports w2) = ["t9"]
  /\ (Report.upvotes <$> reports w2) = [1]
  /\ reports w2 <> reports w1.
Proof.
  intros w1 w2. repeat (split; [reflexivity |]).
  intros Hsame. apply (f_equal (fmap Report.updatedAt)) in Hsame.
  vm_compute in Hsame. discriminate Hsame.
Defined.

(** C6, run: the backend is unreachable, the vote is still counted
    locally and the failure is on the console. *)
Lemma C6_witness :
  let w := one_report_offline in
  let vote := upvoteReport (B := Mem.backend) (reports w) "issue-1" "u-bob" "t8" in
  outcome vote w = inr tt
  /\ (Report.upvotes <$> reports (after vote w)) = [1]
  /\ console (after vote w)
     = [("Error upvoting issue in Supabase:", Js.BackendError "Failed to fetch")].
Proof.
  intros w vote. subst w vote.
  destruct (C6_upvote_is_best_effort (B := Mem.backend)
              (reports one_report_offline) "issue-1" "u-bob" "t8" one_report_offline)
    as (Hout & Hreports & Hfailed & _).
  split; [exact Hout |].
  split; [now rewrite Hreports |].
  exact (proj1 (Hfailed "Failed to fetch" (store one_report_offline) eq_refl)).
Defined.

(** ** Remote failures in [addReport], [deleteReport] and [addComment] *)

Section Failures.
Context {B : Backend}.
Implicit Type w : World B.

(** C4: when the remote call of [addReport], [deleteReport] or
    [addComment] fails, the operation ends with the backend's error,
    as thrown, and the local collection is what it was; and whenever
    one of them leaves a different local collection, its remote call
    had succeeded. *)
Theorem C4_remote_failure_propagates_and_keeps_local_state
    (rs : list Report.t) w :
  (forall report e s',
      serve B (CreateIssue (supabaseIssue report)) (store w) = (inl e, s') ->
      outcome (addReport report) w = inl (Js.BackendError e)
      /\ reports (after (addReport report) w) = reports w)
  /\ (forall id e s',
      serve B (DeleteIssue id) (store w) = (inl e, s') ->
      outcome (deleteReport rs id) w = inl (Js.BackendError e)
      /\ reports (after (deleteReport rs id) w) = reports w)
  /\ (forall reportId commentData now e s',
      serve B (comment_request reportId commentData) (store w) = (inl e, s') ->
      outcome (addComment rs reportId commentData now) w = inl (Js.BackendError e)
      /\ reports (after (addComment rs reportId commentData now) w) = reports w)
  /\ (forall report,
      reports (after (addReport report) w) ≠ reports w ->
      exists created s',
        serve B (CreateIssue (supabaseIssue report)) (store w) = (inr created, s'))
  /\ (forall id,
      reports (after (deleteReport rs id) w) ≠ reports w ->
      exists s', serve B (DeleteIssue id) (store w) = (inr tt, s'))
  /\ (forall reportId commentData now,
      reports (after (addComment rs reportId commentData now) w) ≠ reports w ->
      exists comment s',
        serve B (comment_request reportId commentData) (store w) = (inr comment, s')).
Proof.
  repeat apply conj.
  - intros report e s' H. unfold outcome, after.
    now rewrite (addReport_failed _ _ _ _ H).
  - intros id e s' H. unfold outcome, after.
    now rewrite (deleteReport_failed _ _ _ _ _ H).
  - intros reportId commentData now e s' H. unfold outcome, after.
    now rewrite (addComment_failed _ _ _ now _ _ _ H).
  - intros report Hchanged.
    destruct (serve_cases (CreateIssue (supabaseIssue report)) (store w))
      as [(e & s' & H) | (created & s' & H)]; [| eauto].
    exfalso. apply Hchanged. unfold after.
    now rewrite (addReport_failed _ _ _ _ H).
  - intros id Hchanged.
    destruct (serve_cases (DeleteIssue id) (store w))
      as [(e & s' & H) | ([] & s' & H)]; [| eauto].
    exfalso. apply Hchanged. unfold after.
    now rewrite (deleteReport_failed _ _ _ _ _ H).
  - intros reportId commentData now Hchanged.
    destruct (serve_cases (comment_request reportId commentData) (store w))
      as [(e & s' & H) | (comment & s' & H)]; [| eauto].
    exfalso. apply Hchanged. unfold after.
    now rewrite (addComment_failed _ _ _ now _ _ _ H).
Qed.

End Failures.

(** C4, run: with the backend unreachable the three operations throw
    its error and Jane's report stays as the only local one. *)
Lemma C4_witness :
  let w := one_report_offline in
  let add := addReport (B := Mem.backend) streetlight_draft in
  let delete := deleteReport (B := Mem.backend) (reports w) "issue-1" in
  let comment := addComment (B := Mem.backend) (reports w) "issue-1" test_comment "t8" in
  (outcome add w = inl (Js.BackendError "Failed to fetch")
   /\ reports (after add w) = reports w)
  /\ (outcome delete w = inl (Js.BackendError "Failed to fetch")
      /\ reports (after delete w) = reports w)
  /\ (outcome comment w = inl (Js.BackendError "Failed to fetch")
      /\ reports (after comment w) = reports w).
Proof.
  intros w add delete comment. subst w add delete comment.
  destruct (C4_remote_failure_propagates_and_keeps_local_state
              (B := Mem.backend) (reports one_report_offline) one_report_offline)
    as (Hadd & Hdelete & Hcomment & _).
  split; [| split].
  - exact (Hadd streetlight_draft "Failed to fetch" (store one_report_offline) eq_refl).
  - exact (Hdelete "issue-1" "Failed to fetch" (store one_report_offline) eq_refl).
  - exact (Hcomment "issue-1" test_comment "t8" "Failed to fetch"
             (store one_report_offline) eq_refl).
Defined.

(** ** [getReportById] *)

Section Lookup.
Context {B : Backend}.
Implicit Type w : World B.

Lemma find_id_absent id (reports : list Report.t) :
  id ∉ Report.id <$> reports ->
  List.find (fun report => bool_decide (Report.id report = id)) reports = None.
Proof.
  induction reports as [| report rest IH]; intros Habsent; [reflexivity |].
  simpl in *. apply not_elem_of_cons in Habsent as [Hne Hrest].
  rewrite bool_decide_eq_false_2 by congruence. now apply IH.
Qed.

Lemma find_id_present id (reports : list Report.t) :
  id ∈ Report.id <$> reports ->
  exists report,
    List.find (fun report => bool_decide (Report.id report = id)) reports
    = Some report.
Proof.
  induction reports as [| report rest IH]; intros Hin; simpl in *.
  - now apply elem_of_nil in Hin.
  - destruct (decide (Report.id report = id)) as [Heq | Hne].
    + exists report. now rewrite bool_decide_eq_true_2.
    + rewrite bool_decide_eq_false_2 by assumption. apply IH.
      apply elem_of_cons in Hin as [Heq | Hin]; [congruence | assumption].
Qed.

Lemma find_id_found id (reports : list Report.t) report :
  List.find (fun report => bool_decide (Report.id report = id)) reports
  = Some report ->
  report ∈ reports /\ Report.id report = id.
Proof.
  induction reports as [| first rest IH]; simpl; [discriminate |].
  destruct (decide (Report.id first = id)) as [Heq | Hne].
  - rewrite bool_decide_eq_true_2 by assumption. intros [= <-].
    split; [apply elem_of_cons; now left | assumption].
  - rewrite bool_decide_eq_false_2 by assumption. intros Hfind.
    destruct (IH Hfind) as [Hin Hid]. split; [| assumption].
    apply elem_of_cons. now right.
Qed.

Lemma transformComments_joined (comments : list JoinedComment.t) :
  all_joined comments ->
  exists transformed,
    transformComments comments = inr transformed
    /\ Forall2 local_shape comments transformed.
Proof.
  unfold all_joined.
  induction comments as [| comment rest IH]; intros Hall.
  - exists []. split; [reflexivity | constructor].
  - apply Forall_cons in Hall as [[profile Huser] Hrest].
    destruct (IH Hrest) as (transformed & Hmap & Hshape).
    eexists. simpl. unfold transformComment. rewrite Huser, Hmap.
    split; [reflexivity |].
    constructor; [| assumption].
    unfold local_shape. simpl. rewrite Huser. repeat split.
Qed.

Lemma transformComments_orphan (comments : list JoinedComment.t) :
  ~ all_joined comments ->
  transformComments comments
  = inl (Js.TypeError "Cannot read properties of null (reading 'id')").
Proof.
  unfold all_joined.
  induction comments as [| comment rest IH]; intros Hsome.
  - exfalso. apply Hsome. constructor.
  - simpl. unfold transformComment.
    destruct (JoinedComment.user comment) as [profile |] eqn:Huser; [| reflexivity].
    rewrite IH; [reflexivity |].
    intros Hrest. apply Hsome. constructor; [| assumption].
    rewrite Huser. now exists profile.
Qed.

Lemma transformComments_cases (comments : list JoinedComment.t) :
  (exists transformed, transformComments comments = inr transformed)
  \/ (exists error, transformComments comments = inl error).
Proof.
  destruct (transformComments comments) as [error | transformed];
    [right | left]; eexists; reflexivity.
Qed.

Lemma with_comments_fields report comments :
  Report.comments (with_comments report comments) = comments
  /\ same_but_comments report (with_comments report comments).
Proof. unfold same_but_comments. simpl. repeat split. Qed.

Lemma getReportById_keeps_reports id w :
  reports (after (getReportById (reports w) id) w) = reports w.
Proof.
  unfold after.
  destruct (List.find (fun report => bool_decide (Report.id report = id))
              (reports w)) as [report |] eqn:Hfind.
  - destruct (serve_cases (GetComments id) (store w))
      as [(e & s' & H) | (comments & s' & H)].
    + now rewrite (getReportById_comments_failed _ _ _ _ _ _ Hfind H).
    + destruct (transformComments_cases comments)
        as [(transformed & Hmap) | (error & Hmap)].
      * now rewrite (getReportById_comments_fetched _ _ _ _ _ _ _ Hfind H Hmap).
      * now rewrite (getReportById_comments_orphaned _ _ _ _ _ _ _ Hfind H Hmap).
  - now rewrite (getReportById_absent _ _ _ Hfind).
Qed.

(** C7: [getReportById(id)] returns [undefined] when no local report
    has this id.  When one has and the comment fetch succeeds with every
    fetched comment carrying its joined user, it returns that report
    with [comments] replaced by the fetched list, comment by comment in
    the local shape, and every other field as the local report has it.
    When the fetch fails, or succeeds with a comment whose joined user
    is [null], it logs the error and returns the local report as it is,
    with the comments it had.  It never throws and never changes the
    local collection. *)
Theorem C7_getReportById_result id w :
  (id ∉ Report.id <$> reports w -> outcome (getReportById (reports w) id) w = inr None)
  /\ (id ∈ Report.id <$> reports w ->
      exists report,
        report ∈ reports w /\ Report.id report = id
        /\ (forall (comments : list JoinedComment.t) s',
              serve B (GetComments id) (store w) = (inr comments, s') ->
              (all_joined comments ->
               exists returned,
                 outcome (getReportById (reports w) id) w = inr (Some returned)
                 /\ Forall2 local_shape comments (Report.comments returned)
                 /\ same_but_comments report returned
                 /\ console (after (getReportById (reports w) id) w) = console w)
              /\ (~ all_joined comments ->
                  outcome (getReportById (reports w) id) w = inr (Some report)
                  /\ console (after (getReportById (reports w) id) w)
                     = console w
                       ++ [("Error fetching comments:",
                            Js.TypeError
                              "Cannot read properties of null (reading 'id')")]))
        /\ (forall e s',
              serve B (GetComments id) (store w) = (inl e, s') ->
              outcome (getReportById (reports w) id) w = inr (Some report)
              /\ console (after (getReportById (reports w) id) w)
                 = console w ++ [("Error fetching comments:", Js.BackendError e)]))
  /\ reports (after (getReportById (reports w) id) w) = reports w.
Proof.
  split; [| split].
  - intros Habsent. unfold outcome.
    now rewrite (getReportById_absent _ _ _ (find_id_absent _ _ Habsent)).
  - intros Hpresent.
    destruct (find_id_present _ _ Hpresent) as [report Hfind].
    destruct (find_id_found _ _ _ Hfind) as [Hin Hid].
    exists report. split; [assumption |]. split; [assumption |]. split.
    + intros comments s' H. split.
      * intros Hall.
        destruct (transformComments_joined comments Hall)
          as (transformed & Hmap & Hshape).
        exists (with_comments report transformed).
        unfold outcome, after.
        rewrite (getReportById_comments_fetched _ _ _ _ _ _ _ Hfind H Hmap).
        destruct (with_comments_fields report transformed) as [Hcomments Hrest].
        split; [reflexivity |]. split; [now rewrite Hcomments |].
        split; [assumption | reflexivity].
      * intros Horphan. unfold outcome, after.
        rewrite (getReportById_comments_orphaned _ _ _ _ _ _ _ Hfind H
                   (transformComments_orphan comments Horphan)).
        split; reflexivity.
    + intros e s' H. unfold outcome, after.
      now rewrite (getReportById_comments_failed _ _ _ _ _ _ Hfind H).
  - apply getReportById_keeps_reports.
Qed.

End Lookup.

(** C7, run: an unknown id gives [undefined].  After a comment "test"
    and a reload the local report has no comments; [getReportById] then
    returns it with the one remote comment, under the joined name and
    without a user id.  With the backend unreachable the report comes
    back with its local comments. *)
Lemma C7_witness :
  let commented :=
    after fetchReports
      (after (addComment (reports one_report) "issue-1" test_comment "t8") one_report) in
  outcome (getReportById (reports one_report) "issue-7") one_report = inr None
  /\ (exists report returned,
        reports commented = [report]
        /\ Report.comments report = []
        /\ outcome (getReportById (reports commented) "issue-1") commented
           = inr (Some returned)
        /\ (ReportComment.text <$> Report.comments returned) = ["test"]
        /\ (ReportComment.user <$> Report.comments returned)
           = [{| cu_id := None; cu_name := "Anonymous"; cu_role := "citizen" |}]
        /\ same_but_comments report returned)
  /\ (exists report,
        reports one_report_offline = [report]
        /\ outcome (getReportById (reports one_report_offline) "issue-1")
             one_report_offline
           = inr (Some report)).
Proof.
  split; [| split].
  - apply (proj1 (C7_getReportById_result (B := Mem.backend) "issue-7" one_report)).
    vm_compute. intros H. repeat (apply elem_of_cons in H as [H | H]; [discriminate |]).
    now apply elem_of_nil in H.
  - eexists. eexists. unfold same_but_comments.
    split; [reflexivity |]. split; [reflexivity |]. split; [reflexivity |].
    repeat split.
  - eexists. split; reflexivity.
Defined.

(** C7, counterexample: the remote comment of Jane's report has lost its
    author's profile, so the join is [null].  The comment fetch succeeds
    with that one comment, yet the call returns the local report with
    its own (empty) comment list, and logs the [TypeError]. *)
Lemma C7_counterexample :
  serve Mem.backend (GetComments "issue-1") (store orphaned_comment)
  = (inr [orphan], store orphaned_comment)
  /\ (exists report,
        reports orphaned_comment = [report]
        /\ Report.comments report = []
        /\ outcome (getReportById (reports orphaned_comment) "issue-1")
             orphaned_comment
           = inr (Some report))
  /\ console
       (after (getReportById (reports orphaned_comment) "issue-1") orphaned_comment)
     = [("Error fetching comments:",
         Js.TypeError "Cannot read properties of null (reading 'id')")].
Proof.
  split; [reflexivity |]. split; [| reflexivity].
  eexists. split; [reflexivity |]. split; reflexivity.
Defined.

(** ** [uploadImage]: validation comes first *)

Section Upload.
Context {B : Backend}.
Implicit Type w : World B.

(** The limit in bytes; the product is exact in binary64. *)
Lemma maxSize_bytes :
  maxSize = 1572864 /\ (1.5 * 1024 * 1024)%float = 1572864%float.
Proof. split; reflexivity. Qed.

Lemma uploadImage_not_image file folder random stamp w :
  Js.startsWith (File.type file) "image/" = false ->
  uploadImage file folder random stamp w
  = (inl (Js.Error "Invalid file type. Please upload an image file."),
     mkWorld (reports w) (isLoading w)
       (console w
        ++ [("Error in uploadImage:",
             Js.Error "Invalid file type. Please upload an image file.")])
       (store w) (network w)).
Proof. intros H. unfold uploadImage. unfold_monad. now rewrite H. Qed.

Lemma uploadImage_too_large file folder random stamp w :
  Js.startsWith (File.type file) "image/" = true ->
  maxSize < File.size file ->
  uploadImage file folder random stamp w
  = (inl (Js.Error "File size exceeds 1.5MB limit."),
     mkWorld (reports w) (isLoading w)
       (console w ++ [("Error in uploadImage:", Js.Error "File size exceeds 1.5MB limit.")])
       (store w) (network w)).
Proof.
  intros H Hsize. unfold uploadImage. unfold_monad. rewrite H. simpl.
  apply Z.gtb_lt in Hsize. now rewrite Hsize.
Qed.

Lemma uploadImage_uploads file folder random stamp w :
  Js.startsWith (File.type file) "image/" = true ->
  File.size file <= maxSize ->
  network (after (uploadImage file folder random stamp) w)
  = network w ++ [StorageUpload (filePath file folder random stamp) file].
Proof.
  intros H Hsize. unfold after, uploadImage, filePath. unfold_monad. rewrite H. simpl.
  destruct (File.size file >? maxSize) eqn:Hgt; [apply Z.gtb_lt in Hgt; lia |].
  simpl.
  destruct (serve B _ (store w)) as [[e | []] s']; simpl; [reflexivity |].
  destruct (Js.truthy_string _); reflexivity.
Qed.

(** C9: a file whose MIME type does not start with [image/], and a file
    larger than 1.5MB (1572864 bytes), is rejected with a validation
    error and no request is made; a request to the storage is made
    only for a file that passes both checks, and such a file is
    uploaded. *)
Theorem C9_upload_validates_before_any_request file folder random stamp w :
  (Js.startsWith (File.type file) "image/" = false ->
   outcome (uploadImage file folder random stamp) w
   = inl (Js.Error "Invalid file type. Please upload an image file.")
   /\ network (after (uploadImage file folder random stamp) w) = network w)
  /\ (maxSize < File.size file ->
      (outcome (uploadImage file folder random stamp) w
       = inl (Js.Error "Invalid file type. Please upload an image file.")
       \/ outcome (uploadImage file folder random stamp) w
          = inl (Js.Error "File size exceeds 1.5MB limit."))
      /\ network (after (uploadImage file folder random stamp) w) = network w)
  /\ (network (after (uploadImage file folder random stamp) w) ≠ network w ->
      Js.startsWith (File.type file) "image/" = true
      /\ File.size file <= maxSize)
  /\ (Js.startsWith (File.type file) "image/" = true ->
      File.size file <= maxSize ->
      network (after (uploadImage file folder random stamp) w)
      = network w ++ [StorageUpload (filePath file folder random stamp) file])
  /\ maxSize = 1572864.
Proof.
  assert (Hnot_image :
            Js.startsWith (File.type file) "image/" = false ->
            outcome (uploadImage file folder random stamp) w
            = inl (Js.Error "Invalid file type. Please upload an image file.")
            /\ network (after (uploadImage file folder random stamp) w) = network w).
  { intros H. unfold outcome, after. now rewrite uploadImage_not_image. }
  assert (Hlarge :
            Js.startsWith (File.type file) "image/" = true ->
            maxSize < File.size file ->
            outcome (uploadImage file folder random stamp) w
            = inl (Js.Error "File size exceeds 1.5MB limit.")
            /\ network (after (uploadImage file folder random stamp) w) = network w).
  { intros H Hsize. unfold outcome, after. now rewrite uploadImage_too_large. }
  repeat apply conj.
  - exact Hnot_image.
  - intros Hsize.
    destruct (Js.startsWith (File.type file) "image/") eqn:Htype.
    + destruct (Hlarge eq_refl Hsize). auto.
    + destruct (Hnot_image eq_refl). auto.
  - intros Hsent.
    destruct (Js.startsWith (File.type file) "image/") eqn:Htype.
    + split; [reflexivity |].
      destruct (Z_lt_le_dec maxSize (File.size file)) as [Hsize | Hsize];
        [| exact Hsize].
      destruct (Hlarge eq_refl Hsize). contradiction.
    + destruct (Hnot_image eq_refl). contradiction.
  - apply uploadImage_uploads.
  - reflexivity.
Qed.

End Upload.

(** C9, run: a PDF and an image one byte over the limit are rejected
    without a request; a small PNG is uploaded under a generated path. *)
Lemma C9_witness :
  (outcome (uploadImage pdf None "k3j9x" "1714000000000") one_report
   = inl (Js.Error "Invalid file type. Please upload an image file.")
   /\ network (after (uploadImage pdf None "k3j9x" "1714000000000") one_report)
      = network one_report)
  /\ network (after (uploadImage huge_photo None "k3j9x" "1714000000000") one_report)
     = network one_report
  /\ network (after (uploadImage photo None "k3j9x" "1714000000000") one_report)
     = network one_report
       ++ [StorageUpload "issues/k3j9x-1714000000000.png" photo].
Proof.
  split; [| split].
  - exact (proj1 (C9_upload_validates_before_any_request (B := Mem.backend)
                    pdf None "k3j9x" "1714000000000" one_report) eq_refl).
  - exact (proj2 (proj1 (proj2 (C9_upload_validates_before_any_request
                                  (B := Mem.backend)
                                  huge_photo None "k3j9x" "1714000000000" one_report))
                    eq_refl)).
  - apply (proj1 (proj2 (proj2 (proj2 (C9_upload_validates_before_any_request
                                         (B := Mem.backend)
                                         photo None "k3j9x" "1714000000000" one_report))))).
    + reflexivity.
    + vm_compute. discriminate.
Defined.

(** ** Categories and severities through a fetch *)

Section Fetch.
Context {B : Backend}.
Implicit Type w : World B.

(** Streetlight is the one local category whose remote category no
    other local category shares. *)
Lemma streetlight_maps_uniquely (c : ReportCategory) :
  reportCategoryToIssueCategory (category_str c)
  = reportCategoryToIssueCategory (category_str streetlight) ->
  c = streetlight.
Proof. destruct c; simpl; intros H; try reflexivity; discriminate H. Qed.

(** A change notification fetches the whole list again. *)
Lemma onIssuesChange_refetches payload w : onIssuesChange payload w = fetchReports w.
Proof. reflexivity. Qed.

(** The record [addReport] itself appends keeps the category and the
    severity of the draft. *)
Lemma newReport_keeps_local_vocabulary report created :
  Report.category (newReport report created) = Draft.category report
  /\ Report.severity (newReport report created) = Draft.severity report.
Proof. split; reflexivity. Qed.

(** C2, as the code has it: when the remote list holds, at some
    position, a row with the category and the priority that [addReport]
    wrote for a draft, the record a full fetch builds at that position
    carries the remote category the draft's category was mapped to (no
    mapping back is applied).  So a category of the local vocabulary
    comes back as it was exactly when it is [other], the one category
    the mapping leaves alone.  For every severity value of the local
    vocabulary the record carries the draft's severity. *)
Theorem C2_fetch_carries_the_remote_category
    (report : Draft.t) w (issues : list Issue.t) s' (i : nat) (row : Issue.t) :
  serve B GetIssues (store w) = (inr issues, s') ->
  issues !! i = Some row ->
  Issue.category row = NewIssue.category (supabaseIssue report) ->
  Issue.priority row = NewIssue.priority (supabaseIssue report) ->
  exists fetched,
    reports (after fetchReports w) !! i = Some fetched
    /\ Report.id fetched = Issue.id row
    /\ Report.category fetched = reportCategoryToIssueCategory (Draft.category report)
    /\ (forall c : ReportCategory,
          Draft.category report = category_str c ->
          (Report.category fetched = Draft.category report <-> c = other))
    /\ (forall s : ReportSeverity,
          Draft.severity report = severity_str s ->
          Report.severity fetched = Draft.severity report).
Proof.
  intros H Hi Hcategory Hpriority. exists (formatReport row).
  unfold after. rewrite (fetchReports_fetched _ _ _ H).
  split; [| split; [| split; [| split]]].
  - cbn [snd reports]. now rewrite list_lookup_fmap, Hi.
  - reflexivity.
  - cbn [formatReport Report.category]. now rewrite Hcategory.
  - intros c Hc. cbn [formatReport Report.category]. rewrite Hcategory.
    cbn [supabaseIssue NewIssue.category]. rewrite Hc.
    destruct c; split; intros Heq; try reflexivity; discriminate Heq.
  - intros s Hs. cbn [formatReport Report.severity]. rewrite Hpriority.
    cbn [supabaseIssue NewIssue.priority]. rewrite Hs.
    destruct s; reflexivity.
Qed.

End Fetch.

(** C2 fails on the code: Jane reports a streetlight, the only category
    that maps uniquely; after the list is fetched again her report reads
    [electricity]. *)
Lemma C2_counterexample :
  let w1 := after (addReport streetlight_draft) (Mem.mounted Mem.empty) in
  let w2 := after fetchReports w1 in
  (Report.category <$> reports w1) = ["streetlight"]
  /\ (Report.category <$> reports w2) = ["electricity"]
  /\ ~ (forall fetched,
          fetched ∈ reports w2 ->
          Report.category fetched = Draft.category streetlight_draft).
Proof.
  intros w1 w2. split; [reflexivity |]. split; [reflexivity |].
  intros Hall.
  specialize (Hall (formatReport (Mem.created (supabaseIssue streetlight_draft) 1))).
  discriminate Hall. apply list_elem_of_singleton. reflexivity.
Defined.

(** C2 as amended, run on Jane's report: the streetlight comes back as
    [electricity], which is not what she chose, at severity [medium]. *)
Lemma C2_witness :
  exists fetched,
    reports (after fetchReports one_report) !! 0%nat = Some fetched
    /\ Report.category fetched = "electricity"
    /\ Report.category fetched <> Draft.category streetlight_draft
    /\ Report.severity fetched = "medium".
Proof.
  destruct (C2_fetch_carries_the_remote_category (B := Mem.backend)
              streetlight_draft one_report
              [Mem.created (supabaseIssue streetlight_draft) 1]
              (store one_report) 0%nat
              (Mem.created (supabaseIssue streetlight_draft) 1)
              eq_refl eq_refl eq_refl eq_refl)
    as (fetched & Hfetched & _ & Hcategory & Hback & Hseverity).
  exists fetched. split; [exact Hfetched |]. split; [exact Hcategory |].
  split; [| exact (Hseverity medium eq_refl)].
  intros Hsame. apply (Hback streetlight eq_refl) in Hsame. discriminate Hsame.
Defined.

(** ** The upvote invariant *)

Section Invariant.
Context {B : Backend}.
Implicit Type w : World B.

Lemma or_number_zero (n : Z) : Js.or_number n 0 = n.
Proof.
  unfold Js.or_number, Js.truthy_number.
  destruct (Z.eqb_spec n 0) as [-> | _]; reflexivity.
Qed.

Lemma consistent_upvote id userId now report :
  consistent report -> consistent (upvote id userId now report).
Proof.
  intros [Hnodup Hcount].
  destruct (decide (Report.id report = id)) as [Hid | Hid].
  - destruct (decide (userId ∈ Report.upvotedBy report)) as [Hin | Hin].
    + now rewrite upvote_again.
    + rewrite (upvote_first _ _ now _ Hid Hin). split; simpl.
      * apply NoDup_app. split; [assumption |]. split; [| apply NoDup_singleton].
        intros voter Hvoter Hsame. apply list_elem_of_singleton in Hsame.
        subst voter. contradiction.
      * rewrite length_app, Hcount. simpl. lia.
  - now rewrite upvote_other.
Qed.

Lemma consistent_append_comment reportId now newComment report :
  consistent report -> consistent (append_comment reportId now newComment report).
Proof. unfold append_comment. now destruct (bool_decide _). Qed.

Lemma consistent_merge report updates now :
  Updates.upvotes updates = None ->
  Updates.upvotedBy updates = None ->
  consistent report -> consistent (merge report updates now).
Proof.
  intros Hupvotes HupvotedBy H. unfold consistent, merge. simpl.
  now rewrite Hupvotes, HupvotedBy.
Qed.

Lemma consistent_newReport report created :
  consistent (newReport report created) <-> Issue.votes created = 0.
Proof.
  unfold consistent, newReport. simpl. rewrite or_number_zero.
  split; [now intros [_ H] | intros H; split; [constructor | assumption]].
Qed.

Lemma consistent_formatReport issue :
  consistent (formatReport issue) <-> Issue.votes issue = 0.
Proof.
  unfold consistent, formatReport. simpl. rewrite or_number_zero.
  split; [now intros [_ H] | intros H; split; [constructor | assumption]].
Qed.

Lemma store_inv_fetched (issues : list Issue.t) :
  store_inv (formatReport <$> issues)
  <-> Forall (fun issue => Issue.votes issue = 0) issues.
Proof.
  unfold store_inv. rewrite Forall_fmap.
  apply Forall_iff. intros issue. apply consistent_formatReport.
Qed.

(** C3, as the code has it: [upvoteReport], [addComment], [deleteReport]
    and [getReportById] keep the invariant (no duplicate in [upvotedBy],
    [upvotes] equal to its size, for every local report);
    [updateReport] keeps it when the update carries neither [upvotes]
    nor [upvotedBy]; [addReport] keeps it exactly when the created
    record comes back with a vote count of 0; and a fetch, initial or
    triggered by the subscription, rebuilds every report with an empty
    [upvotedBy] and the remote vote count, so that after it the
    invariant holds exactly when every fetched record has a vote count
    of 0 (a failed fetch leaves the collection as it was). *)
Theorem C3_invariant_through_the_operations w :
  store_inv (reports w) ->
  (forall id userId now, store_inv (reports (after (upvoteReport (reports w) id userId now) w)))
  /\ (forall reportId commentData now,
        store_inv (reports (after (addComment (reports w) reportId commentData now) w)))
  /\ (forall id, store_inv (reports (after (deleteReport (reports w) id) w)))
  /\ (forall id, store_inv (reports (after (getReportById (reports w) id) w)))
  /\ (forall id updates now,
        Updates.upvotes updates = None ->
        Updates.upvotedBy updates = None ->
        store_inv (reports (after (updateReport (reports w) id updates now) w)))
  /\ (forall report,
        store_inv (reports (after (addReport report) w))
        <-> (forall (created : Issue.t) s',
               serve B (CreateIssue (supabaseIssue report)) (store w)
               = (inr created, s') ->
               Issue.votes created = 0))
  /\ (store_inv (reports (after fetchReports w))
      <-> (forall (issues : list Issue.t) s',
             serve B GetIssues (store w) = (inr issues, s') ->
             Forall (fun issue => Issue.votes issue = 0) issues))
  /\ (forall payload (issues : list Issue.t) s',
        serve B GetIssues (store w) = (inr issues, s') ->
        reports (after (onIssuesChange payload) w) = formatReport <$> issues
        /\ Forall (fun report =>
                     Report.upvotedBy report = []
                     /\ exists issue,
                         issue ∈ issues
                         /\ Report.id report = Issue.id issue
                         /\ Report.upvotes report = Issue.votes issue)
             (reports (after (onIssuesChange payload) w))).
Proof.
  intros Hinv. split_and!.
  - intros id userId now. rewrite upvoteReport_reports.
    unfold store_inv. rewrite Forall_fmap.
    eapply Forall_impl; [exact Hinv |]. intros report. apply consistent_upvote.
  - intros reportId commentData now. unfold after.
    destruct (serve_cases (comment_request reportId commentData) (store w))
      as [(e & s' & H) | (comment & s' & H)].
    + now rewrite (addComment_failed _ _ _ now _ _ _ H).
    + rewrite (addComment_created _ _ _ now _ _ _ H). simpl.
      unfold store_inv. rewrite Forall_fmap.
      eapply Forall_impl; [exact Hinv |]. intros report.
      apply consistent_append_comment.
  - intros id. unfold after.
    destruct (serve_cases (DeleteIssue id) (store w))
      as [(e & s' & H) | ([] & s' & H)].
    + now rewrite (deleteReport_failed _ _ _ _ _ H).
    + rewrite (deleteReport_deleted _ _ _ _ H). simpl.
      apply Forall_forall. intros report Hin.
      apply list_elem_of_filter in Hin as [_ Hin].
      revert report Hin. now apply Forall_forall.
  - intros id. now rewrite getReportById_keeps_reports.
  - intros id updates now Hupvotes HupvotedBy. unfold after.
    destruct (serve_cases (UpdateIssue id (supabaseUpdates updates)) (store w))
      as [(e & s' & H) | (row & s' & H)].
    + now rewrite (updateReport_failed _ _ _ now _ _ _ H).
    + rewrite (updateReport_updated _ _ _ now _ _ _ H). simpl.
      unfold store_inv. rewrite Forall_fmap.
      eapply Forall_impl; [exact Hinv |]. intros report Hreport. simpl.
      destruct (bool_decide _); [| assumption].
      now apply consistent_merge.
  - intros report. unfold after.
    destruct (serve_cases (CreateIssue (supabaseIssue report)) (store w))
      as [(e & s' & H) | (created & s' & H)].
    + rewrite (addReport_failed _ _ _ _ H). simpl. split; [| now intros _].
      intros _ created s'' H'. rewrite H in H'. discriminate H'.
    + rewrite (addReport_created _ _ _ _ H). simpl.
      unfold store_inv. rewrite Forall_app, Forall_singleton, consistent_newReport.
      split.
      * intros [_ Hvotes] created' s'' H'. rewrite H in H'.
        now injection H' as <- _.
      * intros Hall. split; [assumption | now apply (Hall created s')].
  - unfold after.
    destruct (serve_cases GetIssues (store w))
      as [(e & s' & H) | (issues & s' & H)].
    + rewrite (fetchReports_failed _ _ _ H). simpl. split; [| now intros _].
      intros _ issues s'' H'. rewrite H in H'. discriminate H'.
    + rewrite (fetchReports_fetched _ _ _ H). simpl.
      rewrite store_inv_fetched. split.
      * intros Hvotes issues' s'' H'. rewrite H in H'.
        now injection H' as <- _.
      * intros Hall. now apply (Hall issues s').
  - intros payload issues s' H. unfold after. rewrite onIssuesChange_refetches.
    rewrite (fetchReports_fetched _ _ _ H). simpl.
    split; [reflexivity |].
    rewrite Forall_fmap. apply Forall_forall. intros issue Hin. simpl.
    split; [reflexivity |]. exists issue. rewrite or_number_zero. auto.
Qed.

End Invariant.

(** Jane's report alone satisfies the invariant. *)
Lemma one_report_consistent : store_inv (reports one_report).
Proof.
  apply Forall_singleton. split; [apply NoDup_nil_2 | reflexivity].
Defined.

(** C3 fails on the code: Bob upvotes Jane's report, the remote vote is
    counted, and the refetch triggered by the change notification
    rebuilds the report with one vote and no voter. *)
Lemma C3_counterexample :
  let w1 := after (upvoteReport (reports one_report) "issue-1" "u-bob" "t8") one_report in
  let w2 := after (onIssuesChange tt) w1 in
  store_inv (reports w1)
  /\ (Report.upvotes <$> reports w2) = [1]
  /\ (Report.upvotedBy <$> reports w2) = [[]]
  /\ ~ store_inv (reports w2).
Proof.
  intros w1 w2. split_and!.
  - apply Forall_singleton. split; [apply NoDup_singleton | reflexivity].
  - reflexivity.
  - reflexivity.
  - intros Hinv. vm_compute in Hinv.
    inversion Hinv as [| report rest [_ Hcount] _]. discriminate Hcount.
Defined.

(** [Partial<Report>] also lets an update overwrite the counter alone. *)
Lemma updateReport_can_break_the_invariant :
  ~ store_inv
      (reports (after (updateReport (reports one_report) "issue-1" (upvotes_only 5) "t8")
                  one_report)).
Proof.
  intros Hinv. vm_compute in Hinv.
  inversion Hinv as [| report rest [_ Hcount] _]. discriminate Hcount.
Qed.

(** C3 as amended, run on Jane's report: an upvote, a comment and a
    fetch of the still unvoted record keep the invariant. *)
Lemma C3_witness :
  let w := one_report in
  store_inv (reports w)
  /\ store_inv (reports (after (upvoteReport (reports w) "issue-1" "u-bob" "t8") w))
  /\ store_inv (reports (after (addComment (reports w) "issue-1" test_comment "t8") w))
  /\ store_inv (reports (after fetchReports w)).
Proof.
  intros w. subst w.
  destruct (C3_invariant_through_the_operations (B := Mem.backend) one_report
              one_report_consistent)
    as (Hupvote & Hcomment & _ & _ & _ & _ & Hfetch & _).
  split_and!.
  - exact one_report_consistent.
  - apply Hupvote.
  - apply Hcomment.
  - apply Hfetch. intros issues s' H. injection H as <- _.
    apply Forall_singleton. reflexivity.
Defined.

(** * More of the provider *)

(** ** [updateReport] *)

Section Updating.
Context {B : Backend}.
Implicit Type w : World B.

Lemma fmap_unchanged {A} (f : A -> A) (l : list A) :
  Forall (fun x => f x = x) l -> f <$> l = l.
Proof.
  induction 1 as [| x l Hx _ IH]; [reflexivity |].
  rewrite fmap_cons, Hx, IH. reflexivity.
Qed.

(** When the remote update fails, [updateReport] throws the backend's
    error and leaves the local collection and the console as they
    were. *)
Theorem updateReport_failure_keeps_local_state
    (rs : list Report.t) id updates now w e s' :
  serve B (UpdateIssue id (supabaseUpdates updates)) (store w) = (inl e, s') ->
  outcome (updateReport rs id updates now) w = inl (Js.BackendError e)
  /\ reports (after (updateReport rs id updates now) w) = reports w
  /\ console (after (updateReport rs id updates now) w) = console w.
Proof.
  intros H. unfold outcome, after.
  now rewrite (updateReport_failed _ _ _ now _ _ _ H).
Qed.

(** After a successful [updateReport] the collection has the same
    length; a report with another id is where and what it was; a report
    with the id has [updatedAt] refreshed and, in each of its fourteen
    other fields, takes what the update carries and keeps what the
    update leaves out. *)
Theorem updateReport_touches_only_its_report id updates now w (row : Issue.t) s' :
  serve B (UpdateIssue id (supabaseUpdates updates)) (store w) = (inr row, s') ->
  length (reports (after (updateReport (reports w) id updates now) w))
  = length (reports w)
  /\ (forall (i : nat) (report : Report.t),
        reports w !! i = Some report ->
        (Report.id report ≠ id ->
         reports (after (updateReport (reports w) id updates now) w) !! i
         = Some report)
        /\ (Report.id report = id ->
            exists merged,
              reports (after (updateReport (reports w) id updates now) w) !! i
              = Some merged
              /\ Report.updatedAt merged = now
              /\ Report.id merged
                 = default (Report.id report) (Updates.id updates)
              /\ Report.title merged
                 = default (Report.title report) (Updates.title updates)
              /\ Report.description merged
                 = default (Report.description report) (Updates.description updates)
              /\ Report.category merged
                 = default (Report.category report) (Updates.category updates)
              /\ Report.location merged
                 = default (Report.location report) (Updates.location updates)
              /\ Report.images merged
                 = default (Report.images report) (Updates.images updates)
              /\ Report.status merged
                 = default (Report.status report) (Updates.status updates)
              /\ Report.severity merged
                 = default (Report.severity report) (Updates.severity updates)
              /\ Report.reportedBy merged
                 = default (Report.reportedBy report) (Updates.reportedBy updates)
              /\ Report.createdAt merged
                 = default (Report.createdAt report) (Updates.createdAt updates)
              /\ Report.upvotes merged
                 = default (Report.upvotes report) (Updates.upvotes updates)
              /\ Report.upvotedBy merged
                 = default (Report.upvotedBy report) (Updates.upvotedBy updates)
              /\ Report.comments merged
                 = default (Report.comments report) (Updates.comments updates)
              /\ (Updates.assignedTo updates = None ->
                  Report.assignedTo merged = Report.assignedTo report)
              /\ (forall assignee,
                    Updates.assignedTo updates = Some assignee ->
                    Report.assignedTo merged = Some assignee))).
Proof.
  intros H. unfold after. rewrite (updateReport_updated _ _ _ now _ _ _ H).
  cbn [snd reports]. split; [apply length_fmap |].
  intros i report Hi. rewrite list_lookup_fmap, Hi. cbn [fmap option_fmap option_map].
  split; intros Hid.
  - now rewrite bool_decide_eq_false_2.
  - rewrite bool_decide_eq_true_2 by assumption.
    eexists. split; [reflexivity |]. unfold merge. simpl.
    do 14 (split; [reflexivity |]).
    split; [intros Hnone | intros assignee Hsome].
    + now rewrite Hnone.
    + now rewrite Hsome.
Qed.

(** No order is imposed on statuses: whatever status a report has, an
    update to [s1] followed by an update to [s2] (each from the current
    render, both accepted by the backend) leaves it with status [s2]. *)
Theorem status_moves_freely id (s1 s2 now1 now2 : string) w
    (row1 row2 : Issue.t) st1 st2 (i : nat) (report : Report.t) :
  serve B (UpdateIssue id (supabaseUpdates (status_only s1))) (store w)
  = (inr row1, st1) ->
  serve B (UpdateIssue id (supabaseUpdates (status_only s2))) st1
  = (inr row2, st2) ->
  reports w !! i = Some report ->
  Report.id report = id ->
  Report.status
  <$> reports
        (after
           (updateReport
              (reports (after (updateReport (reports w) id (status_only s1) now1) w))
              id (status_only s2) now2)
           (after (updateReport (reports w) id (status_only s1) now1) w))
      !! i
  = Some s2.
Proof.
  intros H1 H2 Hi Hid. unfold after at 2 3.
  rewrite (updateReport_updated _ _ _ now1 _ _ _ H1). cbn [snd reports].
  unfold after. erewrite updateReport_updated by exact H2.
  cbn [snd reports]. rewrite !list_lookup_fmap, Hi.
  cbn [fmap option_fmap option_map].
  rewrite (bool_decide_eq_true_2 (Report.id report = id)) by assumption.
  rewrite bool_decide_eq_true_2 by (cbn; assumption).
  reflexivity.
Qed.

End Updating.

(** ** [deleteReport] and [addReport] *)

Section AddingAndDeleting.
Context {B : Backend}.
Implicit Type w : World B.

(** After a successful [deleteReport] no local report has the id, and
    the others are all there, in the order they had. *)
Theorem deleteReport_removes_the_report id w s' :
  serve B (DeleteIssue id) (store w) = (inr tt, s') ->
  (id ∉ (Report.id <$> reports (after (deleteReport (reports w) id) w)))
  /\ (forall report,
        report ∈ reports (after (deleteReport (reports w) id) w)
        <-> report ∈ reports w /\ Report.id report ≠ id)
  /\ reports (after (deleteReport (reports w) id) w) `sublist_of` reports w.
Proof.
  intros H. unfold after. rewrite (deleteReport_deleted _ _ _ _ H).
  cbn [snd reports]. split_and!.
  - intros Hin. apply list_elem_of_fmap in Hin as (report & -> & Hin).
    apply list_elem_of_filter in Hin as [Hne _]. now apply Hne.
  - intros report. rewrite list_elem_of_filter. tauto.
  - apply sublist_filter.
Qed.

(** A successful [addReport] returns the new report and appends it to
    whatever the collection holds at that moment; the new report has the
    backend's id and status, the draft's category, severity and author,
    no voter and no comment. *)
Theorem addReport_appends_the_created_report report w (created : Issue.t) s' :
  serve B (CreateIssue (supabaseIssue report)) (store w) = (inr created, s') ->
  exists added,
    outcome (addReport report) w = inr added
    /\ reports (after (addReport report) w) = reports w ++ [added]
    /\ Report.id added = Issue.id created
    /\ Report.status added = Issue.status created
    /\ Report.category added = Draft.category report
    /\ Report.severity added = Draft.severity report
    /\ Report.reportedBy added = Draft.reportedBy report
    /\ Report.upvotedBy added = []
    /\ Report.comments added = [].
Proof.
  intros H. exists (newReport report created). unfold outcome, after.
  rewrite (addReport_created _ _ _ _ H). repeat split.
Qed.

(** An operation that works on the list of its render overwrites what
    was added since: when a report is created and then an upvote taken
    from the render before the creation completes, the local collection
    is the upvoted old list, without the new report, although both
    requests reached the backend.  The other way round (the upvote first,
    then [addReport]) nothing is lost, since [addReport] appends to the
    current state. *)
Theorem update_from_an_older_render_drops_the_new_report
    report id userId now w (created : Issue.t) s' :
  serve B (CreateIssue (supabaseIssue report)) (store w) = (inr created, s') ->
  let w1 := after (addReport report) w in
  let w2 := after (upvoteReport (reports w) id userId now) w1 in
  let v1 := after (upvoteReport (reports w) id userId now) w in
  reports w1 = reports w ++ [newReport report created]
  /\ reports w2 = upvote id userId now <$> reports w
  /\ length (reports w2) = length (reports w)
  /\ network w2
     = network w ++ [CreateIssue (supabaseIssue report); VoteOnIssue id userId]
  /\ (forall (created' : Issue.t) s'',
        serve B (CreateIssue (supabaseIssue report)) (store v1) = (inr created', s'') ->
        reports (after (addReport report) v1)
        = (upvote id userId now <$> reports w) ++ [newReport report created']).
Proof.
  intros H w1 w2 v1. subst w1 w2 v1. split_and!.
  - unfold after. now rewrite (addReport_created _ _ _ _ H).
  - apply upvoteReport_maps.
  - rewrite upvoteReport_maps. apply length_fmap.
  - unfold after at 2. rewrite (addReport_created _ _ _ _ H). cbn [snd].
    unfold after.
    destruct (serve_cases (VoteOnIssue id userId) s')
      as [(e & s2 & Hv) | ([] & s2 & Hv)].
    + erewrite upvoteReport_vote_failed by exact Hv. cbn [snd network].
      now rewrite <- app_assoc.
    + erewrite upvoteReport_voted by exact Hv. cbn [snd network].
      now rewrite <- app_assoc.
  - intros created' s'' H'. unfold after at 1.
    rewrite (addReport_created _ _ _ _ H'). cbn [snd reports].
    now rewrite upvoteReport_maps.
Qed.

End AddingAndDeleting.

(** ** [upvoteReport] *)

Section MoreUpvotes.
Context {B : Backend}.
Implicit Type w : World B.

Lemma upvoteReport_sends (rs : list Report.t) id userId now w :
  network (after (upvoteReport rs id userId now) w)
  = network w ++ [VoteOnIssue id userId].
Proof.
  unfold after.
  destruct (serve_cases (VoteOnIssue id userId) (store w))
    as [(e & s' & H) | ([] & s' & H)].
  - now rewrite (upvoteReport_vote_failed _ _ _ now _ _ _ H).
  - now rewrite (upvoteReport_voted _ _ _ now _ _ H).
Qed.

(** Every call asks the backend to vote, exactly once: also when the
    user is already among the voters of the report, and when no local
    report has the id, the two cases in which the local collection stays
    as it is. *)
Theorem upvoteReport_always_asks_the_backend (rs : list Report.t) id userId now w :
  network (after (upvoteReport rs id userId now) w)
  = network w ++ [VoteOnIssue id userId]
  /\ (id ∉ Report.id <$> rs ->
      reports (after (upvoteReport rs id userId now) w) = rs)
  /\ (Forall (fun report =>
                Report.id report = id -> userId ∈ Report.upvotedBy report) rs ->
      reports (after (upvoteReport rs id userId now) w) = rs).
Proof.
  split_and!.
  - apply upvoteReport_sends.
  - intros Habsent. rewrite upvoteReport_maps. apply fmap_unchanged.
    apply Forall_forall. intros report Hin. apply upvote_other.
    intros Hid. apply Habsent. rewrite <- Hid. now apply list_elem_of_fmap_2.
  - intros Hall. rewrite upvoteReport_maps. apply fmap_unchanged.
    eapply Forall_impl; [exact Hall |]. intros report Hvoted. simpl in Hvoted.
    destruct (decide (Report.id report = id)) as [Hid | Hid].
    + apply upvote_again; auto.
    + now apply upvote_other.
Qed.

(** An upvote changes nothing but [upvotes], [upvotedBy] and [updatedAt]:
    every report stays at its position with each of its twelve other
    fields as it was; [updatedAt] stays or becomes the time of the call;
    the counter does not go down and goes up by at most one; the voters
    are kept, in order, at the front. *)
Theorem upvoteReport_keeps_the_rest (rs : list Report.t) id userId now w
    (i : nat) (report : Report.t) :
  rs !! i = Some report ->
  exists voted,
    reports (after (upvoteReport rs id userId now) w) !! i = Some voted
    /\ Report.id voted = Report.id report
    /\ Report.title voted = Report.title report
    /\ Report.description voted = Report.description report
    /\ Report.category voted = Report.category report
    /\ Report.status voted = Report.status report
    /\ Report.severity voted = Report.severity report
    /\ Report.images voted = Report.images report
    /\ Report.comments voted = Report.comments report
    /\ Report.location voted = Report.location report
    /\ Report.reportedBy voted = Report.reportedBy report
    /\ Report.createdAt voted = Report.createdAt report
    /\ Report.assignedTo voted = Report.assignedTo report
    /\ (Report.updatedAt voted = Report.updatedAt report
        \/ Report.updatedAt voted = now)
    /\ Report.upvotes report <= Report.upvotes voted <= Report.upvotes report + 1
    /\ Report.upvotedBy report `prefix_of` Report.upvotedBy voted
    /\ (Report.id report = id ->
        userId ∉ Report.upvotedBy report ->
        Report.updatedAt voted = now
        /\ Report.upvotes voted = Report.upvotes report + 1
        /\ Report.upvotedBy voted = Report.upvotedBy report ++ [userId])
    /\ (Report.id report ≠ id \/ userId ∈ Report.upvotedBy report ->
        voted = report).
Proof.
  intros Hi. exists (upvote id userId now report).
  rewrite upvoteReport_maps, list_lookup_fmap, Hi.
  split; [reflexivity |].
  destruct (decide (Report.id report = id)) as [Hid | Hid];
    [destruct (decide (userId ∈ Report.upvotedBy report)) as [Hin | Hin] |].
  - rewrite (upvote_again _ _ now _ Hid Hin).
    do 12 (split; [reflexivity |]).
    split; [now left |]. split; [lia |]. split; [reflexivity |].
    split; [intros _ Hout; contradiction | reflexivity].
  - rewrite (upvote_first _ _ now _ Hid Hin). simpl.
    do 12 (split; [reflexivity |]).
    split; [now right |]. split; [lia |]. split; [now exists [userId] |].
    split; [intros _ _; repeat split |].
    intros [Hother | Hvoted]; contradiction.
  - rewrite (upvote_other _ _ now _ Hid).
    do 12 (split; [reflexivity |]).
    split; [now left |]. split; [lia |]. split; [reflexivity |].
    split; [intros Hsame; contradiction | reflexivity].
Qed.

(** Two different users who have not voted yet: after both upvotes (each
    from the current render) the counter is up by exactly two and both
    are among the voters, after the ones that were there; the other
    order gives the same counter and the same voters. *)
Theorem upvotes_by_two_users id (u1 u2 t1 t2 : string) w (i : nat) (report : Report.t) :
  u1 ≠ u2 ->
  reports w !! i = Some report ->
  Report.id report = id ->
  u1 ∉ Report.upvotedBy report ->
  u2 ∉ Report.upvotedBy report ->
  let twice (a b : string) :=
    let w1 := after (upvoteReport (reports w) id a t1) w in
    reports (after (upvoteReport (reports w1) id b t2) w1) !! i in
  (Report.upvotes <$> twice u1 u2) = Some (Report.upvotes report + 2)
  /\ (Report.upvotedBy <$> twice u1 u2) = Some (Report.upvotedBy report ++ [u1; u2])
  /\ (Report.upvotes <$> twice u2 u1) = Some (Report.upvotes report + 2)
  /\ (Report.upvotedBy <$> twice u2 u1) = Some (Report.upvotedBy report ++ [u2; u1]).
Proof.
  intros Hne Hi Hid H1 H2 twice. subst twice. cbv beta zeta.
  assert (Hstep : forall a b,
             a ≠ b ->
             a ∉ Report.upvotedBy report ->
             b ∉ Report.upvotedBy report ->
             Report.upvotes (upvote id b t2 (upvote id a t1 report))
             = Report.upvotes report + 2
             /\ Report.upvotedBy (upvote id b t2 (upvote id a t1 report))
                = Report.upvotedBy report ++ [a; b]).
  { intros a b Hab Ha Hb.
    rewrite (upvote_first _ _ t1 _ Hid Ha).
    rewrite upvote_first; cbn; [| assumption |].
    - split; [lia | now rewrite <- app_assoc].
    - intros Hin. apply elem_of_app in Hin as [Hin | Hin]; [contradiction |].
      apply list_elem_of_singleton in Hin. congruence. }
  rewrite !upvoteReport_maps, !list_lookup_fmap, Hi.
  cbn [fmap option_fmap option_map].
  destruct (Hstep u1 u2 Hne H1 H2) as [-> ->].
  destruct (Hstep u2 u1 (not_eq_sym Hne) H2 H1) as [-> ->].
  repeat split.
Qed.

End MoreUpvotes.

(** ** [addComment] and the fetch *)

Section CommentsAndFetch.
Context {B : Backend}.
Implicit Type w : World B.

(** A successful [addComment] appends one comment to the report with
    the id, after the comments it had: the backend's id and time, the
    caller's text and author; it refreshes [updatedAt] and keeps the
    votes.  Reports with another id are where and what they were. *)
Theorem addComment_appends_to_its_report reportId commentData now w
    (comment : IssueComment.t) s' (i : nat) (report : Report.t) :
  serve B (comment_request reportId commentData) (store w) = (inr comment, s') ->
  reports w !! i = Some report ->
  (Report.id report ≠ reportId ->
   reports (after (addComment (reports w) reportId commentData now) w) !! i
   = Some report)
  /\ (Report.id report = reportId ->
      exists commented,
        reports (after (addComment (reports w) reportId commentData now) w) !! i
        = Some commented
        /\ Report.comments commented
           = Report.comments report
             ++ [{| ReportComment.id := IssueComment.id comment;
                    ReportComment.text := cd_text commentData;
                    ReportComment.createdAt := IssueComment.created_at comment;
                    ReportComment.user := cd_user commentData |}]
        /\ Report.updatedAt commented = now
        /\ Report.upvotes commented = Report.upvotes report
        /\ Report.upvotedBy commented = Report.upvotedBy report
        /\ Report.status commented = Report.status report).
Proof.
  intros H Hi. unfold after. rewrite (addComment_created _ _ _ now _ _ _ H).
  cbn [snd reports]. rewrite list_lookup_fmap, Hi.
  cbn [fmap option_fmap option_map]. unfold append_comment.
  split; intros Hid.
  - now rewrite bool_decide_eq_false_2.
  - rewrite bool_decide_eq_true_2 by assumption.
    eexists. split; [reflexivity |]. repeat split.
Qed.

(** A comment on an id that no local report has is still written to the
    backend, and the local collection stays as it is: the operation ends
    well and nothing shows locally. *)
Theorem addComment_on_an_unknown_report reportId commentData now w
    (comment : IssueComment.t) s' :
  serve B (comment_request reportId commentData) (store w) = (inr comment, s') ->
  reportId ∉ (Report.id <$> reports w) ->
  outcome (addComment (reports w) reportId commentData now) w = inr tt
  /\ reports (after (addComment (reports w) reportId commentData now) w) = reports w
  /\ network (after (addComment (reports w) reportId commentData now) w)
     = network w ++ [comment_request reportId commentData]
  /\ store (after (addComment (reports w) reportId commentData now) w) = s'.
Proof.
  intros H Habsent. unfold outcome, after.
  rewrite (addComment_created _ _ _ now _ _ _ H). cbn [fst snd reports network store].
  split_and!; try reflexivity.
  apply fmap_unchanged. apply Forall_forall. intros report Hin.
  unfold append_comment. rewrite bool_decide_eq_false_2; [reflexivity |].
  intros Hid. apply Habsent. rewrite <- Hid. now apply list_elem_of_fmap_2.
Qed.

(** A fetch, initial or triggered by a change notification, replaces the
    collection by one report per fetched record, in the backend's order
    and under the backend's ids, whatever the collection held; every
    fetched report comes without comments and with the author named
    Anonymous, so comments appended locally and author names are gone
    after it. *)
Theorem fetch_replaces_the_collection payload w (issues : list Issue.t) s' :
  serve B GetIssues (store w) = (inr issues, s') ->
  (Report.id <$> reports (after (onIssuesChange payload) w)) = (Issue.id <$> issues)
  /\ reports (after (onIssuesChange payload) w) = reports (after fetchReports w)
  /\ Forall (fun report =>
               Report.comments report = []
               /\ ref_name (Report.reportedBy report) = "Anonymous")
       (reports (after fetchReports w)).
Proof.
  intros H. unfold after. rewrite onIssuesChange_refetches.
  rewrite (fetchReports_fetched _ _ _ H). cbn [snd reports].
  split_and!.
  - rewrite <- list_fmap_compose. reflexivity.
  - reflexivity.
  - rewrite Forall_fmap. apply Forall_forall. intros issue _. split; reflexivity.
Qed.

(** [fetchReports] never throws and always ends with [isLoading] off;
    when the request fails it logs the error and keeps the collection. *)
Theorem fetchReports_always_settles w :
  outcome fetchReports w = inr tt
  /\ isLoading (after fetchReports w) = false
  /\ network (after fetchReports w) = network w ++ [GetIssues]
  /\ (forall e s',
        serve B GetIssues (store w) = (inl e, s') ->
        reports (after fetchReports w) = reports w
        /\ console (after fetchReports w)
           = console w ++ [("Error fetching reports:", Js.BackendError e)]).
Proof.
  unfold outcome, after.
  destruct (serve_cases GetIssues (store w))
    as [(e & s' & H) | (issues & s' & H)].
  - rewrite (fetchReports_failed _ _ _ H). cbn [fst snd isLoading network].
    split_and!; try reflexivity.
    intros e' s'' H'. rewrite H in H'. injection H' as <- _. split; reflexivity.
  - rewrite (fetchReports_fetched _ _ _ H). cbn [fst snd isLoading network].
    split_and!; try reflexivity.
    intros e' s'' H'. rewrite H in H'. discriminate H'.
Qed.

End CommentsAndFetch.

(** ** The vocabulary mapping on arbitrary strings *)

(** Membership in a list written out. *)
Ltac in_list := repeat first [apply list_elem_of_here | apply list_elem_of_further].

Section MappingRange.
Context {B : Backend}.
Implicit Type w : World B.

(** Whatever string comes in, the category mapping answers road,
    electricity, waste or other (never water), and the severity mapping
    answers low, medium or high (never critical); a severity outside the
    local vocabulary becomes medium. *)
Theorem mapping_stays_in_the_remote_vocabulary (s : string) :
  reportCategoryToIssueCategory s ∈ ["road"; "electricity"; "waste"; "other"]
  /\ reportCategoryToIssueCategory s ≠ "water"
  /\ reportSeverityToPriority s ∈ ["low"; "medium"; "high"]
  /\ reportSeverityToPriority s ≠ "critical"
  /\ (s ∉ ["low"; "medium"; "high"] -> reportSeverityToPriority s = "medium").
Proof.
  split_and!.
  - unfold reportCategoryToIssueCategory.
    repeat (destruct (String.eqb s _); [in_list |]). in_list.
  - unfold reportCategoryToIssueCategory.
    repeat (destruct (String.eqb s _); [discriminate |]). discriminate.
  - unfold reportSeverityToPriority.
    repeat (destruct (String.eqb s _); [in_list |]). in_list.
  - unfold reportSeverityToPriority.
    repeat (destruct (String.eqb s _); [discriminate |]). discriminate.
  - intros Hout. unfold reportSeverityToPriority.
    destruct (String.eqb_spec s "low"); [subst s; exfalso; apply Hout; in_list |].
    destruct (String.eqb_spec s "medium"); [reflexivity |].
    destruct (String.eqb_spec s "high"); [subst s; exfalso; apply Hout; in_list |].
    reflexivity.
Qed.

(** The mapping is written for local categories.  A report that came out
    of a fetch carries the remote category; when that category is sent
    back in an update it goes out as other, for each of the five remote
    categories. *)
Theorem fetched_category_goes_back_as_other
    (c : IssueCategory) (issue : Issue.t) id updates now w :
  Issue.category issue = issue_category_str c ->
  Updates.category updates = Some (Report.category (formatReport issue)) ->
  IssueUpdates.category (supabaseUpdates updates) = Some "other"
  /\ network (after (updateReport (reports w) id updates now) w)
     = network w ++ [UpdateIssue id (supabaseUpdates updates)].
Proof.
  intros Hc Hu. split; [| apply updateReport_sends].
  unfold supabaseUpdates. cbn [IssueUpdates.category]. rewrite Hu.
  cbn [formatReport Report.category]. rewrite Hc. destruct c; reflexivity.
Qed.

End MappingRange.

(** ** lib/storage *)

Section StorageProperties.
Context {B : Backend}.
Implicit Type w : World B.

Lemma split_nonempty sep s : Js.split sep s ≠ [].
Proof.
  destruct s as [| c s]; simpl; [discriminate |].
  destruct (Ascii.eqb c sep); [discriminate |].
  destruct (Js.split sep s); discriminate.
Qed.

(** No segment of a split holds the separator. *)
Lemma split_segments_clean sep s :
  Forall (fun seg => JsString.includes_char seg sep = false) (Js.split sep s).
Proof.
  induction s as [| c s IH]; simpl.
  - repeat constructor.
  - destruct (Ascii.eqb c sep) eqn:Hc.
    + constructor; [reflexivity | assumption].
    + destruct (Js.split sep s) as [| seg rest].
      * repeat constructor. simpl. now rewrite Hc.
      * inversion IH as [| ? ? Hseg Hrest]; subst.
        constructor; [| assumption]. simpl. now rewrite Hc.
Qed.

Lemma last_elem_of {A} (l : list A) d : l ≠ [] -> List.last l d ∈ l.
Proof.
  induction l as [| x [| y l] IH]; intros Hne; [contradiction | |].
  - apply list_elem_of_here.
  - apply list_elem_of_further. apply IH. discriminate.
Qed.

Lemma pop_split_clean sep s :
  JsString.includes_char (Js.pop (Js.split sep s) "") sep = false.
Proof.
  pose proof (split_segments_clean sep s) as Hall.
  rewrite Forall_forall in Hall. apply Hall.
  apply last_elem_of, split_nonempty.
Qed.

(** A string without the separator is its own only segment. *)
Lemma split_without_separator sep s :
  JsString.includes_char s sep = false -> Js.split sep s = [s].
Proof.
  induction s as [| c s IH]; simpl; [reflexivity |].
  intros H. apply orb_false_iff in H as [Hc Hs].
  rewrite Hc, (IH Hs). reflexivity.
Qed.

Lemma includes_char_app a b c :
  JsString.includes_char (a +:+ b) c
  = JsString.includes_char a c || JsString.includes_char b c.
Proof.
  induction a as [| d a IH]; simpl; [reflexivity |].
  rewrite IH. now rewrite orb_assoc.
Qed.

Lemma filePath_has_a_slash file folder random stamp :
  JsString.includes_char (filePath file folder random stamp) "/" = true.
Proof.
  unfold filePath. rewrite !includes_char_app. simpl.
  now rewrite orb_true_r.
Qed.

Section Removal.
Variable remove : list string -> remote B -> option string * remote B.

Lemma deleteImage_asks url w :
  Js.pop (Js.split "/" url) "" ≠ "" ->
  deleteImage remove url w
  = match remove [Js.pop (Js.split "/" url) ""] (store w) with
    | (None, s') =>
        (inr tt, mkWorld (reports w) (isLoading w) (console w) s' (network w))
    | (Some e, s') =>
        (inl (Js.Error "Failed to delete image"),
         mkWorld (reports w) (isLoading w)
           (console w
            ++ [("Error deleting file:", Js.BackendError e);
                ("Error in deleteImage:", Js.Error "Failed to delete image")])
           s' (network w))
    end.
Proof.
  intros Hpath. unfold deleteImage, storage_remove. unfold_monad.
  assert (Htruthy : Js.truthy_string (Js.pop (Js.split "/" url) "") = true).
  { unfold Js.truthy_string. now destruct (String.eqb_spec (Js.pop (Js.split "/" url) "") ""). }
  rewrite Htruthy. cbn.
  destruct (remove _ (store w)) as [[e |] s']; cbn; [| reflexivity].
  now rewrite <- app_assoc.
Qed.

(** [deleteImage] asks the storage to remove one path, the text after
    the last slash of the URL, and nothing else; when the storage
    refuses, [deleteImage] logs the storage's error and throws its own
    "Failed to delete image".  The path it names holds no slash, while
    every path [uploadImage] stores under holds one: whatever the URL,
    [deleteImage] never names the path of an upload. *)
Theorem deleteImage_names_the_last_segment url w :
  let path := Js.pop (Js.split "/" url) "" in
  path ≠ "" ->
  store (after (deleteImage remove url) w) = (remove [path] (store w)).2
  /\ match (remove [path] (store w)).1 with
     | None =>
         outcome (deleteImage remove url) w = inr tt
         /\ console (after (deleteImage remove url) w) = console w
     | Some e =>
         outcome (deleteImage remove url) w = inl (Js.Error "Failed to delete image")
         /\ console (after (deleteImage remove url) w)
            = console w
              ++ [("Error deleting file:", Js.BackendError e);
                  ("Error in deleteImage:", Js.Error "Failed to delete image")]
     end
  /\ JsString.includes_char path "/" = false
  /\ (forall file folder random stamp, path ≠ filePath file folder random stamp).
Proof.
  intros path Hpath. subst path. split_and!.
  - unfold after. rewrite (deleteImage_asks _ _ Hpath).
    destruct (remove _ (store w)) as [[e |] s']; reflexivity.
  - unfold outcome, after. rewrite (deleteImage_asks _ _ Hpath).
    destruct (remove _ (store w)) as [[e |] s']; split; reflexivity.
  - apply pop_split_clean.
  - intros file folder random stamp Heq.
    pose proof (pop_split_clean "/" url) as Hclean.
    rewrite Heq, filePath_has_a_slash in Hclean. discriminate.
Qed.

(** A URL that is empty or ends with a slash is refused with "Invalid
    file URL" before the storage is asked: the backend is as it was. *)
Theorem deleteImage_refuses_a_url_without_a_name url w :
  Js.pop (Js.split "/" url) "" = "" ->
  deleteImage remove url w
  = (inl (Js.Error "Invalid file URL"),
     mkWorld (reports w) (isLoading w)
       (console w ++ [("Error in deleteImage:", Js.Error "Invalid file URL")])
       (store w) (network w)).
Proof.
  intros H. unfold deleteImage. unfold_monad. rewrite H. reflexivity.
Qed.

End Removal.

(** Nothing follows the last slash of a URL that ends with one. *)
Lemma split_trailing_separator sep s :
  Js.split sep (s +:+ String sep EmptyString) = Js.split sep s ++ [EmptyString].
Proof.
  induction s as [| c s IH].
  - simpl. now rewrite Ascii.eqb_refl.
  - change (String c s +:+ String sep EmptyString)
      with (String c (s +:+ String sep EmptyString)).
    cbn [Js.split]. rewrite IH.
    destruct (Ascii.eqb c sep); [reflexivity |].
    pose proof (split_nonempty sep s) as Hne.
    destruct (Js.split sep s); [contradiction | reflexivity].
Qed.

Lemma pop_split_after_slash url :
  Js.pop (Js.split "/" (url +:+ "/")) "" = "".
Proof.
  unfold Js.pop. rewrite split_trailing_separator. apply last_last.
Qed.

End StorageProperties.

(** ** [uploadImage] past its validation, and the picker in front of it *)

Section UploadProperties.
Context {B : Backend}.
Implicit Type w : World B.

Lemma uploadImage_valid_run file folder random stamp w :
  Js.startsWith (File.type file) "image/" = true ->
  File.size file <= maxSize ->
  uploadImage file folder random stamp w
  = match serve B (StorageUpload (filePath file folder random stamp) file) (store w) with
    | (inl e, s') =>
        (inl (Js.Error ("Failed to upload image: " +:+ e)),
         mkWorld (reports w) (isLoading w)
           (console w
            ++ [("Error uploading file:", Js.BackendError e);
                ("Error in uploadImage:", Js.Error ("Failed to upload image: " +:+ e))])
           s' (network w ++ [StorageUpload (filePath file folder random stamp) file]))
    | (inr _, s') =>
        if Js.truthy_string (getPublicUrl B (filePath file folder random stamp))
        then
          (inr (getPublicUrl B (filePath file folder random stamp)),
           mkWorld (reports w) (isLoading w) (console w) s'
             (network w ++ [StorageUpload (filePath file folder random stamp) file]))
        else
          (inl (Js.Error "Failed to get public URL for uploaded image"),
           mkWorld (reports w) (isLoading w)
             (console w
              ++ [("Error in uploadImage:",
                   Js.Error "Failed to get public URL for uploaded image")])
             s' (network w ++ [StorageUpload (filePath file folder random stamp) file]))
    end.
Proof.
  intros Htype Hsize. unfold uploadImage, filePath. unfold_monad. rewrite Htype. cbn.
  destruct (File.size file >? maxSize) eqn:Hgt; [apply Z.gtb_lt in Hgt; lia |].
  cbn.
  destruct (serve B _ (store w)) as [[e | []] s']; cbn.
  - now rewrite <- app_assoc.
  - destruct (Js.truthy_string _); reflexivity.
Qed.

(** For a file that passes the validation: when the storage refuses the
    upload, [uploadImage] throws "Failed to upload image: " followed by
    the storage's message and logs the failure twice; when the storage
    takes it, [uploadImage] returns the public URL of the stored path,
    or, were that URL empty, throws with the file left in the storage. *)
Theorem uploadImage_after_validation file folder random stamp w :
  Js.startsWith (File.type file) "image/" = true ->
  File.size file <= maxSize ->
  let path := filePath file folder random stamp in
  (forall e s',
      serve B (StorageUpload path file) (store w) = (inl e, s') ->
      outcome (uploadImage file folder random stamp) w
      = inl (Js.Error ("Failed to upload image: " +:+ e))
      /\ console (after (uploadImage file folder random stamp) w)
         = console w
           ++ [("Error uploading file:", Js.BackendError e);
               ("Error in uploadImage:", Js.Error ("Failed to upload image: " +:+ e))])
  /\ (forall s',
      serve B (StorageUpload path file) (store w) = (inr tt, s') ->
      store (after (uploadImage file folder random stamp) w) = s'
      /\ (getPublicUrl B path ≠ "" ->
          outcome (uploadImage file folder random stamp) w = inr (getPublicUrl B path)
          /\ console (after (uploadImage file folder random stamp) w) = console w)
      /\ (getPublicUrl B path = "" ->
          outcome (uploadImage file folder random stamp) w
          = inl (Js.Error "Failed to get public URL for uploaded image"))).
Proof.
  intros Htype Hsize path. subst path. unfold outcome, after.
  rewrite (uploadImage_valid_run _ _ _ _ _ Htype Hsize).
  split.
  - intros e s' H. rewrite H. split; reflexivity.
  - intros s' H. rewrite H. unfold Js.truthy_string.
    destruct (String.eqb_spec (getPublicUrl B (filePath file folder random stamp)) "")
      as [Hempty | Hurl]; cbn.
    + split_and!; [reflexivity | intros Hne; contradiction | reflexivity].
    + split_and!; [reflexivity | intros _; split; reflexivity | intros He; contradiction].
Qed.

(** The path [uploadImage] stores under is the folder ([issues] unless
    given), the random part, the time and the extension; of the file's
    name only the extension is kept, the text after its last dot: it
    holds no dot, a name without a dot is its own extension, and a name
    ending with a dot has the empty one. *)
Theorem stored_path_keeps_only_the_extension (file : File.t) folder random stamp :
  let ext := Js.pop (Js.split "." (File.name file)) "" in
  filePath file folder random stamp
  = default "issues" folder +:+ "/" +:+ (random +:+ "-" +:+ stamp +:+ "." +:+ ext)
  /\ JsString.includes_char ext "." = false
  /\ (JsString.includes_char (File.name file) "." = false -> ext = File.name file)
  /\ (forall base, File.name file = base +:+ "." -> ext = "").
Proof.
  intros ext. subst ext. split_and!.
  - reflexivity.
  - apply pop_split_clean.
  - intros H. now rewrite (split_without_separator _ _ H).
  - intros base ->. unfold Js.pop. rewrite split_trailing_separator. apply last_last.
Qed.

(** The picker of [PhotoUpload] and [uploadImage] agree on what a valid
    file is: a file passes the picker's filter exactly when
    [uploadImage] goes as far as the storage request for it. *)
Theorem picker_and_upload_agree file folder random stamp w :
  PhotoUpload.isValidType file && PhotoUpload.isValidSize file = true
  <-> network (after (uploadImage file folder random stamp) w)
      = network w ++ [StorageUpload (filePath file folder random stamp) file].
Proof.
  unfold PhotoUpload.isValidType, PhotoUpload.isValidSize. split.
  - intros H. apply andb_true_iff in H as [Htype Hsize].
    apply Z.leb_le in Hsize. now apply uploadImage_uploads.
  - intros Hsent.
    destruct (Js.startsWith (File.type file) "image/") eqn:Htype.
    + destruct (Z.leb_spec (File.size file) maxSize) as [Hle | Hgt]; [reflexivity |].
      exfalso. unfold after in Hsent.
      rewrite (uploadImage_too_large _ _ _ _ _ Htype Hgt) in Hsent.
      cbn in Hsent. apply (f_equal length) in Hsent.
      rewrite length_app in Hsent. simpl in Hsent. lia.
    + exfalso. unfold after in Hsent.
      rewrite (uploadImage_not_image _ _ _ _ _ Htype) in Hsent.
      cbn in Hsent. apply (f_equal length) in Hsent.
      rewrite length_app in Hsent. simpl in Hsent. lia.
Qed.

End UploadProperties.

(** [handleFileSelect] checks the limit against the selection of the
    render it belongs to and appends to the current selection.  A batch
    whose valid files would pass [maxFiles] on top of the render's
    selection is refused as a whole: nothing is appended and
    [onImagesChange] is not called.  A batch that fits appends its valid
    files after the current ones and reports the render's selection
    followed by them.  Only image files within the size limit get in.
    So the selection stays within [maxFiles] when the handler's render
    is the current one; in general it is bounded by the current length
    plus the room the render's selection left. *)
Theorem selection_stays_within_maxFiles
    (maxFiles : nat) (images prev : list File.t) (files : option (list File.t)) :
  let result := PhotoUpload.handleFileSelect maxFiles images prev files in
  let valid (newFiles : list File.t) :=
    List.filter
      (fun file => PhotoUpload.isValidType file && PhotoUpload.isValidSize file)
      newFiles in
  prev `prefix_of` PhotoUpload.selection result
  /\ (forall file,
        file ∈ PhotoUpload.selection result ->
        file ∈ prev
        \/ (Js.startsWith (File.type file) "image/" = true
            /\ File.size file <= maxSize))
  /\ (length (PhotoUpload.selection result)
      <= length prev + (maxFiles - length images))%nat
  /\ (prev = images ->
      (length images <= maxFiles)%nat ->
      (length (PhotoUpload.selection result) <= maxFiles)%nat
      /\ (PhotoUpload.reported result = None
          \/ PhotoUpload.reported result = Some (PhotoUpload.selection result)))
  /\ (files = None ->
      PhotoUpload.selection result = prev /\ PhotoUpload.reported result = None)
  /\ (forall newFiles,
        files = Some newFiles ->
        (maxFiles < length images + length (valid newFiles))%nat ->
        PhotoUpload.selection result = prev
        /\ PhotoUpload.reported result = None)
  /\ (forall newFiles,
        files = Some newFiles ->
        (length images + length (valid newFiles) <= maxFiles)%nat ->
        PhotoUpload.selection result = prev ++ valid newFiles
        /\ PhotoUpload.reported result = Some (images ++ valid newFiles)).
Proof.
  intros result valid. subst result valid. unfold PhotoUpload.handleFileSelect.
  destruct files as [newFiles |].
  - set (validFiles := List.filter _ newFiles).
    destruct (Nat.ltb_spec maxFiles (length images + length validFiles))
      as [Hmany | Hfits]; cbn [PhotoUpload.selection PhotoUpload.reported].
    + split; [reflexivity |]. split; [auto |]. split; [lia |].
      split; [intros -> Hlen; split; [exact Hlen | now left] |].
      split; [discriminate |].
      split; [intros newFiles' [= <-] _; split; reflexivity |].
      intros newFiles' [= <-] Hfits. fold validFiles in Hfits. lia.
    + split; [now exists validFiles |]. split.
      { intros file Hin. apply elem_of_app in Hin as [Hin | Hin]; [now left | right].
        apply list_elem_of_In in Hin. apply List.filter_In in Hin as [_ Hvalid].
        apply andb_true_iff in Hvalid as [Htype Hsize].
        split; [exact Htype | now apply Z.leb_le]. }
      split; [rewrite length_app; lia |].
      split; [intros -> Hlen; split; [rewrite length_app; lia | now right] |].
      split; [discriminate |].
      split; [intros newFiles' [= <-] Hmany; fold validFiles in Hmany; lia |].
      intros newFiles' [= <-] _. split; reflexivity.
  - cbn [PhotoUpload.selection PhotoUpload.reported].
    split; [reflexivity |]. split; [auto |]. split; [lia |].
    split; [intros -> Hlen; split; [exact Hlen | now left] |].
    split; [split; reflexivity |].
    split; intros newFiles; discriminate.
Qed.

(** ** The handlers that call the provider *)

Section HandlerProperties.
Context {B : Backend}.
Implicit Type w : World B.

(** The admin's status change does not wait for [updateReport]: the
    handler never throws and always shows "Status Updated", with the
    first underscore of the status turned into a space; when the backend
    refuses the update, the local collection is as it was and nothing is
    logged. *)
Theorem status_toast_does_not_wait (rs : list Report.t) reportId newStatus now w :
  outcome (AdminDashboard.handleStatusChange rs reportId newStatus now) w
  = inr [plain "Status Updated"
           ("Report status has been updated to " +:+ JsString.dquote
            +:+ JsString.replace newStatus "_" " " +:+ JsString.dquote +:+ ".")]
  /\ network (after (AdminDashboard.handleStatusChange rs reportId newStatus now) w)
     = network w ++ [UpdateIssue reportId (supabaseUpdates (status_only newStatus))]
  /\ (forall e s',
        serve B (UpdateIssue reportId (supabaseUpdates (status_only newStatus)))
          (store w)
        = (inl e, s') ->
        reports (after (AdminDashboard.handleStatusChange rs reportId newStatus now) w)
        = reports w
        /\ console (after (AdminDashboard.handleStatusChange rs reportId newStatus now) w)
           = console w).
Proof.
  unfold outcome, after, AdminDashboard.handleStatusChange, detached.
  unfold mbind, M_bind, bind, mret, M_ret, ret.
  destruct (serve_cases (UpdateIssue reportId (supabaseUpdates (status_only newStatus)))
              (store w)) as [(e & s' & H) | (row & s' & H)].
  - rewrite (updateReport_failed _ _ _ now _ _ _ H). cbn.
    split_and!; try reflexivity.
    intros e' s'' H'. split; reflexivity.
  - rewrite (updateReport_updated _ _ _ now _ _ _ H). cbn.
    split_and!; try reflexivity.
    intros e' s'' H'. rewrite H in H'. discriminate H'.
Qed.

(** Confirming a deletion does not wait for [deleteReport] either: the
    handler always shows "Issue Deleted" and goes to the dashboard; when
    the backend refuses the deletion the report is still in the local
    collection and nothing is logged. *)
Theorem delete_toast_does_not_wait (rs : list Report.t) (page : ViewIssue.Page) w :
  outcome (ViewIssue.confirmDelete rs page) w
  = inr ([plain "Issue Deleted" "Your issue has been deleted."], "/dashboard")
  /\ network (after (ViewIssue.confirmDelete rs page) w)
     = network w ++ [DeleteIssue (Report.id (ViewIssue.report page))]
  /\ (forall e s',
        serve B (DeleteIssue (Report.id (ViewIssue.report page))) (store w)
        = (inl e, s') ->
        reports (after (ViewIssue.confirmDelete rs page) w) = reports w
        /\ console (after (ViewIssue.confirmDelete rs page) w) = console w).
Proof.
  unfold outcome, after, ViewIssue.confirmDelete, detached.
  unfold mbind, M_bind, bind, mret, M_ret, ret.
  destruct (serve_cases (DeleteIssue (Report.id (ViewIssue.report page))) (store w))
    as [(e & s' & H) | ([] & s' & H)].
  - rewrite (deleteReport_failed _ _ _ _ _ H). cbn.
    split_and!; try reflexivity.
    intros e' s'' H'. split; reflexivity.
  - rewrite (deleteReport_deleted _ _ _ _ H). cbn.
    split_and!; try reflexivity.
    intros e' s'' H'. rewrite H in H'. discriminate H'.
Qed.

(** Upvoting from the issue page: a visitor who is not signed in, and a
    user the page's copy of the report already lists as a voter, get a
    toast and nothing else happens; anyone else triggers one vote
    request and is thanked, whether or not the vote goes through.  The
    handler of the report list has the first guard only: it sends the
    vote of a signed-in user even for a report that lists the user. *)
Theorem upvote_handlers_guard (rs : list Report.t) (auth : Auth)
    (page : ViewIssue.Page) now w :
  ((isAuthenticated auth = false \/ currentUser auth = None) ->
   ViewIssue.handleUpvote rs auth page now w
   = (inr [destructive "Authentication required" "Please sign in to upvote reports"], w)
   /\ ReportList.handleUpvote rs auth (Report.id (ViewIssue.report page)) now w
      = (inr [destructive "Authentication required"
                "Please sign in to upvote reports"], w))
  /\ (forall user,
        isAuthenticated auth = true ->
        currentUser auth = Some user ->
        (User.id user ∈ Report.upvotedBy (ViewIssue.report page) ->
         ViewIssue.handleUpvote rs auth page now w
         = (inr [destructive "Already upvoted" "You have already upvoted this report"],
            w))
        /\ (User.id user ∉ Report.upvotedBy (ViewIssue.report page) ->
            outcome (ViewIssue.handleUpvote rs auth page now) w
            = inr [plain "Report upvoted" "Thank you for your feedback!"]
            /\ network (after (ViewIssue.handleUpvote rs auth page now) w)
               = network w
                 ++ [VoteOnIssue (Report.id (ViewIssue.report page)) (User.id user)])
        /\ (outcome
              (ReportList.handleUpvote rs auth (Report.id (ViewIssue.report page)) now) w
            = inr [plain "Report upvoted" "Thank you for your feedback!"]
            /\ network
                 (after
                    (ReportList.handleUpvote rs auth
                       (Report.id (ViewIssue.report page)) now) w)
               = network w
                 ++ [VoteOnIssue (Report.id (ViewIssue.report page)) (User.id user)])).
Proof.
  assert (Hvote : forall id userId,
             (detached (upvoteReport rs id userId now);;
              mret [plain "Report upvoted" "Thank you for your feedback!"]) w
             = (inr [plain "Report upvoted" "Thank you for your feedback!"],
                after (upvoteReport rs id userId now) w)).
  { intros id userId. unfold detached, after, mbind, M_bind, bind, mret, M_ret, ret.
    destruct (upvoteReport rs id userId now w). reflexivity. }
  split.
  - intros [Hout | Hnone]; unfold ViewIssue.handleUpvote, ReportList.handleUpvote.
    + rewrite Hout. split; reflexivity.
    + rewrite Hnone. destruct (isAuthenticated auth); split; reflexivity.
  - intros user Hauth Huser.
    unfold ViewIssue.handleUpvote, ReportList.handleUpvote, ViewIssue.hasUpvoted.
    rewrite Hauth, Huser. unfold Js.or_array. split; [| split].
    + intros Hin. now rewrite bool_decide_eq_true_2.
    + intros Hnot. rewrite bool_decide_eq_false_2 by assumption.
      unfold outcome, after. rewrite Hvote. cbn [fst snd].
      split; [reflexivity |].
      apply upvoteReport_sends.
    + unfold outcome, after. rewrite Hvote. cbn [fst snd].
      split; [reflexivity |].
      apply upvoteReport_sends.
Qed.

End HandlerProperties.

(** ** The comment form and the edit form of the issue page *)

Section IssuePageForms.
Context {B : Backend}.
Implicit Type w : World B.
Variable trim : string -> string.

(** Submitting the comment form does nothing at all for a visitor who is
    not signed in and for a comment that is empty once trimmed.
    Otherwise it sends the trimmed text under the user's identity, and
    never throws: on success the input is cleared and the user is told
    so; on failure the typed text stays in the input, an error toast is
    shown, the error is logged (by the provider and by the form) and the
    local collection is as it was. *)
Theorem comment_form_submits_trimmed_text
    (rs : list Report.t) (auth : Auth) (page : ViewIssue.Page) now w :
  ((isAuthenticated auth = false \/ currentUser auth = None
    \/ trim (ViewIssue.comment page) = "") ->
   ViewIssue.handleCommentSubmit trim rs auth page now w = (inr (page, []), w))
  /\ (forall user,
        isAuthenticated auth = true ->
        currentUser auth = Some user ->
        trim (ViewIssue.comment page) ≠ "" ->
        let request :=
          comment_request (Report.id (ViewIssue.report page))
            (comment_of user (trim (ViewIssue.comment page))) in
        network (after (ViewIssue.handleCommentSubmit trim rs auth page now) w)
        = network w ++ [request]
        /\ (forall (comment : IssueComment.t) s',
              serve B request (store w) = (inr comment, s') ->
              outcome (ViewIssue.handleCommentSubmit trim rs auth page now) w
              = inr (ViewIssue.with_comment page "" false,
                     [plain "Comment Added"
                        "Your comment has been added to the report."]))
        /\ (forall e s',
              serve B request (store w) = (inl e, s') ->
              outcome (ViewIssue.handleCommentSubmit trim rs auth page now) w
              = inr (ViewIssue.with_comment page (ViewIssue.comment page) false,
                     [destructive "Error" "There was a problem adding your comment."])
              /\ reports (after (ViewIssue.handleCommentSubmit trim rs auth page now) w)
                 = reports w
              /\ console (after (ViewIssue.handleCommentSubmit trim rs auth page now) w)
                 = console w
                   ++ [("Error adding comment:", Js.BackendError e);
                       ("Error adding comment:", Js.BackendError e)])).
Proof.
  split.
  - intros Hnothing. unfold ViewIssue.handleCommentSubmit.
    destruct (isAuthenticated auth); [| reflexivity].
    destruct (currentUser auth) as [user |]; [| reflexivity].
    destruct Hnothing as [Hf | [Hn | Hblank]]; try discriminate.
    rewrite Hblank. reflexivity.
  - intros user Hauth Huser Htext request. subst request.
    unfold outcome, after, ViewIssue.handleCommentSubmit.
    rewrite Hauth, Huser.
    assert (Htruthy : Js.truthy_string (trim (ViewIssue.comment page)) = true).
    { unfold Js.truthy_string.
      now destruct (String.eqb_spec (trim (ViewIssue.comment page)) ""). }
    rewrite Htruthy. cbn [negb].
    unfold try_catch, mbind, M_bind, bind, mret, M_ret, ret, console_error.
    fold (comment_of user (trim (ViewIssue.comment page))).
    destruct (serve_cases
                (comment_request (Report.id (ViewIssue.report page))
                   (comment_of user (trim (ViewIssue.comment page)))) (store w))
      as [(e & s' & H) | (comment & s' & H)].
    + rewrite (addComment_failed _ _ _ now _ _ _ H). cbn.
      split_and!; [reflexivity | |].
      * intros comment s'' H'. rewrite H in H'. discriminate H'.
      * intros e' s'' H'. rewrite H in H'. injection H' as <- _.
        split_and!; try reflexivity. now rewrite <- app_assoc.
    + rewrite (addComment_created _ _ _ now _ _ _ H). cbn.
      split_and!; [reflexivity | |].
      * intros comment' s'' H'. reflexivity.
      * intros e' s'' H'. rewrite H in H'. discriminate H'.
Qed.

(** Saving the edit form as [handleEdit] filled it (the backend
    accepting the update) keeps at most one image, the first of the
    page's copy; turns a category outside the local vocabulary into
    pothole locally and road remotely; and sends no status, leaving
    status, votes and comments of the local report alone.  The form does
    not open for a report whose latitude or longitude is 0 or NaN. *)
Theorem saving_the_edit_form
    (page page' : ViewIssue.Page) (data : ViewIssue.EditFormValues) toasts
    now w (row : Issue.t) s' (i : nat) (report : Report.t) :
  ViewIssue.handleEdit page = (page', Some data, toasts) ->
  serve B
    (UpdateIssue (Report.id (ViewIssue.report page))
       (supabaseUpdates (ViewIssue.edit data)))
    (store w)
  = (inr row, s') ->
  reports w !! i = Some report ->
  Report.id report = Report.id (ViewIssue.report page) ->
  JsNumber.falsy (lat (coordinates (Report.location (ViewIssue.report page)))) = false
  /\ JsNumber.falsy (lng (coordinates (Report.location (ViewIssue.report page)))) = false
  /\ exists saved,
      reports (after (ViewIssue.onSubmit (reports w) page' data now) w) !! i
      = Some saved
      /\ (length (Report.images saved) <= 1)%nat
      /\ Report.images saved `prefix_of` Report.images (ViewIssue.report page)
      /\ (Report.category (ViewIssue.report page) ∈ ViewIssue.validCategories ->
          Report.category saved = Report.category (ViewIssue.report page))
      /\ (Report.category (ViewIssue.report page) ∉ ViewIssue.validCategories ->
          Report.category saved = "pothole"
          /\ IssueUpdates.category (supabaseUpdates (ViewIssue.edit data))
             = Some "road")
      /\ IssueUpdates.status (supabaseUpdates (ViewIssue.edit data)) = None
      /\ Report.status saved = Report.status report
      /\ Report.upvotes saved = Report.upvotes report
      /\ Report.comments saved = Report.comments report.
Proof.
  intros Hedit H Hi Hid. unfold ViewIssue.handleEdit in Hedit.
  destruct (JsNumber.falsy (lat _)) eqn:Hlat; [discriminate Hedit |].
  destruct (JsNumber.falsy (lng _)) eqn:Hlng; [discriminate Hedit |].
  cbn [orb] in Hedit. injection Hedit as <- <- _.
  split; [reflexivity |]. split; [reflexivity |].
  set (data := {| ViewIssue.f_title := _ |}) in *.
  exists (merge report (ViewIssue.edit data) now).
  split.
  { unfold after, ViewIssue.onSubmit, try_catch, mbind, M_bind, bind, mret, M_ret, ret.
    cbn [ViewIssue.report ViewIssue.with_dialog].
    rewrite (updateReport_updated _ _ _ now _ _ _ H). cbn [snd reports].
    rewrite list_lookup_fmap, Hi. cbn [fmap option_fmap option_map].
    now rewrite bool_decide_eq_true_2. }
  subst data. cbn.
  split.
  { destruct (Report.images (ViewIssue.report page)) as [| first rest]; cbn; [lia |].
    destruct (Js.truthy_string first); cbn; lia. }
  split.
  { destruct (Report.images (ViewIssue.report page)) as [| first rest]; cbn;
      [now exists [] |].
    destruct (Js.truthy_string first); [now exists rest | now exists (first :: rest)]. }
  split.
  { intros Hin. now rewrite bool_decide_eq_true_2. }
  split.
  { intros Hout. rewrite !bool_decide_eq_false_2 by assumption. split; reflexivity. }
  repeat split.
Qed.

End IssuePageForms.

(** ** The lists of the dashboards *)

Lemma three_way_count {A} (P1 P2 P3 : A -> Prop)
    `{forall x, Decision (P1 x)} `{forall x, Decision (P2 x)}
    `{forall x, Decision (P3 x)} (l : list A) :
  (forall x, P1 x -> ~ P2 x /\ ~ P3 x) ->
  (forall x, P2 x -> ~ P3 x) ->
  (length (filter P1 l) + length (filter P2 l) + length (filter P3 l) <= length l)%nat
  /\ (Forall (fun x => P1 x \/ P2 x \/ P3 x) l ->
      (length (filter P1 l) + length (filter P2 l) + length (filter P3 l))%nat
      = length l).
Proof.
  intros H12 H23. induction l as [| x l [IHle IHeq]]; [split; reflexivity |].
  rewrite !filter_cons.
  split.
  - destruct (decide (P1 x)) as [Hx1 | Hx1]; destruct (decide (P2 x)) as [Hx2 | Hx2];
      destruct (decide (P3 x)) as [Hx3 | Hx3]; simpl;
      try lia; exfalso;
      first [apply (proj1 (H12 x Hx1)); assumption
            | apply (proj2 (H12 x Hx1)); assumption
            | apply (H23 x Hx2); assumption].
  - intros Hall. apply Forall_cons in Hall as [Hx Hall]. specialize (IHeq Hall).
    destruct (decide (P1 x)) as [Hx1 | Hx1]; destruct (decide (P2 x)) as [Hx2 | Hx2];
      destruct (decide (P3 x)) as [Hx3 | Hx3]; simpl;
      try lia; exfalso;
      first [apply (proj1 (H12 x Hx1)); assumption
            | apply (proj2 (H12 x Hx1)); assumption
            | apply (H23 x Hx2); assumption
            | tauto].
Qed.

(** The three counters of the citizen's dashboard never count a report
    twice, and count every report of the user exactly once when all
    statuses are of the local vocabulary; a report of the user with any
    other status is in none of the three lists. *)
Theorem dashboard_buckets_partition (reports : list Report.t) (user : User.t) :
  let mine := Dashboard.userReports reports user in
  (length (Dashboard.pendingReports mine) + length (Dashboard.activeReports mine)
   + length (Dashboard.resolvedReports mine) <= length mine)%nat
  /\ (Forall (fun report =>
                Report.status report
                ∈ ["reported"; "under_review"; "in_progress"; "resolved"; "closed"])
        mine ->
      (length (Dashboard.pendingReports mine) + length (Dashboard.activeReports mine)
       + length (Dashboard.resolvedReports mine))%nat
      = length mine)
  /\ (forall report,
        report ∈ mine ->
        Report.status report
        ∉ ["reported"; "under_review"; "in_progress"; "resolved"; "closed"] ->
        (report ∉ Dashboard.pendingReports mine)
        /\ (report ∉ Dashboard.activeReports mine)
        /\ (report ∉ Dashboard.resolvedReports mine))
  /\ Forall (fun report => ref_id (Report.reportedBy report) = User.id user) mine.
Proof.
  intros mine.
  unfold Dashboard.pendingReports, Dashboard.activeReports, Dashboard.resolvedReports.
  pose proof (three_way_count
                (fun report : Report.t =>
                   Report.status report = "reported"
                   \/ Report.status report = "under_review")
                (fun report : Report.t => Report.status report = "in_progress")
                (fun report : Report.t =>
                   Report.status report = "resolved"
                   \/ Report.status report = "closed") mine) as Hcount.
  destruct Hcount as [Hle Heq].
  { intros report [-> | ->]; split; [discriminate | intros [? | ?]; discriminate
                                    | discriminate | intros [? | ?]; discriminate]. }
  { intros report -> [? | ?]; discriminate. }
  split_and!.
  - exact Hle.
  - intros Hall. apply Heq. eapply Forall_impl; [exact Hall |].
    intros report Hin. cbn in Hin.
    repeat (apply elem_of_cons in Hin as [Hin | Hin]; [tauto |]).
    now apply elem_of_nil in Hin.
  - intros report _ Hout.
    split_and!; intros Hin; apply list_elem_of_filter in Hin as [Hstatus _];
      apply Hout; [destruct Hstatus as [-> | ->] | rewrite Hstatus
                  | destruct Hstatus as [-> | ->]]; in_list.
  - apply Forall_forall. intros report Hin.
    now apply list_elem_of_filter in Hin as [Hmine _].
Qed.

Lemma slice_window {A} (l : list A) (a b : Z) :
  0 <= a -> a <= b ->
  JsArray.slice l a b = take (Z.to_nat (b - a)) (drop (Z.to_nat a) l).
Proof.
  intros Ha Hab. unfold JsArray.slice.
  destruct (Z.ltb_spec a 0) as [| _]; [lia |].
  destruct (Z.ltb_spec b 0) as [| _]; [lia |].
  destruct (Z_le_gt_dec (Z.of_nat (length l)) a) as [Hout | Hin].
  - rewrite !drop_ge by lia. now rewrite !take_nil.
  - rewrite (Z.min_l a) by lia.
    destruct (Z_le_gt_dec b (Z.of_nat (length l))) as [Hb | Hb].
    + rewrite (Z.min_l b) by lia. now rewrite Z.max_l by lia.
    + rewrite (Z.min_r b) by lia. rewrite Z.max_l by lia.
      rewrite !take_ge; [reflexivity | |]; rewrite length_drop; lia.
Qed.

Lemma pages_up_to {A} (l : list A) (n k : nat) :
  concat ((fun p : nat => take n (drop ((p - 1) * n) l)) <$> seq 1 k) = take (k * n) l.
Proof.
  induction k as [| k IH]; [reflexivity |].
  rewrite seq_S, fmap_app, concat_app, IH. cbn [fmap list_fmap concat].
  rewrite app_nil_r. replace (1 + k - 1)%nat with k by lia.
  rewrite take_take_drop. f_equal. lia.
Qed.

(** Pagination of the admin table, for a positive page size: the pages
    1 to [totalPages], one after the other, are the whole list, nothing
    lost and nothing repeated; no page holds more than [itemsPerPage]
    reports; each of these pages holds at least one; every later page is
    empty. *)
Theorem pages_partition_the_list {A} (sortedReports : list A) (itemsPerPage : Z) :
  0 < itemsPerPage ->
  concat
    ((fun p : nat =>
        AdminDashboard.paginatedReports sortedReports (Z.of_nat p) itemsPerPage)
     <$> seq 1 (Z.to_nat (AdminDashboard.totalPages sortedReports itemsPerPage)))
  = sortedReports
  /\ (forall page,
        1 <= page ->
        Z.of_nat
          (length (AdminDashboard.paginatedReports sortedReports page itemsPerPage))
        <= itemsPerPage)
  /\ (forall page,
        1 <= page <= AdminDashboard.totalPages sortedReports itemsPerPage ->
        AdminDashboard.paginatedReports sortedReports page itemsPerPage ≠ [])
  /\ (forall page,
        AdminDashboard.totalPages sortedReports itemsPerPage < page ->
        AdminDashboard.paginatedReports sortedReports page itemsPerPage = []).
Proof.
  intros Hn.
  set (len := Z.of_nat (length sortedReports)).
  set (total := AdminDashboard.totalPages sortedReports itemsPerPage).
  assert (Htotal : len <= total * itemsPerPage < len + itemsPerPage).
  { subst total. unfold AdminDashboard.totalPages. fold len.
    pose proof (Z.div_mod (len + itemsPerPage - 1) itemsPerPage ltac:(lia)) as Hdiv.
    pose proof (Z.mod_pos_bound (len + itemsPerPage - 1) itemsPerPage Hn) as Hmod.
    nia. }
  assert (Hpos : 0 <= total) by (subst len; nia).
  assert (Hpage : forall page,
             1 <= page ->
             AdminDashboard.paginatedReports sortedReports page itemsPerPage
             = take (Z.to_nat itemsPerPage)
                 (drop (Z.to_nat ((page - 1) * itemsPerPage)) sortedReports)).
  { intros page Hp.
    unfold AdminDashboard.paginatedReports, AdminDashboard.endIndex,
      AdminDashboard.startIndex.
    rewrite slice_window by nia. do 2 f_equal. lia. }
  split_and!.
  - transitivity
      (concat
         ((fun p : nat =>
             take (Z.to_nat itemsPerPage)
               (drop ((p - 1) * Z.to_nat itemsPerPage) sortedReports))
          <$> seq 1 (Z.to_nat total))).
    + f_equal. apply list_fmap_ext. intros i p Hin.
      apply lookup_seq in Hin as [-> _].
      rewrite Hpage by lia. do 2 f_equal. nia.
    + rewrite pages_up_to. apply take_ge. subst len. nia.
  - intros page Hp. rewrite (Hpage page Hp), length_take. lia.
  - intros page [Hp Hlast]. rewrite (Hpage page Hp).
    intros Hnil. apply (f_equal length) in Hnil.
    rewrite length_take, length_drop in Hnil. simpl in Hnil. subst len. nia.
  - intros page Hlate. rewrite Hpage by lia.
    rewrite drop_ge; [apply take_nil |]. subst len. nia.
Qed.

(** * The properties above, run *)

Lemma updateReport_failure_run :
  let w := one_report_offline in
  let update := updateReport (B := Mem.backend) (reports w) "issue-1"
                  (title_only "Lamp out") "t8" in
  outcome update w = inl (Js.BackendError "Failed to fetch")
  /\ reports (after update w) = reports w
  /\ console (after update w) = console w.
Proof.
  intros w update. subst w update.
  apply (updateReport_failure_keeps_local_state (B := Mem.backend)
           (reports one_report_offline) "issue-1" (title_only "Lamp out") "t8"
           one_report_offline "Failed to fetch" (store one_report_offline)).
  reflexivity.
Defined.

Lemma updateReport_touches_run :
  let w := two_reports in
  let w' := after (updateReport (reports w) "issue-2" (title_only "Deep pothole") "t8") w in
  length (reports w') = 2%nat
  /\ reports w' !! 0%nat = reports w !! 0%nat
  /\ (Report.title <$> reports w') = ["Broken streetlight on Oak Avenue"; "Deep pothole"]
  /\ (Report.updatedAt <$> reports w' !! 1%nat) = Some "t8"
  /\ (Report.location <$> reports w') = (Report.location <$> reports w)
  /\ (Report.reportedBy <$> reports w') = (Report.reportedBy <$> reports w)
  /\ (Report.createdAt <$> reports w') = (Report.createdAt <$> reports w)
  /\ (Report.assignedTo <$> reports w') = (Report.assignedTo <$> reports w).
Proof.
  intros w w'. subst w w'.
  edestruct (updateReport_touches_only_its_report (B := Mem.backend)
               "issue-2" (title_only "Deep pothole") "t8" two_reports)
    as [Hlen Hall]; [reflexivity |].
  split; [exact Hlen |]. split; [| repeat split; reflexivity].
  refine (proj1 (Hall 0%nat
                   (newReport streetlight_draft
                      (Mem.created (supabaseIssue streetlight_draft) 1))
                   eq_refl) _).
  discriminate.
Defined.

Lemma status_moves_freely_run :
  let w := one_report in
  let w1 := after (updateReport (reports w) "issue-1" (status_only "resolved") "t8") w in
  let w2 := after (updateReport (reports w1) "issue-1" (status_only "reported") "t9") w1 in
  (Report.status <$> reports w1) = ["resolved"]
  /\ (Report.status <$> reports w2 !! 0%nat) = Some "reported".
Proof.
  intros w w1 w2. subst w w1 w2. split; [reflexivity |].
  eapply (status_moves_freely (B := Mem.backend) "issue-1" "resolved" "reported"
            "t8" "t9" one_report _ _ _ _ 0%nat
            (newReport streetlight_draft
               (Mem.created (supabaseIssue streetlight_draft) 1)));
    reflexivity.
Defined.

Lemma deleteReport_removes_run :
  let w := two_reports in
  let w' := after (deleteReport (reports w) "issue-1") w in
  ("issue-1" ∉ (Report.id <$> reports w'))
  /\ (Report.id <$> reports w') = ["issue-2"].
Proof.
  intros w w'. subst w w'. split; [| reflexivity].
  eapply (proj1 (deleteReport_removes_the_report (B := Mem.backend)
                   "issue-1" two_reports _ _)).
  Unshelve. 2: reflexivity.
Defined.

Lemma addReport_appends_run :
  exists added,
    outcome (addReport pothole_draft) one_report = inr added
    /\ Report.id added = "issue-2"
    /\ Report.category added = "pothole"
    /\ Report.status added = "reported".
Proof.
  edestruct (addReport_appends_the_created_report (B := Mem.backend)
               pothole_draft one_report)
    as (added & Hout & _ & Hid & Hstatus & Hcategory & _); [reflexivity |].
  exists added. split; [exact Hout |].
  split; [exact Hid |]. split; [exact Hcategory | exact Hstatus].
Defined.

Lemma older_render_run :
  let w := one_report in
  let w1 := after (addReport pothole_draft) w in
  let w2 := after (upvoteReport (reports w) "issue-1" "u-bob" "t8") w1 in
  (Report.id <$> reports w1) = ["issue-1"; "issue-2"]
  /\ length (reports w2) = 1%nat
  /\ (Issue.id <$> Mem.rows (store w2)) = ["issue-2"; "issue-1"].
Proof.
  intros w w1 w2. subst w w1 w2. split; [reflexivity |]. split; [| reflexivity].
  edestruct (update_from_an_older_render_drops_the_new_report (B := Mem.backend)
               pothole_draft "issue-1" "u-bob" "t8" one_report)
    as (_ & _ & Hlen & _); [reflexivity |].
  exact Hlen.
Defined.

Lemma upvoteReport_keeps_the_rest_run :
  exists voted,
    reports (after (upvoteReport (reports one_report) "issue-1" "u-bob" "t8") one_report)
    !! 0%nat = Some voted
    /\ Report.title voted = "Broken streetlight on Oak Avenue"
    /\ Report.upvotedBy voted = ["u-bob"]
    /\ Report.location voted = oak_avenue
    /\ Report.reportedBy voted = jane
    /\ Report.assignedTo voted = None
    /\ Report.updatedAt voted = "t8".
Proof.
  edestruct (upvoteReport_keeps_the_rest (B := Mem.backend) (reports one_report)
               "issue-1" "u-bob" "t8" one_report 0%nat)
    as (voted & Hvoted & _ & Htitle & _); [reflexivity |].
  exists voted. split; [exact Hvoted |]. split; [exact Htitle |].
  injection Hvoted as <-. repeat split; reflexivity.
Defined.

Lemma upvotes_by_two_users_run :
  let w := one_report in
  let w1 := after (upvoteReport (reports w) "issue-1" "u-bob" "t8") w in
  let w2 := after (upvoteReport (reports w1) "issue-1" "u-eve" "t9") w1 in
  (Report.upvotes <$> reports w2 !! 0%nat) = Some 2
  /\ (Report.upvotedBy <$> reports w2 !! 0%nat) = Some ["u-bob"; "u-eve"].
Proof.
  intros w w1 w2. subst w w1 w2.
  edestruct (upvotes_by_two_users (B := Mem.backend) "issue-1" "u-bob" "u-eve"
               "t8" "t9" one_report 0%nat)
    as (Hcount & Hvoters & _).
  - discriminate.
  - reflexivity.
  - reflexivity.
  - apply not_elem_of_nil.
  - apply not_elem_of_nil.
  - split; [exact Hcount | exact Hvoters].
Defined.

Lemma addComment_appends_run :
  exists commented,
    reports (after (addComment (reports one_report) "issue-1" test_comment "t8")
               one_report) !! 0%nat
    = Some commented
    /\ (ReportComment.text <$> Report.comments commented) = ["test"]
    /\ Report.updatedAt commented = "t8".
Proof.
  edestruct (addComment_appends_to_its_report (B := Mem.backend))
    with (reportId := "issue-1") (commentData := test_comment) (now := "t8")
         (w := one_report) (i := 0%nat)
    as [_ Hsame]; [reflexivity | reflexivity |].
  destruct (Hsame eq_refl) as (commented & Hcommented & Hcomments & Hupdated & _).
  exists commented. split; [exact Hcommented |].
  split; [now rewrite Hcomments | exact Hupdated].
Defined.

Lemma addComment_unknown_run :
  let w := one_report in
  let w' := after (addComment (reports w) "issue-7" test_comment "t8") w in
  reports w' = reports w
  /\ (IssueComment.issue_id <$> (JoinedComment.row <$> Mem.comment_rows (store w')))
     = ["issue-7"].
Proof.
  intros w w'. subst w w'. split; [| reflexivity].
  edestruct (addComment_on_an_unknown_report (B := Mem.backend)
               "issue-7" test_comment "t8" one_report)
    as (_ & Hreports & _).
  - reflexivity.
  - vm_compute. intros Hin.
    repeat (apply elem_of_cons in Hin as [Hin | Hin]; [discriminate |]).
    now apply elem_of_nil in Hin.
  - exact Hreports.
Defined.

Lemma fetch_replaces_run :
  let w := after (addComment (reports one_report) "issue-1" test_comment "t8") one_report in
  (length <$> (Report.comments <$> reports w)) = [1%nat]
  /\ Forall (fun report =>
               Report.comments report = []
               /\ ref_name (Report.reportedBy report) = "Anonymous")
       (reports (after fetchReports w)).
Proof.
  intros w. subst w. split; [reflexivity |].
  eapply (proj2 (proj2 (fetch_replaces_the_collection (B := Mem.backend) tt _ _ _ _))).
  Unshelve. 3: reflexivity.
Defined.

Lemma fetched_category_run :
  IssueUpdates.category (supabaseUpdates (category_only "electricity")) = Some "other"
  /\ (Report.category <$> reports (after fetchReports one_report)) = ["electricity"].
Proof.
  split; [| reflexivity].
  refine (proj1 (fetched_category_goes_back_as_other (B := Mem.backend) electricity
                   (Mem.created (supabaseIssue streetlight_draft) 1) "issue-1"
                   (category_only "electricity") "t8" one_report eq_refl eq_refl)).
Defined.

(** The photo is uploaded, then [deleteImage] is given its public URL:
    the storage is asked to remove the bare file name, and the stored
    object is still there. *)
Lemma deleteImage_run :
  let url := "https://cdn.example/images/issues/k3j9x-1714000000000.png" in
  let w := after (deleteImage Bucket.remove url) photo_uploaded in
  outcome (uploadImage photo None "k3j9x" "1714000000000") Bucket.empty = inr url
  /\ Bucket.objects (store photo_uploaded) = ["issues/k3j9x-1714000000000.png"]
  /\ store w = (Bucket.remove ["k3j9x-1714000000000.png"] (store photo_uploaded)).2
  /\ Bucket.objects (store w) = ["issues/k3j9x-1714000000000.png"].
Proof.
  intros url w. subst url w. split; [reflexivity |]. split; [reflexivity |].
  split; [| reflexivity].
  refine (proj1 (deleteImage_names_the_last_segment (B := Bucket.backend) Bucket.remove
                   "https://cdn.example/images/issues/k3j9x-1714000000000.png"
                   photo_uploaded _)).
  discriminate.
Defined.

Lemma deleteImage_refuses_run :
  outcome (deleteImage Bucket.remove "https://cdn.example/images/") photo_uploaded
  = inl (Js.Error "Invalid file URL")
  /\ store (after (deleteImage Bucket.remove "https://cdn.example/images/") photo_uploaded)
     = store photo_uploaded.
Proof.
  unfold outcome, after.
  rewrite (deleteImage_refuses_a_url_without_a_name (B := Bucket.backend) Bucket.remove
             "https://cdn.example/images/" photo_uploaded eq_refl).
  split; reflexivity.
Defined.

Lemma uploadImage_refused_by_the_storage_run :
  outcome (uploadImage photo None "k3j9x" "1714000000000") one_report_offline
  = inl (Js.Error "Failed to upload image: Failed to fetch")
  /\ length (console (after (uploadImage photo None "k3j9x" "1714000000000")
                       one_report_offline)) = 2%nat.
Proof.
  edestruct (uploadImage_after_validation (B := Mem.backend) photo None "k3j9x"
               "1714000000000" one_report_offline) as [Hrefused _].
  - reflexivity.
  - vm_compute. discriminate.
  - destruct (Hrefused "Failed to fetch" (store one_report_offline) eq_refl)
      as [Hout Hconsole].
    split; [exact Hout | now rewrite Hconsole].
Defined.

(** One photo is selected and a batch of three arrives, of which one
    is valid: it fits.  A further photo does not.  Two batches handled
    by the render that saw one photo both fit, and leave three. *)
Lemma selection_run :
  let fits := PhotoUpload.handleFileSelect 2 [photo] [photo] (Some [pdf; huge_photo; photo]) in
  let full := PhotoUpload.handleFileSelect 2 [photo; photo] [photo; photo] (Some [photo]) in
  let stale := PhotoUpload.handleFileSelect 2 [photo] [photo; photo] (Some [photo]) in
  PhotoUpload.selection fits = [photo; photo]
  /\ PhotoUpload.reported fits = Some [photo; photo]
  /\ (length (PhotoUpload.selection fits) <= 2)%nat
  /\ PhotoUpload.selection full = [photo; photo]
  /\ PhotoUpload.reported full = None
  /\ PhotoUpload.selection stale = [photo; photo; photo]
  /\ PhotoUpload.reported stale = Some [photo; photo].
Proof.
  intros fits full stale. subst fits full stale.
  split; [reflexivity |]. split; [reflexivity |].
  split; [| repeat split; reflexivity].
  destruct (selection_stays_within_maxFiles 2 [photo] [photo]
              (Some [pdf; huge_photo; photo]))
    as (_ & _ & _ & Hcurrent & _).
  apply Hcurrent; [reflexivity | simpl; lia].
Defined.

(** The fetched pothole report (remote category road, two images) goes
    through the edit form unchanged: one image is left, the category is
    pothole locally and road remotely. *)
Lemma saving_the_edit_form_run :
  exists data saved,
    (ViewIssue.handleEdit pothole_page).1.2 = Some data
    /\ reports (after (ViewIssue.onSubmit (reports pothole_fetched)
                         (ViewIssue.with_dialog pothole_page true) data "t8")
                  pothole_fetched) !! 0%nat
       = Some saved
    /\ Report.images fetched_pothole
       = ["https://cdn.example/a.jpg"; "https://cdn.example/b.jpg"]
    /\ Report.images saved = ["https://cdn.example/a.jpg"]
    /\ Report.category fetched_pothole = "road"
    /\ Report.category saved = "pothole".
Proof.
  destruct (ViewIssue.handleEdit pothole_page) as [[page' [data |]] toasts] eqn:Hedit;
    [| discriminate Hedit].
  edestruct (saving_the_edit_form (B := Mem.backend) pothole_page page' data toasts "t8"
               pothole_fetched)
    with (i := 0%nat) as (_ & _ & saved & Hsaved & _ & _ & _ & Hcategory & _).
  - exact Hedit.
  - injection Hedit as <- <- _. reflexivity.
  - reflexivity.
  - reflexivity.
  - exists data, saved. injection Hedit as <- <- <-.
    split; [reflexivity |]. split; [exact Hsaved |].
    split; [reflexivity |].
    split; [injection Hsaved as <-; reflexivity |].
    split; [reflexivity |].
    apply Hcategory. vm_compute. intros Hin.
    repeat (apply elem_of_cons in Hin as [Hin | Hin]; [discriminate |]).
    now apply elem_of_nil in Hin.
Defined.

Lemma pages_run :
  AdminDashboard.totalPages [1; 2; 3; 4; 5] 2 = 3
  /\ AdminDashboard.paginatedReports [1; 2; 3; 4; 5] 3 2 = [5]
  /\ concat
       ((fun p : nat => AdminDashboard.paginatedReports [1; 2; 3; 4; 5] (Z.of_nat p) 2)
        <$> seq 1 3)
     = [1; 2; 3; 4; 5].
Proof.
  split; [reflexivity |]. split; [reflexivity |].
  refine (proj1 (pages_partition_the_list [1; 2; 3; 4; 5] 2 _)). lia.
Defined.
